(** * Media-generation workflow executors: a shallow embedding

    The development follows the TypeScript sources of the workflow
    executors:

    - [lib/workflow/executors/image-gen.ts] (Flux models via Replicate):
      [extractPromptsFromMarkdown], [extractPrompts], [executeImageGenNode];
    - the video executor (MiniMax / Runway Gen-3 via Replicate):
      [extractVideoPrompts], [extractPromptsFromMarkdown],
      [generateSingleClip], [stitchClipsWithFFmpeg], [executeVideoGenNode];
    - the earlier video executor that talks to the Runway SDK directly and
      polls the task status.

    Untyped upstream values ([lastOutput: any]) are JavaScript values built
    from JSON-like data: no functions, getters or proxies.  Strings are
    sequences of 8-bit code units read as Latin-1.  Exceptions are an error
    result carrying the message of the thrown [Error]. *)

From Stdlib Require Import List String Ascii ZArith QArith Qround Qabs Qpower.
From Stdlib Require Import Bool Lia Lqa Arith.
Import ListNotations.

Close Scope Q_scope.
Local Open Scope nat_scope.
Local Open Scope string_scope.

(** ** Strings *)

Module Str.

Definition LF : string := String (ascii_of_nat 10) EmptyString.

(** [s.startsWith(p)], returning what follows the prefix. *)
Fixpoint stripPrefix (p s : string) : option string :=
  match p, s with
  | EmptyString, _ => Some s
  | String _ _, EmptyString => None
  | String a p', String b s' =>
      if Ascii.eqb a b then stripPrefix p' s' else None
  end.

Definition startsWith (p s : string) : bool :=
  match stripPrefix p s with Some _ => true | None => false end.

(** [s.includes(sub)] *)
Fixpoint includes (sub s : string) : bool :=
  if startsWith sub s then true
  else match s with
       | EmptyString => false
       | String _ s' => includes sub s'
       end.

(** WhiteSpace and LineTerminator code units below 256: TAB, LF, VT, FF,
    CR, SP and NBSP. *)
Definition isSpace (c : ascii) : bool :=
  let n := nat_of_ascii c in
  (((9 <=? n) && (n <=? 13)) || (n =? 32) || (n =? 160))%nat.

Fixpoint trimStart (s : string) : string :=
  match s with
  | EmptyString => EmptyString
  | String c s' => if isSpace c then trimStart s' else s
  end.

Fixpoint trimEnd (s : string) : string :=
  match s with
  | EmptyString => EmptyString
  | String c s' =>
      match trimEnd s' with
      | EmptyString => if isSpace c then EmptyString else String c EmptyString
      | t => String c t
      end
  end.

(** [s.trim()] *)
Definition trim (s : string) : string := trimEnd (trimStart s).

(** Lower-casing of one Latin-1 code unit: A-Z, and U+00C0-U+00DE except
    the multiplication sign U+00D7. *)
Definition lowerChar (c : ascii) : ascii :=
  let n := nat_of_ascii c in
  if (((65 <=? n) && (n <=? 90))
      || ((192 <=? n) && (n <=? 222) && negb (n =? 215)))%nat
  then ascii_of_nat (n + 32) else c.

(** [s.toLowerCase()] *)
Fixpoint toLowerCase (s : string) : string :=
  match s with
  | EmptyString => EmptyString
  | String c s' => String (lowerChar c) (toLowerCase s')
  end.

(** [s.substring(0, n)] *)
Fixpoint take (n : nat) (s : string) : string :=
  match n, s with
  | O, _ => EmptyString
  | _, EmptyString => EmptyString
  | S n', String c s' => String c (take n' s')
  end.

Definition isEmpty (s : string) : bool :=
  match s with EmptyString => true | _ => false end.

(** [parts.join(sep)] *)
Fixpoint join (sep : string) (parts : list string) : string :=
  match parts with
  | [] => EmptyString
  | [p] => p
  | p :: rest => p ++ sep ++ join sep rest
  end.

(** Decimal rendering of integers, as [Number.prototype.toString] prints
    an integral number. *)
Definition digitChar (d : Z) : ascii := ascii_of_nat (48 + Z.to_nat d).

Fixpoint digitsAcc (fuel : nat) (n : Z) (acc : string) : string :=
  let acc' := String (digitChar (n mod 10)) acc in
  match fuel with
  | O => acc'
  | S fuel' => if (n <? 10)%Z then acc' else digitsAcc fuel' (n / 10) acc'
  end.

Definition ofNonneg (n : Z) : string :=
  digitsAcc (Z.to_nat (Z.log2 n)) n EmptyString.

Definition ofZ (n : Z) : string :=
  if (n <? 0)%Z then "-" ++ ofNonneg (- n) else ofNonneg n.

(** A needle whose last character, or first character, is not white
    space: trimming a text around it neither adds nor removes an
    occurrence. *)
Fixpoint endsSolid (needle : string) : bool :=
  match needle with
  | EmptyString => false
  | String a EmptyString => negb (isSpace a)
  | String _ rest => endsSolid rest
  end.

Definition startsSolid (needle : string) : bool :=
  match needle with
  | EmptyString => false
  | String a _ => negb (isSpace a)
  end.

End Str.

(** ** Exceptions *)

(** The outcome of evaluating JavaScript code that may throw: the value, or
    the message of the thrown [Error]. *)
Inductive Result (A : Type) : Type :=
| Ok (a : A)
| Throw (message : string).
Arguments Ok {A} a.
Arguments Throw {A} message.

Definition bind {A B : Type} (r : Result A) (k : A -> Result B) : Result B :=
  match r with
  | Ok a => k a
  | Throw m => Throw m
  end.

Declare Scope js_scope.
Delimit Scope js_scope with js.
Notation "x <- r ;; k" := (bind r (fun x => k))
  (at level 61, r at next level, right associativity) : js_scope.
Local Open Scope js_scope.

(** [arr.map((item, index) => f(index, item))] with a callback that may
    throw; [i] is the index of the head of [l]. *)
Fixpoint mapiM {A B : Type} (f : nat -> A -> Result B) (i : nat) (l : list A)
  : Result (list B) :=
  match l with
  | [] => Ok []
  | a :: l' =>
      b <- f i a ;;
      bs <- mapiM f (S i) l' ;;
      Ok (b :: bs)
  end.

(** [arr.map(f)] when the callback ignores the index. *)
Fixpoint mapM {A B : Type} (f : A -> Result B) (l : list A) : Result (list B) :=
  match l with
  | [] => Ok []
  | a :: l' =>
      b <- f a ;;
      bs <- mapM f l' ;;
      Ok (b :: bs)
  end.

(** The same for a callback that cannot throw. *)
Fixpoint mapi {A B : Type} (f : nat -> A -> B) (i : nat) (l : list A) : list B :=
  match l with
  | [] => []
  | a :: l' => f i a :: mapi f (S i) l'
  end.

(** ** JavaScript values *)

Module Js.

(** Values of type [any] as they come out of a previous node: JSON-like
    data.  Numbers are the integral ones (shot numbers, counts, seconds).
    The properties of an object are listed in the order in which
    [Object.keys] enumerates them. *)
Local Unset Elimination Schemes.
Inductive Value : Type :=
| Undefined
| Null
| Bool (b : bool)
| Num (n : Z)
| Str (s : string)
| Arr (items : list Value)
| Obj (props : list (string * Value)).
Local Set Elimination Schemes.

(** ToBoolean *)
Definition truthy (v : Value) : bool :=
  match v with
  | Undefined | Null => false
  | Bool b => b
  | Num n => negb (n =? 0)%Z
  | Str s => negb (Str.isEmpty s)
  | Arr _ | Obj _ => true
  end.

(** [a || b] when [b] cannot throw. *)
Definition or (a b : Value) : Value := if truthy a then a else b.

Fixpoint lookup (k : string) (props : list (string * Value)) : option Value :=
  match props with
  | [] => None
  | (k', v) :: rest => if String.eqb k k' then Some v else lookup k rest
  end.

(** [k in obj] for a plain object [obj] *)
Definition hasKey (k : string) (props : list (string * Value)) : bool :=
  match lookup k props with Some _ => true | None => false end.

(** Messages of the [TypeError]s raised by V8. *)
Definition cannotRead (what k : string) : string :=
  "Cannot read properties of " ++ what ++ " (reading '" ++ k ++ "')".
Definition cannotUseIn (k what : string) : string :=
  "Cannot use 'in' operator to search for '" ++ k ++ "' in " ++ what.
Definition notAFunction (expr : string) : string :=
  expr ++ " is not a function".
Definition cannotConvert : string :=
  "Cannot convert object to primitive value".

(** [v.k] for the property names the executors read ([shotNumber],
    [prompt], [images], ...): none of them is defined on a prototype, so
    the read yields an own property of a plain object and [undefined] on
    every other value, and throws on [null] and [undefined]. *)
Definition get (v : Value) (k : string) : Result Value :=
  match v with
  | Undefined => Throw (cannotRead "undefined" k)
  | Null => Throw (cannotRead "null" k)
  | Obj props =>
      Ok (match lookup k props with Some x => x | None => Undefined end)
  | _ => Ok Undefined
  end.

(** [Array.isArray(v)] *)
Definition asArray (v : Value) : option (list Value) :=
  match v with Arr items => Some items | _ => None end.

(** [typeof v === 'object'] *)
Definition typeofObject (v : Value) : bool :=
  match v with Null | Arr _ | Obj _ => true | _ => false end.

(** [typeof v === 'string'] *)
Definition asString (v : Value) : option string :=
  match v with Str s => Some s | _ => None end.

(** ToString, as a template literal applies it.  A plain object prints
    as [[object Object]] through [Object.prototype.toString]; when it has
    an own property [toString] (data, hence not callable) the conversion
    throws.  An array joins the conversions of its elements with commas,
    [null] and [undefined] elements printing as the empty string. *)
Fixpoint toStr (v : Value) : Result string :=
  match v with
  | Undefined => Ok "undefined"
  | Null => Ok "null"
  | Bool true => Ok "true"
  | Bool false => Ok "false"
  | Num n => Ok (Str.ofZ n)
  | Str s => Ok s
  | Arr items =>
      parts <- mapM (fun x => match x with
                              | Undefined | Null => Ok EmptyString
                              | _ => toStr x
                              end) items ;;
      Ok (Str.join "," parts)
  | Obj props =>
      if hasKey "toString" props then Throw cannotConvert
      else Ok "[object Object]"
  end.

(** The method call [v.toString()]. *)
Definition callToString (v : Value) : Result string :=
  match v with
  | Undefined => Throw (cannotRead "undefined" "toString")
  | Null => Throw (cannotRead "null" "toString")
  | Obj props =>
      if hasKey "toString" props then Throw (notAFunction "item.toString")
      else Ok "[object Object]"
  | _ => toStr v
  end.

End Js.

(** ** Work items *)

(** One unit of generation work, as the normalizers build it.  The image
    normalizer fills [shotNumber], [prompt], [aspectRatio] and [style]; the
    video normalizer [shotNumber], [prompt], [sourceImage] and
    [aspectRatio].  A key the object literal does not mention reads as
    [undefined] when the executor destructures the item. *)
Record WorkItem : Type := mkWorkItem {
  shotNumber : Js.Value;
  prompt : Js.Value;
  sourceImage : Js.Value;
  aspectRatio : Js.Value;
  style : Js.Value
}.

(** ** Markdown extraction *)

Module Markdown.

Definition fence : string := "```".
Definition opening : string := fence ++ Str.LF.
Definition closing : string := Str.LF ++ fence.

(** The lazy group [([\s\S]*?)] followed by [\n```]: the shortest body
    after which the closing fence matches; with the body, what follows
    the closing fence. *)
Fixpoint lazyBody (s : string) : option (string * string) :=
  match Str.stripPrefix closing s with
  | Some rest => Some (EmptyString, rest)
  | None =>
      match s with
      | EmptyString => None
      | String c s' =>
          match lazyBody s' with
          | Some (body, rest) => Some (String c body, rest)
          | None => None
          end
      end
  end.

(** One [codeBlockRegex.exec(text)] for the pattern
    [/```\n([\s\S]*?)\n```/g], on the part of the text from [lastIndex]
    on: the leftmost position at which the pattern matches.  The result
    is the captured group [match[1]] and the text after the match, where
    the next [exec] resumes. *)
Fixpoint exec (s : string) : option (string * string) :=
  match
    match Str.stripPrefix opening s with
    | Some after => lazyBody after
    | None => None
    end
  with
  | Some found => Some found
  | None =>
      match s with
      | EmptyString => None
      | String _ s' => exec s'
      end
  end.

(** The groups captured by the successive [exec] calls. *)
Fixpoint captured (fuel : nat) (text : string) : list string :=
  match fuel with
  | O => []
  | S fuel' =>
      match exec text with
      | None => []
      | Some (group1, rest) => group1 :: captured fuel' rest
      end
  end.

(** The test that makes the loop [continue]. *)
Definition skipped (blockContent : string) : bool :=
  Str.includes "negative prompt:" (Str.toLowerCase blockContent)
  || Str.includes "technical specifications" (Str.toLowerCase blockContent)
  || (String.length blockContent <? 50)%nat.

Section Loop.
(** The object literal pushed for a kept block. *)
Variable item : Z -> string -> WorkItem.

(** The [while ((match = codeBlockRegex.exec(text)) !== null)] loop,
    with its two mutable variables [shotNumber] and [prompts]. *)
Fixpoint loop (fuel : nat) (text : string) (shotNumber : Z)
         (prompts : list WorkItem) : list WorkItem :=
  match fuel with
  | O => prompts
  | S fuel' =>
      match exec text with
      | None => prompts
      | Some (group1, rest) =>
          let blockContent := Str.trim group1 in
          if skipped blockContent
          then loop fuel' rest shotNumber prompts
          else loop fuel' rest (shotNumber + 1)%Z
                    (prompts ++ [item shotNumber blockContent])
      end
  end.

(** Every match consumes at least the two fences, so the loop ends
    within [length text] iterations. *)
Definition extract (text : string) : list WorkItem :=
  loop (S (String.length text)) text 1%Z [].
End Loop.

End Markdown.

(** ** The output normalizers *)

Module Normalizer.
Import Js.

Definition position (index : nat) : Value := Num (Z.of_nat index + 1).

(** [Object.keys(obj)] *)
Definition keys (props : list (string * Value)) : list string :=
  map fst props.

(** [obj[key]] *)
Definition at_ (props : list (string * Value)) (key : string) : Value :=
  match lookup key props with Some v => v | None => Undefined end.

(** [Array.isArray(value) && value.length > 0 &&
     typeof value[0] === 'object' && 'prompt' in value[0]]:
    the array when the test holds.  [typeof null] is ['object'], and
    [in] throws on [null]. *)
Definition promptArray (value : Value) : Result (option (list Value)) :=
  match value with
  | Arr (first :: rest) =>
      match first with
      | Null => Throw (cannotUseIn "prompt" "null")
      | Obj ps =>
          if hasKey "prompt" ps then Ok (Some (first :: rest)) else Ok None
      | _ => Ok None
      end
  | _ => Ok None
  end.

(** [for (const key of Object.keys(lastOutput))]: the first property
    that passes the test above. *)
Fixpoint firstPromptArray (props : list (string * Value)) (ks : list string)
  : Result (option (list Value)) :=
  match ks with
  | [] => Ok None
  | key :: ks' =>
      found <- promptArray (at_ props key) ;;
      match found with
      | Some items => Ok (Some items)
      | None => firstPromptArray props ks'
      end
  end.

(** [arr.filter(keep)] with a predicate that may throw. *)
Fixpoint filterM {A : Type} (keep : A -> Result bool) (l : list A)
  : Result (list A) :=
  match l with
  | [] => Ok []
  | a :: l' =>
      b <- keep a ;;
      rest <- filterM keep l' ;;
      Ok (if b then a :: rest else rest)
  end.

End Normalizer.

(** ** Numbers *)

(** A JavaScript number is a binary64 floating-point number; it is kept
    here as the rational it stands for.  Integers of less than 53 bits
    (counts, seconds, milliseconds) are such numbers as they are; a decimal
    literal, a product and a quotient are rounded to the nearest one, ties
    to the even significand.  Subnormal numbers and overflow, below 2^-1022
    and above 2^1024, are out of reach of the costs and times computed
    here and are not modelled. *)
Module Double.

(** [floor(log2 x)], for [x > 0] *)
Definition exponent (x : Q) : Z :=
  let k := (Z.log2 (Qnum x) - Z.log2 (Zpos (Qden x)))%Z in
  if Qle_bool (2 ^ k) x then k else (k - 1)%Z.

(** The integer nearest to [q]; of two, the even one. *)
Definition nearestEven (q : Q) : Z :=
  let f := Qfloor q in
  match (q - inject_Z f ?= 1 # 2)%Q with
  | Lt => f
  | Gt => (f + 1)%Z
  | Eq => if Z.even f then f else (f + 1)%Z
  end.

(** The number with 53 significant bits nearest to [x > 0]. *)
Definition nearest (x : Q) : Q :=
  let e := exponent x in
  Qred (inject_Z (nearestEven (x * 2 ^ (52 - e))) * 2 ^ (e - 52)).

Definition round (x : Q) : Q :=
  match Qnum x with
  | Z0 => 0%Q
  | Zpos _ => nearest x
  | Zneg _ => (- nearest (- x))%Q
  end.

(** A decimal literal, [a * b] and [a / b] *)
Definition literal (x : Q) : Q := round x.
Definition mul (a b : Q) : Q := round (a * b).
Definition div (a b : Q) : Q := round (a / b).

End Double.

(** ** Number formatting *)

Module Fixed.

(** [x.toFixed(f)], for [x] under 10^21: "let n be an integer for which
    n / 10^f - x is as close to zero as possible; if there are two such
    n, pick the larger n", applied to the absolute value, with the sign
    in front. *)
Definition units (f : nat) (x : Q) : Z :=
  Qfloor (Qabs x * inject_Z (10 ^ Z.of_nat f) + (1 # 2))%Q.

(** The last [f] decimal digits of [n], in front of [acc]. *)
Fixpoint fraction (f : nat) (n : Z) (acc : string) : string :=
  match f with
  | O => acc
  | S f' => fraction f' (n / 10) (String (Str.digitChar (n mod 10)) acc)
  end.

(** [n] units of [10^-f], printed with [f] decimals. *)
Definition render (f : nat) (n : Z) : string :=
  Str.ofNonneg (n / 10 ^ Z.of_nat f)
  ++ match f with
     | O => EmptyString
     | _ => "." ++ fraction f (n mod 10 ^ Z.of_nat f) EmptyString
     end.

Definition toFixed (f : nat) (x : Q) : string :=
  (if Qlt_le_dec x 0 then "-" else EmptyString) ++ render f (units f x).

(** Reading an amount back: the number spelled by the decimal digits of
    [s], other characters ([$], [.]) skipped.  For a string printed with
    [f] decimals this is the amount in units of [10^-f]. *)
Definition digitValue (c : ascii) : option Z :=
  let n := nat_of_ascii c in
  if ((48 <=? n) && (n <=? 57))%nat then Some (Z.of_nat (n - 48)) else None.

Fixpoint readDigits (s : string) (acc : Z) : Z :=
  match s with
  | EmptyString => acc
  | String c s' =>
      match digitValue c with
      | Some d => readDigits s' (acc * 10 + d)
      | None => readDigits s' acc
      end
  end.

Definition amount (s : string) : Z := readDigits s 0.

End Fixed.

(** ** The outside world *)

(** The [input] of a provider call: the prompt sent, and whichever of
    [num_inference_steps], [aspect_ratio], [duration] and the image (the
    file whose content is attached as a data URI) the call passes. *)
Record RunInput : Type := {
  inPrompt : string;
  inSteps : option Z;
  inAspectRatio : option Js.Value;
  inDuration : option Z;
  inImage : option string
}.

(** What an executor does to the outside world, in the order in which it
    happens. *)
Inductive Event : Type :=
| WarnedLimit (cap requested : nat)
    (** [console.warn] of "Limiting generation to [cap] images (requested
        [requested])", the only trace the executors leave of a cut batch *)
| Slept (ms : Z)
    (** [await new Promise(resolve => setTimeout(resolve, ms))] *)
| MadeDirectory (dir : string)
    (** [fs.mkdirSync(dir, { recursive: true })] *)
| RanModel (model : string) (input : RunInput)
    (** [replicate.run(model, { input })] *)
| WroteFile (path : string)
    (** [fs.writeFileSync(path, data)] *)
| Downloaded (url path : string)
    (** [downloadFile(url, path)] *)
| WroteManifest (path content : string)
    (** [fs.writeFileSync(concatListPath, concatContent)] *)
| RanFfmpeg (manifest output : string)
    (** the concat run of FFmpeg *)
| Removed (path : string)
    (** [fs.unlinkSync(path)] *)
| CreatedTask (model : string) (promptText : string) (image : option string)
    (** [runway.imageToVideo.create(...)] *)
| RetrievedTask
    (** [runway.tasks.retrieve(taskId)] *).

(** What [replicate.run] does when it is called. *)
Inductive RunOutcome : Type :=
| Rejects (message : string)
| Resolves (output : Js.Value)
| ResolvesStream (failure : option string)
    (** an array whose head is a [ReadableStream]; [failure] is the message
        of the error with which reading it fails, if it does *).

(** The status of a Runway task as [tasks.retrieve] reports it. *)
Inductive TaskStatus : Type :=
| Pending
| Succeeded (output : Js.Value)
| Failed (failure : Js.Value).

(** The collaborators of one run.  Calls are answered by their rank in the
    run, so that a collaborator may answer the same request differently
    each time. *)
Record Env : Type := mkEnv {
  envKey : option string;
    (** [process.env.REPLICATE_API_KEY] / [process.env.RUNWAYML_API_SECRET] *)
  cwd : string;
    (** [process.cwd()] *)
  fileExists : string -> bool;
    (** [fs.existsSync(path)] *)
  mkdirError : option string;
    (** the error of [fs.mkdirSync], if it fails *)
  runOutcome : nat -> RunOutcome;
    (** the outcome of the [k]-th [replicate.run] *)
  latency : nat -> Z;
    (** how long the [k]-th provider call takes, in milliseconds *)
  readError : string -> option string;
    (** the error of [fs.readFileSync(path)], if it fails *)
  writeError : string -> option string;
    (** the error of [fs.writeFileSync(path, data)], if it fails *)
  downloadError : string -> option string;
    (** the error with which [downloadFile(url, path)] rejects, if it does *)
  ffmpegError : option string;
    (** the error FFmpeg reports, if the concat run fails *)
  createOutcome : nat -> option string;
    (** the error with which the [k]-th task creation rejects, if it does *)
  retrieveOutcome : nat -> Result TaskStatus
    (** what the [k]-th [tasks.retrieve] reports *)
}.

(** The state a run threads through: the clock read by [Date.now()] and
    the number of provider calls made so far. *)
Record World : Type := mkWorld {
  clock : Z;
  calls : nat
}.

(** Effectful computations: from the world before, a result or a thrown
    error, the world afterwards, and the events that happened meanwhile. *)
Definition IO (A : Type) : Type := World -> Result A * World * list Event.

Module IO.

Definition ret {A : Type} (a : A) : IO A := fun w => (Ok a, w, []).

Definition throw {A : Type} (message : string) : IO A :=
  fun w => (Throw message, w, []).

Definition bind {A B : Type} (m : IO A) (k : A -> IO B) : IO B :=
  fun w =>
    match m w with
    | (Ok a, w', es) =>
        let '(r, w'', es') := k a w' in (r, w'', (es ++ es')%list)
    | (Throw message, w', es) => (Throw message, w', es)
    end.

(** [try { body } catch (error) { handler(error.message) }] *)
Definition tryCatch {A : Type} (body : IO A) (handler : string -> IO A) : IO A :=
  fun w =>
    match body w with
    | (Ok a, w', es) => (Ok a, w', es)
    | (Throw message, w', es) =>
        let '(r, w'', es') := handler message w' in (r, w'', (es ++ es')%list)
    end.

Definition lift {A : Type} (r : Result A) : IO A := fun w => (r, w, []).

Definition emit (e : Event) : IO unit := fun w => (Ok tt, w, [e]).

(** [Date.now()] *)
Definition now : IO Z := fun w => (Ok (clock w), w, []).

Definition elapse (ms : Z) : IO unit :=
  fun w => (Ok tt, {| clock := clock w + ms; calls := calls w |}, []).

(** The rank of the provider call about to be made. *)
Definition nextCall : IO nat :=
  fun w => (Ok (calls w), {| clock := clock w; calls := S (calls w) |}, []).

(** [await new Promise(resolve => setTimeout(resolve, ms))] *)
Definition sleep (ms : Z) : IO unit :=
  bind (emit (Slept ms)) (fun _ => elapse ms).

(** An operation that fails with the given error, if any. *)
Definition failing (error : option string) : IO unit :=
  match error with
  | Some message => throw message
  | None => ret tt
  end.

(** The three components of a run. *)
Definition result {A : Type} (x : Result A * World * list Event) : Result A :=
  fst (fst x).
Definition world {A : Type} (x : Result A * World * list Event) : World :=
  snd (fst x).
Definition events {A : Type} (x : Result A * World * list Event) : list Event :=
  snd x.

(** Whatever the world it starts in, the computation returns a value
    that satisfies [Q] or throws a message that satisfies [E]. *)
Definition satisfies {A : Type} (m : IO A) (Q : A -> Prop) (E : string -> Prop)
  : Prop :=
  forall w : World,
    match result (m w) with
    | Ok a => Q a
    | Throw message => E message
    end.

End IO.

Declare Scope io_scope.
Delimit Scope io_scope with io.
Notation "x <- m ;; k" := (IO.bind m (fun x => k))
  (at level 61, m at next level, right associativity) : io_scope.
Notation "m ;; k" := (IO.bind m (fun _ => k))
  (at level 61, right associativity) : io_scope.

(** ** The image executor (image-gen.ts) *)

Module ImageGen.
Import Js Normalizer.

(** The object literal pushed for a kept block. *)
Definition markdownItem (shot : Z) (blockContent : string) : WorkItem :=
  {| shotNumber := Num shot; prompt := Str blockContent;
     sourceImage := Undefined;
     aspectRatio := Str "4:3"; style := Str "cinematic" |}.

Definition extractPromptsFromMarkdown : string -> list WorkItem :=
  Markdown.extract markdownItem.

(** Callback of case 1 (the value is an array). *)
Definition ofElement (index : nat) (item : Value) : Result WorkItem :=
  shot <- get item "shotNumber" ;;
  p <- get item "prompt" ;;
  p' <- (if truthy p then Ok p
         else (s <- callToString item ;; Ok (Str s))) ;;
  ratio <- get item "aspectRatio" ;;
  st <- get item "style" ;;
  Ok {| shotNumber := or shot (position index); prompt := p';
        sourceImage := Undefined;
        aspectRatio := or ratio (Str "4:3");
        style := or st (Str "cinematic") |}.

(** Callback of cases 2 and 3 ([imagePrompts], nested array). *)
Definition ofPrompt (index : nat) (item : Value) : Result WorkItem :=
  shot <- get item "shotNumber" ;;
  p <- get item "prompt" ;;
  ratio <- get item "aspectRatio" ;;
  st <- get item "style" ;;
  Ok {| shotNumber := or shot (position index); prompt := p;
        sourceImage := Undefined;
        aspectRatio := or ratio (Str "4:3");
        style := or st (Str "cinematic") |}.

Definition single (props : list (string * Value)) : WorkItem :=
  {| shotNumber := or (at_ props "shotNumber") (Num 1);
     prompt := at_ props "prompt";
     sourceImage := Undefined;
     aspectRatio := or (at_ props "aspectRatio") (Str "4:3");
     style := or (at_ props "style") (Str "cinematic") |}.

Definition wholeString (s : string) : WorkItem :=
  {| shotNumber := Num 1; prompt := Str s; sourceImage := Undefined;
     aspectRatio := Str "4:3"; style := Str "cinematic" |}.

Definition placeholder : WorkItem :=
  wholeString "cinematic photo, professional lighting, 4:3 aspect ratio".

(** Case 4 *)
Definition ofString (s : string) : list WorkItem :=
  if Str.includes Markdown.fence s then
    match extractPromptsFromMarkdown s with
    | [] => [wholeString s]
    | markdownPrompts => markdownPrompts
    end
  else [wholeString s].

Definition extractPrompts (lastOutput : Value) : Result (list WorkItem) :=
  match lastOutput with
  | Arr items => mapiM ofElement 0 items
  | Obj props =>
      match at_ props "imagePrompts" with
      | Arr imagePrompts => mapiM ofPrompt 0 imagePrompts
      | _ =>
          found <- firstPromptArray props (keys props) ;;
          match found with
          | Some value => mapiM ofPrompt 0 value
          | None =>
              if hasKey "prompt" props then Ok [single props]
              else Ok [placeholder]
          end
      end
  | Str s => Ok (ofString s)
  | _ => Ok [placeholder]
  end.


(** *** [executeImageGenNode] *)

Inductive FluxModelKey : Type := FluxDev | Flux11Pro | FluxSchnell.

Record FluxModel : Type := {
  replicateId : string;
  costPerImage : Q;
  defaultSteps : Z;
  description : string
}.

Definition keyName (k : FluxModelKey) : string :=
  match k with
  | FluxDev => "flux-dev"
  | Flux11Pro => "flux-1.1-pro"
  | FluxSchnell => "flux-schnell"
  end.

Definition FLUX_MODELS (k : FluxModelKey) : FluxModel :=
  match k with
  | FluxDev =>
      {| replicateId := "black-forest-labs/flux-dev";
         costPerImage := Double.literal (25 # 1000); defaultSteps := 28;
         description := "High quality, best for detailed images" |}
  | Flux11Pro =>
      {| replicateId := "black-forest-labs/flux-1.1-pro";
         costPerImage := Double.literal (4 # 100); defaultSteps := 25;
         description := "Professional quality, best results" |}
  | FluxSchnell =>
      {| replicateId := "black-forest-labs/flux-schnell";
         costPerImage := Double.literal (3 # 1000); defaultSteps := 4;
         description := "Fast generation, good for drafts" |}
  end.

(** [name in FLUX_MODELS], for a model name that is not a member of
    [Object.prototype]. *)
Definition keyOfName (name : string) : option FluxModelKey :=
  if String.eqb name "flux-dev" then Some FluxDev
  else if String.eqb name "flux-1.1-pro" then Some Flux11Pro
  else if String.eqb name "flux-schnell" then Some FluxSchnell
  else None.

(** The part of [node.data] the executor reads: [imageGenConfig.model],
    [config.model] and [config.num_inference_steps]. *)
Record ImageGenNode : Type := {
  nodeId : string;
  imageGenConfigModel : option string;
  legacyConfigModel : option string;
  legacyConfigSteps : option Z
}.

Record ImageResult : Type := {
  irShotNumber : Js.Value;
  irUrl : string;
  irLocalPath : string;
  irOriginalPrompt : string;
  irAspectRatio : Js.Value;
  irStyle : Js.Value;
  irModel : string;
  irDuration : string;
  irEstimatedCost : string;
  irSuccess : bool;
  irError : option string
}.

Record ImageGenOutput : Type := {
  images : list ImageResult;
  totalGenerated : nat;
  totalFailed : nat;
  totalRequested : nat;
  estimatedTotalCost : string;
  provider : string;
  model : string;
  modelId : string;
  savedToPublic : bool;
  publicPath : string
}.

Definition resolveModelKey (node : ImageGenNode) : FluxModelKey :=
  let legacy :=
    match legacyConfigModel node with
    | Some legacyModel =>
        if Str.isEmpty legacyModel then FluxDev
        else if Str.includes "flux-schnell" legacyModel then FluxSchnell
        else if Str.includes "flux-1.1-pro" legacyModel then Flux11Pro
        else FluxDev
    | None => FluxDev
    end in
  match imageGenConfigModel node with
  | Some name =>
      match keyOfName name with
      | Some k => k
      | None => legacy
      end
  | None => legacy
  end.

(** [a || b] on optional strings and numbers *)
Definition orString (a : option string) (b : option string) : option string :=
  match a with
  | Some s => if Str.isEmpty s then b else a
  | None => b
  end.

Definition orNumber (a : option Z) (b : Z) : Z :=
  match a with
  | Some n => if (n =? 0)%Z then b else n
  | None => b
  end.

Definition MAX_IMAGES : nat := 20.

Definition missingKey : string :=
  "REPLICATE_API_KEY not found. Please add it to your .env.local file or provide it via API keys configuration.".

Definition unexpectedOutput : string :=
  "Unexpected output format from Replicate".

(** [prompt.substring(...)] is the first use of the prompt as a string. *)
Definition asPromptText (what : string) (p : Js.Value) : Result string :=
  match p with
  | Str s => Ok s
  | Undefined => Throw (cannotRead "undefined" "substring")
  | Null => Throw (cannotRead "null" "substring")
  | _ => Throw (notAFunction (what ++ ".substring"))
  end.

(** Elapsed seconds: [((t1 - t0) / 1000).toFixed(1)] *)
Definition seconds (t0 t1 : Z) : string :=
  Fixed.toFixed 1 (Double.div (inject_Z (t1 - t0)) 1000) ++ "s".

(** The three variables the loop updates. *)
Record Tally : Type := {
  results : list ImageResult;
  successCount : nat;
  failCount : nat
}.

(** [prompt.length > 4000 ? prompt.substring(0, 4000) : prompt] *)
Definition truncatePrompt (promptText : string) : string :=
  if (4000 <? String.length promptText)%nat
  then Str.take 4000 promptText else promptText.

(** The [input] of the provider call for an item. *)
Definition requestOf (steps : Z) (item : WorkItem) (promptText : string)
  : RunInput :=
  {| inPrompt := truncatePrompt promptText;
     inSteps := Some steps;
     inAspectRatio := Some (or (aspectRatio item) (Str "4:3"));
     inDuration := None;
     inImage := None |}.

(** [`shot-${shotNumber || i + 1}-${timestamp}.png`] *)
Definition fileNameOf (shot : string) (timestamp : Z) : string :=
  "shot-" ++ shot ++ "-" ++ Str.ofZ timestamp ++ ".png".

(** The record pushed after the image has been saved. *)
Definition generatedImage (item : WorkItem) (promptText modelId : string)
           (cost : Q) (publicUrl filepath duration : string) : ImageResult :=
  {| irShotNumber := shotNumber item;
     irUrl := publicUrl;
     irLocalPath := filepath;
     irOriginalPrompt := promptText;
     irAspectRatio := or (aspectRatio item) (Str "4:3");
     irStyle := style item;
     irModel := modelId;
     irDuration := duration;
     irEstimatedCost := "$" ++ Fixed.toFixed 4 cost;
     irSuccess := true;
     irError := None |}.

(** The record pushed in the [catch] of the loop. *)
Definition failedImage (item : WorkItem) (promptText modelId message : string)
  : ImageResult :=
  {| irShotNumber := shotNumber item;
     irUrl := EmptyString;
     irLocalPath := EmptyString;
     irOriginalPrompt := promptText;
     irAspectRatio := or (aspectRatio item) (Str "4:3");
     irStyle := style item;
     irModel := modelId;
     irDuration := "0s";
     irEstimatedCost := "$0.0000";
     irSuccess := false;
     irError := Some message |}.

Section Run.
Variable env : Env.
Local Open Scope io_scope.

(** [path.join(process.cwd(), 'public', 'generated-images')] *)
Definition publicDirOf : string := cwd env ++ "/public/generated-images".

Definition ensurePublicDirectory : IO string :=
  let publicDir := publicDirOf in
  (if fileExists env publicDir then IO.ret tt
   else (IO.failing (mkdirError env) ;; IO.emit (MadeDirectory publicDir))) ;;
  IO.ret publicDir.

(** The body of the [for] loop for the item at index [i] of [total]. *)
Definition generateOne (modelId : string) (steps : Z) (cost : Q)
           (publicDir : string) (total i : nat) (item : WorkItem)
           (tally : Tally) : IO Tally :=
  imageStartTime <- IO.now ;;
  _ <- IO.lift (toStr (shotNumber item)) ;;
  promptText <- IO.lift (asPromptText "prompt" (prompt item)) ;;
  IO.tryCatch
    (k <- IO.nextCall ;;
     IO.emit (RanModel modelId (requestOf steps item promptText)) ;;
     IO.elapse (latency env k) ;;
     match runOutcome env k with
     | Rejects message => IO.throw message
     | Resolves _ => IO.throw unexpectedOutput
     | ResolvesStream failure =>
         IO.failing failure ;;
         timestamp <- IO.now ;;
         shot <- IO.lift (toStr (or (shotNumber item) (position i))) ;;
         let filename := fileNameOf shot timestamp in
         let filepath := publicDir ++ "/" ++ filename in
         let publicUrl := "/generated-images/" ++ filename in
         IO.failing (writeError env filepath) ;;
         IO.emit (WroteFile filepath) ;;
         finished <- IO.now ;;
         let record :=
           generatedImage item promptText modelId cost publicUrl filepath
                          (seconds imageStartTime finished) in
         (if (S i <? total)%nat then IO.sleep 1000 else IO.ret tt) ;;
         IO.ret {| results := results tally ++ [record];
                   successCount := S (successCount tally);
                   failCount := failCount tally |}
     end)
    (fun message =>
       (if Str.includes "rate limit" message
        then IO.sleep 10000 else IO.ret tt) ;;
       IO.ret {| results :=
                   results tally
                   ++ [failedImage item promptText modelId message];
                 successCount := successCount tally;
                 failCount := S (failCount tally) |}).

(** [for (let i = 0; i < promptsToGenerate.length; i++)], from index
    [i] on. *)
Fixpoint generateFrom (modelId : string) (steps : Z) (cost : Q)
         (publicDir : string) (total i : nat) (items : list WorkItem)
         (tally : Tally) : IO Tally :=
  match items with
  | [] => IO.ret tally
  | item :: rest =>
      tally' <- generateOne modelId steps cost publicDir total i item tally ;;
      generateFrom modelId steps cost publicDir total (S i) rest tally'
  end.

(** The loop over the capped batch, and the summary. *)
Definition generateAll (modelKey : FluxModelKey) (numInferenceSteps : Z)
           (publicDir : string) (promptsToGenerate : list WorkItem)
  : IO ImageGenOutput :=
  let modelConfig := FLUX_MODELS modelKey in
  let modelId := replicateId modelConfig in
  let cost := costPerImage modelConfig in
  tally <- generateFrom modelId numInferenceSteps cost publicDir
             (List.length promptsToGenerate) 0 promptsToGenerate
             {| results := []; successCount := 0; failCount := 0 |} ;;
  let totalCost :=
    Fixed.toFixed 4
      (Double.mul (inject_Z (Z.of_nat (successCount tally))) cost) in
  IO.ret {| images := results tally;
            totalGenerated := successCount tally;
            totalFailed := failCount tally;
            totalRequested := List.length promptsToGenerate;
            estimatedTotalCost := "$" ++ totalCost;
            provider := "replicate";
            model := keyName modelKey;
            modelId := modelId;
            savedToPublic := true;
            publicPath := "/generated-images/" |}.

(** Everything after the prompts are known. *)
Definition runBatch (modelKey : FluxModelKey) (numInferenceSteps : Z)
           (prompts : list WorkItem) : IO ImageGenOutput :=
  publicDir <- ensurePublicDirectory ;;
  (if (MAX_IMAGES <? List.length prompts)%nat
   then IO.emit (WarnedLimit MAX_IMAGES (List.length prompts))
   else IO.ret tt) ;;
  generateAll modelKey numInferenceSteps publicDir
              (firstn MAX_IMAGES prompts).

Definition executeImageGenNode (node : ImageGenNode) (lastOutput : Js.Value)
           (apiKey : option string) : IO ImageGenOutput :=
  startTime <- IO.now ;;
  match orString apiKey (envKey env) with
  | None => IO.throw missingKey
  | Some replicateKey =>
      let modelKey := resolveModelKey node in
      let numInferenceSteps :=
        orNumber (legacyConfigSteps node)
                 (defaultSteps (FLUX_MODELS modelKey)) in
      prompts <- IO.lift (extractPrompts lastOutput) ;;
      runBatch modelKey numInferenceSteps prompts
  end.
End Run.

End ImageGen.

(** ** The video executor *)

Module VideoGen.
Import Js Normalizer.

(** The object literal pushed for a kept block. *)
Definition markdownItem (shot : Z) (blockContent : string) : WorkItem :=
  {| shotNumber := Num shot; prompt := Str blockContent;
     sourceImage := Undefined;
     aspectRatio := Str "16:9"; style := Undefined |}.

Definition extractPromptsFromMarkdown : string -> list WorkItem :=
  Markdown.extract markdownItem.

(** [img => img.success && img.localPath] *)
Definition usable (img : Value) : Result bool :=
  ok <- get img "success" ;;
  if truthy ok then (path <- get img "localPath" ;; Ok (truthy path))
  else Ok false.

(** Callback of case 1 (image-batch output), also used for the approved
    and selected images of an approval node. *)
Definition shotLabel (index : nat) : Value :=
  Str ("Shot " ++ Str.ofZ (Z.of_nat index + 1)).

Definition ofImage (index : nat) (img : Value) : Result WorkItem :=
  shot <- get img "shotNumber" ;;
  p <- get img "originalPrompt" ;;
  path <- get img "localPath" ;;
  ratio <- get img "aspectRatio" ;;
  Ok {| shotNumber := or shot (position index);
        prompt := or p (shotLabel index);
        sourceImage := path;
        aspectRatio := or ratio (Str "16:9"); style := Undefined |}.

(** Callback of case 2 (the value is an array). *)
Definition ofElement (index : nat) (item : Value) : Result WorkItem :=
  shot <- get item "shotNumber" ;;
  p <- get item "prompt" ;;
  p' <- (if truthy p then Ok p
         else (s <- callToString item ;; Ok (Str s))) ;;
  src <- get item "sourceImage" ;;
  path <- get item "localPath" ;;
  img <- get item "image" ;;
  ratio <- get item "aspectRatio" ;;
  Ok {| shotNumber := or shot (position index); prompt := p';
        sourceImage := or (or src path) img;
        aspectRatio := or ratio (Str "16:9"); style := Undefined |}.

(** Callback of case 3 ([imagePrompts]). *)
Definition ofPrompt (index : nat) (item : Value) : Result WorkItem :=
  shot <- get item "shotNumber" ;;
  p <- get item "prompt" ;;
  src <- get item "sourceImage" ;;
  img <- get item "image" ;;
  ratio <- get item "aspectRatio" ;;
  Ok {| shotNumber := or shot (position index); prompt := p;
        sourceImage := or src img;
        aspectRatio := or ratio (Str "16:9"); style := Undefined |}.

(** Callback of case 4 (nested array). *)
Definition ofNested (index : nat) (item : Value) : Result WorkItem :=
  shot <- get item "shotNumber" ;;
  p <- get item "prompt" ;;
  src <- get item "sourceImage" ;;
  path <- get item "localPath" ;;
  img <- get item "image" ;;
  ratio <- get item "aspectRatio" ;;
  Ok {| shotNumber := or shot (position index); prompt := p;
        sourceImage := or (or src path) img;
        aspectRatio := or ratio (Str "16:9"); style := Undefined |}.

Definition single (props : list (string * Value)) : WorkItem :=
  {| shotNumber := or (at_ props "shotNumber") (Num 1);
     prompt := at_ props "prompt";
     sourceImage := or (at_ props "sourceImage") (at_ props "image");
     aspectRatio := or (at_ props "aspectRatio") (Str "16:9");
     style := Undefined |}.

Definition wholeString (s : string) : WorkItem :=
  {| shotNumber := Num 1; prompt := Str s; sourceImage := Undefined;
     aspectRatio := Str "16:9"; style := Undefined |}.

Definition placeholder : WorkItem :=
  wholeString "cinematic establishing shot, professional lighting".

(** Case 5 *)
Definition ofString (s : string) : list WorkItem :=
  if Str.includes Markdown.fence s then
    match extractPromptsFromMarkdown s with
    | [] => [wholeString s]
    | prompts => prompts
    end
  else [wholeString s].

(** Cases 3 and 4, on a plain object without an [images] array. *)
Definition ofObject (props : list (string * Value)) : Result (list WorkItem) :=
  match at_ props "imagePrompts" with
  | Arr imagePrompts => mapiM ofPrompt 0 imagePrompts
  | _ =>
      found <- firstPromptArray props (keys props) ;;
      match found with
      | Some value => mapiM ofNested 0 value
      | None =>
          if hasKey "prompt" props then Ok [single props]
          else Ok [placeholder]
      end
  end.

Definition extractVideoPrompts (lastOutput : Value) : Result (list WorkItem) :=
  match lastOutput with
  | Obj props =>
      match at_ props "images" with
      | Arr images =>
          kept <- filterM usable images ;;
          mapiM ofImage 0 kept
      | _ => ofObject props
      end
  | Arr items => mapiM ofElement 0 items
  | Str s => Ok (ofString s)
  | _ => Ok [placeholder]
  end.


(** *** Results *)

Record VideoClipResult : Type := {
  clipShotNumber : Js.Value;
  clipUrl : string;
  clipLocalPath : string;
  clipOriginalPrompt : Js.Value;
  clipSourceImage : Js.Value;
  clipDuration : Z;
  clipModel : string;
  clipGenerationTime : string;
  clipEstimatedCost : string;
  clipSuccess : bool;
  clipError : option string
}.

Record FinalVideo : Type := {
  fvUrl : string;
  fvLocalPath : string;
  fvDuration : Z;
  fvFormat : string
}.

Inductive StitchingStatus : Type := success | failed | skipped.

Record VideoGenOutput : Type := {
  clips : list VideoClipResult;
  finalVideo : option FinalVideo;
  totalGenerated : nat;
  totalFailed : nat;
  estimatedTotalCost : string;
  provider : string;
  stitchingStatus : StitchingStatus
}.

(** [node.data.videoGenConfig] *)
Record VideoGenConfig : Type := {
  cfgModel : option string;
  cfgDuration : option Z;
  cfgRatio : option string;
  cfgInputMode : option string
}.

(** The [options] argument of [generateSingleClip]. *)
Record ClipOptions : Type := {
  optShotNumber : Js.Value;
  optSourceImage : Js.Value;
  optModel : string;
  optDuration : Z;
  optRatio : Js.Value;
  optInputMode : string
}.

Definition MAX_CLIPS : nat := 10.

Definition unexpectedOutput : string :=
  "Unexpected output format from Replicate".

(** [a || b] on a string and on a number *)
Definition orText (a : option string) (b : string) : string :=
  match a with
  | Some s => if Str.isEmpty s then b else s
  | None => b
  end.

Definition orNumber (a : option Z) (b : Z) : Z :=
  match a with
  | Some n => if (n =? 0)%Z then b else n
  | None => b
  end.

Definition seconds (t0 t1 : Z) : string :=
  Fixed.toFixed 1 (Double.div (inject_Z (t1 - t0)) 1000) ++ "s".

(** The failed record, built in the [catch] of [generateSingleClip] and
    in the [catch] of the executor's loop. *)
Definition failedClip (shot promptV src : Js.Value) (model message : string)
  : VideoClipResult :=
  {| clipShotNumber := shot;
     clipUrl := EmptyString;
     clipLocalPath := EmptyString;
     clipOriginalPrompt := promptV;
     clipSourceImage := src;
     clipDuration := 0;
     clipModel := model;
     clipGenerationTime := "0s";
     clipEstimatedCost := "$0.00";
     clipSuccess := false;
     clipError := Some message |}.

(** [`clip-${options.shotNumber || 1}-${timestamp}.mp4`] *)
Definition fileNameOf (shot : string) (timestamp : Z) : string :=
  "clip-" ++ shot ++ "-" ++ Str.ofZ timestamp ++ ".mp4".

(** The record returned once the clip has been downloaded. *)
Definition savedClip (shot src : Js.Value) (promptText model : string)
           (duration : Z) (costPerSecond : Q)
           (publicUrl localPath generationTime : string) : VideoClipResult :=
  {| clipShotNumber := shot;
     clipUrl := publicUrl;
     clipLocalPath := localPath;
     clipOriginalPrompt := Str promptText;
     clipSourceImage := src;
     clipDuration := duration;
     clipModel := model;
     clipGenerationTime := generationTime;
     clipEstimatedCost :=
       "$" ++ Fixed.toFixed 2 (Double.mul (inject_Z duration) costPerSecond);
     clipSuccess := true;
     clipError := None |}.

(** The message of Node's [fs] on a path that is not a string. *)
Definition invalidPath : string :=
  "The path argument must be of type string or an instance of Buffer or URL.".

(** Callback for the approved or selected images of an approval node. *)
Definition ofApproved (index : nat) (img : Value) : Result WorkItem :=
  shot <- get img "shotNumber" ;;
  p <- get img "originalPrompt" ;;
  path <- get img "localPath" ;;
  Ok {| shotNumber := or shot (position index);
        prompt := or p (shotLabel index);
        sourceImage := path;
        aspectRatio := Str "16:9"; style := Undefined |}.

Definition promptsOf (lastOutput : Value) : Result (list WorkItem) :=
  match lastOutput with
  | Obj props =>
      match at_ props "approvedImages" with
      | Arr approvedImages => mapiM ofApproved 0 approvedImages
      | _ =>
          match at_ props "selectedImages" with
          | Arr selectedImages => mapiM ofApproved 0 selectedImages
          | _ => extractVideoPrompts lastOutput
          end
      end
  | _ => extractVideoPrompts lastOutput
  end.

Section Run.
Variable env : Env.
Local Open Scope io_scope.

(** [path.join(process.cwd(), 'public', subdir)] *)
Definition publicDirOf (subdir : string) : string :=
  cwd env ++ "/public/" ++ subdir.

Definition ensurePublicDirectory (subdir : string) : IO string :=
  let publicDir := publicDirOf subdir in
  (if fileExists env publicDir then IO.ret tt
   else (IO.failing (mkdirError env) ;; IO.emit (MadeDirectory publicDir))) ;;
  IO.ret publicDir.

(** [fs.existsSync(v)]: false on anything that is not a path. *)
Definition existsSync (v : Js.Value) : bool :=
  match v with
  | Str path => fileExists env path
  | _ => false
  end.

(** [inputMode === 'image' || (inputMode === 'auto' &&
     options.sourceImage && fs.existsSync(options.sourceImage))],
    followed by [&& options.sourceImage]. *)
Definition useImage (inputMode : string) (src : Js.Value) : bool :=
  (String.eqb inputMode "image"
   || (String.eqb inputMode "auto" && truthy src && existsSync src))
  && truthy src.

(** [fs.readFileSync(v)], yielding the path read. *)
Definition readSource (src : Js.Value) : IO string :=
  match src with
  | Str path => IO.failing (readError env path) ;; IO.ret path
  | _ => IO.throw invalidPath
  end.

(** [await downloadFile(outputUrl, localPath)] *)
Definition downloadFile (outputUrl : Js.Value) (localPath : string) : IO unit :=
  match outputUrl with
  | Str url =>
      IO.failing (downloadError env url) ;;
      IO.emit (Downloaded url localPath)
  | Undefined => IO.throw (cannotRead "undefined" "startsWith")
  | Null => IO.throw (cannotRead "null" "startsWith")
  | _ => IO.throw (notAFunction "url.startsWith")
  end.

(** The successful record and what precedes it, once the provider has
    produced [outputUrl]: common to both clip generators. *)
Definition saveClip (promptText : string) (options : ClipOptions)
           (model : string) (duration : Z) (costPerSecond : Q)
           (outputDir : string) (startTime : Z) (outputUrl : Js.Value)
  : IO VideoClipResult :=
  _ <- IO.lift (toStr outputUrl) ;;
  timestamp <- IO.now ;;
  shot <- IO.lift (toStr (or (optShotNumber options) (Num 1))) ;;
  let filename := fileNameOf shot timestamp in
  let localPath := outputDir ++ "/" ++ filename in
  let publicUrl := "/generated-videos/" ++ filename in
  downloadFile outputUrl localPath ;;
  finished <- IO.now ;;
  IO.ret (savedClip (optShotNumber options) (optSourceImage options)
                    promptText model duration costPerSecond
                    publicUrl localPath (seconds startTime finished)).

(** *** [generateSingleClip], through Replicate *)

Definition costPerSecondOf (model : string) : Q :=
  if String.eqb model "gen3a_turbo" then Double.literal (5 # 100)
  else Double.literal (25 # 1000).

(** The output URL: the value itself when it is a string, its head
    when it is a non-empty array, its [url] when it is an object with
    that key. *)
Definition outputUrlOf (output : Js.Value) : Result Js.Value :=
  match output with
  | Str url => Ok (Str url)
  | Arr (first :: _) => Ok first
  | Obj props =>
      if hasKey "url" props then Ok (at_ props "url")
      else Throw unexpectedOutput
  | _ => Throw unexpectedOutput
  end.

Definition generateSingleClip (promptV : Js.Value) (options : ClipOptions)
           (outputDir : string) : IO VideoClipResult :=
  startTime <- IO.now ;;
  let model := orText (Some (optModel options)) "minimax" in
  let duration := orNumber (Some (optDuration options)) 5 in
  let ratio := or (optRatio options) (Str "16:9") in
  let inputMode := orText (Some (optInputMode options)) "auto" in
  _ <- IO.lift (toStr (optShotNumber options)) ;;
  _ <- IO.lift (toStr ratio) ;;
  promptText <- IO.lift (ImageGen.asPromptText "prompt" promptV) ;;
  IO.tryCatch
    (image <- (if useImage inputMode (optSourceImage options)
               then (path <- readSource (optSourceImage options) ;;
                     IO.ret (Some path))
               else IO.ret None) ;;
     k <- IO.nextCall ;;
     (if String.eqb model "gen3a_turbo"
      then IO.emit (RanModel "runway/gen-3-alpha-turbo"
                      {| inPrompt := promptText; inSteps := None;
                         inAspectRatio := Some ratio;
                         inDuration := Some duration;
                         inImage := image |})
      else IO.emit (RanModel "minimax/video-01"
                      {| inPrompt := promptText; inSteps := None;
                         inAspectRatio := None; inDuration := None;
                         inImage := image |})) ;;
     IO.elapse (latency env k) ;;
     outputUrl <- match runOutcome env k with
                  | Rejects message => IO.throw message
                  | Resolves output => IO.lift (outputUrlOf output)
                  | ResolvesStream _ => IO.ret (Obj [])
                  end ;;
     saveClip promptText options model duration (costPerSecondOf model)
              outputDir startTime outputUrl)
    (fun message =>
       IO.ret (failedClip (optShotNumber options) (Str promptText)
                          (optSourceImage options) model message)).

(** *** [stitchClipsWithFFmpeg] *)

(** [c => c.success && c.localPath] *)
Definition stitchable (c : VideoClipResult) : bool :=
  clipSuccess c && negb (Str.isEmpty (clipLocalPath c)).

Definition totalDurationOf (cs : list VideoClipResult) : Z :=
  fold_left (fun sum clip => (sum + clipDuration clip)%Z) cs 0%Z.

Definition concatContentOf (cs : list VideoClipResult) : string :=
  Str.join Str.LF (map (fun clip => "file '" ++ clipLocalPath clip ++ "'") cs).

(** [path.join(outputDir, `concat-${timestamp}.txt`)] *)
Definition concatListPathOf (outputDir : string) (timestamp : Z) : string :=
  outputDir ++ "/concat-" ++ Str.ofZ timestamp ++ ".txt".

(** [`final-video-${timestamp}.mp4`] *)
Definition outputFilenameOf (timestamp : Z) : string :=
  "final-video-" ++ Str.ofZ timestamp ++ ".mp4".

(** An error result stands for the rejected promise. *)
Definition stitchClipsWithFFmpeg (clips : list VideoClipResult)
           (outputDir : string) : IO (option FinalVideo) :=
  let successfulClips := filter stitchable clips in
  match successfulClips with
  | [] => IO.ret None
  | [only] =>
      IO.ret (Some {| fvUrl := clipUrl only;
                      fvLocalPath := clipLocalPath only;
                      fvDuration := clipDuration only;
                      fvFormat := "mp4" |})
  | _ =>
      timestamp <- IO.now ;;
      let concatListPath := concatListPathOf outputDir timestamp in
      let concatContent := concatContentOf successfulClips in
      IO.failing (writeError env concatListPath) ;;
      IO.emit (WroteManifest concatListPath concatContent) ;;
      let outputFilename := outputFilenameOf timestamp in
      let outputPath := outputDir ++ "/" ++ outputFilename in
      let publicUrl := "/generated-videos/" ++ outputFilename in
      IO.emit (RanFfmpeg concatListPath outputPath) ;;
      match ffmpegError env with
      | None =>
          let totalDuration := totalDurationOf successfulClips in
          IO.emit (Removed concatListPath) ;;
          IO.ret (Some {| fvUrl := publicUrl;
                          fvLocalPath := outputPath;
                          fvDuration := totalDuration;
                          fvFormat := "mp4" |})
      | Some err =>
          (if fileExists env concatListPath
           then IO.emit (Removed concatListPath) else IO.ret tt) ;;
          IO.throw err
      end
  end.

(** The stitching step of [executeVideoGenNode]: the final video and
    the stitching status, from the clips and the count of successes
    the loop has kept. *)
Definition assemble (clips : list VideoClipResult) (successCount : nat)
           (outputDir : string) : IO (option FinalVideo * StitchingStatus) :=
  if (0 <? successCount)%nat
  then IO.tryCatch
         (stitchResult <- stitchClipsWithFFmpeg clips outputDir ;;
          match stitchResult with
          | Some video => IO.ret (Some video, success)
          | None => IO.ret (None, skipped)
          end)
         (fun _ => IO.ret (None, failed))
  else IO.ret (None, skipped).

(** *** The loop and the tail of [executeVideoGenNode] *)

Record Tally : Type := {
  results : list VideoClipResult;
  successCount : nat;
  failCount : nat
}.

Section Batch.
(** The clip generator of the executor at hand. *)
Variable clipOf : Js.Value -> ClipOptions -> string -> IO VideoClipResult.

Definition generateOne (model : string) (duration : Z) (ratio inputMode : string)
           (outputDir : string) (total i : nat) (item : WorkItem)
           (tally : Tally) : IO Tally :=
  _ <- IO.lift (toStr (shotNumber item)) ;;
  IO.tryCatch
    (clip <- clipOf (prompt item)
               {| optShotNumber := shotNumber item;
                  optSourceImage := sourceImage item;
                  optModel := model;
                  optDuration := duration;
                  optRatio := or (aspectRatio item) (Str ratio);
                  optInputMode := inputMode |}
               outputDir ;;
     (if (S i <? total)%nat then IO.sleep 2000 else IO.ret tt) ;;
     IO.ret {| results := results tally ++ [clip];
               successCount :=
                 if clipSuccess clip then S (successCount tally)
                 else successCount tally;
               failCount :=
                 if clipSuccess clip then failCount tally
                 else S (failCount tally) |})
    (fun message =>
       (if Str.includes "rate limit" message || Str.includes "429" message
        then IO.sleep 30000 else IO.ret tt) ;;
       IO.ret {| results :=
                   results tally
                   ++ [failedClip (shotNumber item) (prompt item)
                                  (sourceImage item) model message];
                 successCount := successCount tally;
                 failCount := S (failCount tally) |}).

Fixpoint generateFrom (model : string) (duration : Z) (ratio inputMode : string)
         (outputDir : string) (total i : nat) (items : list WorkItem)
         (tally : Tally) : IO Tally :=
  match items with
  | [] => IO.ret tally
  | item :: rest =>
      tally' <- generateOne model duration ratio inputMode outputDir
                  total i item tally ;;
      generateFrom model duration ratio inputMode outputDir total (S i)
                   rest tally'
  end.

(** The loop over the capped batch, the stitching, and the
    summary. *)
Definition generateAll (providerName : string) (model : string)
           (duration : Z) (ratio inputMode : string) (costPerSecond : Q)
           (outputDir : string) (promptsToGenerate : list WorkItem)
  : IO VideoGenOutput :=
  tally <- generateFrom model duration ratio inputMode outputDir
             (List.length promptsToGenerate) 0 promptsToGenerate
             {| results := []; successCount := 0; failCount := 0 |} ;;
  let clips := results tally in
  stitched <- assemble clips (successCount tally) outputDir ;;
  let totalVideoDuration :=
    totalDurationOf (filter clipSuccess clips) in
  let totalCost :=
    Fixed.toFixed 2
      (Double.mul (inject_Z totalVideoDuration) costPerSecond) in
  IO.ret {| clips := clips;
            finalVideo := fst stitched;
            totalGenerated := successCount tally;
            totalFailed := failCount tally;
            estimatedTotalCost := "$" ++ totalCost;
            provider := providerName;
            stitchingStatus := snd stitched |}.

(** Everything after the prompts are known. *)
Definition runBatch (providerName : string) (model : string) (duration : Z)
           (ratio inputMode : string) (costPerSecond : Q)
           (prompts : list WorkItem) : IO VideoGenOutput :=
  outputDir <- ensurePublicDirectory "generated-videos" ;;
  (if (MAX_CLIPS <? List.length prompts)%nat
   then IO.emit (WarnedLimit MAX_CLIPS (List.length prompts))
   else IO.ret tt) ;;
  generateAll providerName model duration ratio inputMode costPerSecond
              outputDir (firstn MAX_CLIPS prompts).
End Batch.

(** *** [executeVideoGenNode], through Replicate *)

Definition missingKey : string :=
  "REPLICATE_API_KEY not found. Please add it to your .env.local file or provide it via API keys configuration.".

Definition executeVideoGenNode (config : VideoGenConfig) (lastOutput : Value)
           (apiKey : option string) : IO VideoGenOutput :=
  startTime <- IO.now ;;
  match ImageGen.orString apiKey (envKey env) with
  | None => IO.throw missingKey
  | Some replicateKey =>
      let model := orText (cfgModel config) "minimax" in
      let duration := orNumber (cfgDuration config) 5 in
      let ratio := orText (cfgRatio config) "16:9" in
      let inputMode := orText (cfgInputMode config) "auto" in
      prompts <- IO.lift (promptsOf lastOutput) ;;
      runBatch generateSingleClip "replicate" model duration ratio inputMode
               (costPerSecondOf model) prompts
  end.
End Run.

End VideoGen.

(** ** The video executor on the Runway SDK *)

(** The earlier executor: the same normalizer, loop, stitching and result
    records as [VideoGen]; a clip is a Runway task that is created and then
    polled, and every second of video costs $0.05. *)
Module Runway.
Import Js Normalizer VideoGen.

Definition maxPolls : nat := 120.

Definition missingKey : string :=
  "RUNWAYML_API_SECRET not found. Please add it to your .env.local file or provide it via API keys configuration.".

Definition timedOut : string :=
  "Video generation timed out after " ++ Str.ofZ (Z.of_nat maxPolls * 5)
  ++ " seconds".

Definition noOutputUrl : string := "No output URL returned from Runway".

(** [Array.isArray(task.output) ? task.output[0] : task.output] *)
Definition outputUrlOf (output : Value) : Value :=
  match output with
  | Arr [] => Undefined
  | Arr (first :: _) => first
  | _ => output
  end.

Section Run.
Variable env : Env.
Local Open Scope io_scope.

(** [runway.imageToVideo.create(...)] *)
Definition createTask (model promptText : string) (image : option string)
  : IO unit :=
  k <- IO.nextCall ;;
  IO.emit (CreatedTask model promptText image) ;;
  IO.elapse (latency env k) ;;
  IO.failing (createOutcome env k).

(** [runway.tasks.retrieve(taskId)] *)
Definition retrieve : IO TaskStatus :=
  k <- IO.nextCall ;;
  IO.emit RetrievedTask ;;
  IO.elapse (latency env k) ;;
  IO.lift (retrieveOutcome env k).

(** The polling loop, with [remaining = maxPolls - pollCount]. *)
Fixpoint poll (remaining : nat) (task : TaskStatus) : IO TaskStatus :=
  match task, remaining with
  | Pending, S remaining' =>
      IO.sleep 5000 ;;
      task' <- retrieve ;;
      poll remaining' task'
  | _, _ => IO.ret task
  end.

Definition generateSingleClip (promptV : Value) (options : ClipOptions)
           (outputDir : string) : IO VideoClipResult :=
  startTime <- IO.now ;;
  let model := orText (Some (optModel options)) "gen3a_turbo" in
  let duration := orNumber (Some (optDuration options)) 5 in
  let ratio := or (optRatio options) (Str "16:9") in
  let inputMode := orText (Some (optInputMode options)) "auto" in
  _ <- IO.lift (toStr (optShotNumber options)) ;;
  _ <- IO.lift (toStr ratio) ;;
  promptText <- IO.lift (ImageGen.asPromptText "prompt" promptV) ;;
  IO.tryCatch
    ((if VideoGen.useImage env inputMode (optSourceImage options)
      then (path <- VideoGen.readSource env (optSourceImage options) ;;
            createTask model promptText (Some path))
      else createTask model promptText None) ;;
     first <- retrieve ;;
     task <- poll maxPolls first ;;
     match task with
     | Failed failure =>
         reason <- IO.lift (toStr (or failure (Str "Unknown error"))) ;;
         IO.throw ("Video generation failed: " ++ reason)
     | Pending => IO.throw timedOut
     | Succeeded output =>
         let outputUrl := outputUrlOf output in
         if truthy outputUrl
         then VideoGen.saveClip env promptText options model duration
                                (Double.literal (5 # 100)) outputDir
                                startTime outputUrl
         else IO.throw noOutputUrl
     end)
    (fun message =>
       IO.ret (failedClip (optShotNumber options) (Str promptText)
                          (optSourceImage options) model message)).

Definition executeVideoGenNode (config : VideoGenConfig) (lastOutput : Value)
           (apiKey : option string) : IO VideoGenOutput :=
  startTime <- IO.now ;;
  match ImageGen.orString apiKey (envKey env) with
  | None => IO.throw missingKey
  | Some runwayKey =>
      let model := orText (cfgModel config) "gen3a_turbo" in
      let duration := orNumber (cfgDuration config) 5 in
      let ratio := orText (cfgRatio config) "16:9" in
      let inputMode := orText (cfgInputMode config) "auto" in
      prompts <- IO.lift (extractVideoPrompts lastOutput) ;;
      VideoGen.runBatch env generateSingleClip "runway" model duration ratio
                        inputMode (Double.literal (5 # 100)) prompts
  end.
End Run.

End Runway.

(** ** The markdown rule in the words of the specification *)

(** "Scan fenced code blocks in source order; discard a block
    (case-insensitive) if it contains the substring "negative prompt:" or
    "technical specifications", or if its trimmed length is under 50
    characters; assign sequential shot numbers starting at 1 to the
    remaining blocks." *)
Module MarkdownRule.

(** A fenced block: the opening fence on a line of its own, the block,
    the closing fence on a line of its own. *)
Definition fenced (block : string) : string :=
  Markdown.opening ++ block ++ Markdown.closing.

(** A document: fenced blocks in source order, each after the text that
    precedes it, and the text after the last block. *)
Fixpoint document (parts : list (string * string)) (tail : string) : string :=
  match parts with
  | [] => tail
  | (before, block) :: parts' =>
      before ++ fenced block ++ document parts' tail
  end.

(** The text between blocks opens no fence of its own, and no block
    closes early. *)
Definition wellFenced (parts : list (string * string)) (tail : string) : Prop :=
  Forall (fun part =>
            Str.includes Markdown.opening (fst part) = false
            /\ Str.includes Markdown.closing (snd part) = false) parts
  /\ Str.includes Markdown.opening tail = false.

Definition containsNoCase (needle text : string) : bool :=
  Str.includes (Str.toLowerCase needle) (Str.toLowerCase text).

Definition discarded (block : string) : bool :=
  containsNoCase "negative prompt:" block
  || containsNoCase "technical specifications" block
  || (String.length (Str.trim block) <? 50)%nat.

Definition kept (blocks : list string) : list string :=
  filter (fun block => negb (discarded block)) blocks.

(** Shot numbers 1, 2, ... in order; the prompt is the trimmed block. *)
Definition numbered (item : Z -> string -> WorkItem) (blocks : list string)
  : list WorkItem :=
  mapi (fun index block => item (Z.of_nat index + 1)%Z (Str.trim block))
       0 blocks.

(** No opening fence that is directly followed by a newline is followed,
    later, by a newline and a fence. *)
Definition noBlock (text : string) : Prop :=
  forall before body after : string,
    text <> before ++ fenced body ++ after.

End MarkdownRule.

(** ** The normalizer cases in the words of the specification *)

Module NormalizerRule.
Import Js.

(** The field [k] of an entry, [undefined] when the entry has none. *)
Definition field (v : Value) (k : string) : Value :=
  match v with
  | Obj props => Normalizer.at_ props k
  | _ => Undefined
  end.

Definition nullish (v : Value) : bool :=
  match v with
  | Undefined | Null => true
  | _ => false
  end.

(** "Keep entries with success=true and a non-empty local path." *)
Definition usableEntry (img : Value) : bool :=
  truthy (field img "success") && truthy (field img "localPath").

(** "Map to WorkItem using [originalPrompt] and local path as source
    image, defaulting shot number to position+1." *)
Definition ofImageEntry (index : nat) (img : Value) : WorkItem :=
  {| shotNumber := or (field img "shotNumber") (Normalizer.position index);
     prompt := or (field img "originalPrompt") (VideoGen.shotLabel index);
     sourceImage := field img "localPath";
     aspectRatio := or (field img "aspectRatio") (Str "16:9");
     style := Undefined |}.

(** A value that is neither an array nor an object. *)
Definition scalar (v : Value) : bool :=
  match v with
  | Arr _ | Obj _ => false
  | _ => true
  end.

(** An object none of whose properties holds an array. *)
Definition flat (props : list (string * Value)) : bool :=
  forallb (fun kv => match snd kv with Arr _ => false | _ => true end) props.

(** An element the array case can turn into a work item: it is neither
    [null] nor [undefined], and it has a prompt or can be stringified. *)
Definition printable (v : Value) : bool :=
  match callToString v with
  | Ok _ => true
  | Throw _ => false
  end.

Definition mappable (v : Value) : bool :=
  negb (nullish v) && (truthy (field v "prompt") || printable v).

(** "Value is itself a sequence: map each element; if an element lacks
    a [prompt] field, stringify it." *)
Definition textOf (v : Value) : string :=
  match callToString v with
  | Ok s => s
  | Throw _ => EmptyString
  end.

Definition promptOrText (item : Value) : Value :=
  if truthy (field item "prompt") then field item "prompt"
  else Str (textOf item).

Definition imageItemOf (index : nat) (item : Value) : WorkItem :=
  {| shotNumber := or (field item "shotNumber") (Normalizer.position index);
     prompt := promptOrText item;
     sourceImage := Undefined;
     aspectRatio := or (field item "aspectRatio") (Str "4:3");
     style := or (field item "style") (Str "cinematic") |}.

Definition videoItemOf (index : nat) (item : Value) : WorkItem :=
  {| shotNumber := or (field item "shotNumber") (Normalizer.position index);
     prompt := promptOrText item;
     sourceImage :=
       or (or (field item "sourceImage") (field item "localPath"))
          (field item "image");
     aspectRatio := or (field item "aspectRatio") (Str "16:9");
     style := Undefined |}.

End NormalizerRule.

(** ** The batch rules in the words of the specification *)

Module ExecutorRule.

(** "MediaResult: either fully successful (non-empty url/local path, no
    error) or fully failed (empty url/local path, non-empty error)". *)
Definition fullySuccessful (ok : bool) (url localPath : string)
           (error : option string) : Prop :=
  ok = true /\ url <> EmptyString /\ localPath <> EmptyString /\ error = None.

Definition fullyFailed (ok : bool) (url localPath : string)
           (error : option string) : Prop :=
  ok = false /\ url = EmptyString /\ localPath = EmptyString
  /\ exists message, error = Some message /\ message <> EmptyString.

(** The failed record as the executors build it: the error field holds
    the message of the error caught, whatever it is. *)
Definition failedWith (ok : bool) (url localPath : string)
           (error : option string) : Prop :=
  ok = false /\ url = EmptyString /\ localPath = EmptyString
  /\ exists message, error = Some message.

(** "Errors expose a human-readable message string": every error of a
    collaborator carries a non-empty message. *)
Definition speaks (env : Env) : Prop :=
  (forall k message, runOutcome env k = Rejects message ->
                     message <> EmptyString)
  /\ (forall k message, runOutcome env k = ResolvesStream (Some message) ->
                        message <> EmptyString)
  /\ (forall path message, readError env path = Some message ->
                           message <> EmptyString)
  /\ (forall path message, writeError env path = Some message ->
                           message <> EmptyString)
  /\ (forall url message, downloadError env url = Some message ->
                          message <> EmptyString)
  /\ (forall k message, createOutcome env k = Some message ->
                        message <> EmptyString)
  /\ (forall k message, retrieveOutcome env k = Throw message ->
                        message <> EmptyString).

(** A record is whole when it is fully successful, or failed with the
    message of the error caught, and fully failed when the collaborators
    speak. *)
Definition wholeRecord (env : Env) (ok : bool) (url localPath : string)
           (error : option string) : Prop :=
  fullySuccessful ok url localPath error
  \/ (failedWith ok url localPath error
      /\ (speaks env -> fullyFailed ok url localPath error)).

(** A message that says something when the collaborators do. *)
Definition telling (env : Env) (message : string) : Prop :=
  speaks env -> message <> EmptyString.

(** "A rate-limit indicator (case-insensitive "rate limit" or "429")". *)
Definition rateLimitIndicator (message : string) : bool :=
  Str.includes "rate limit" (Str.toLowerCase message)
  || Str.includes "429" message.

(** The message with which the [k]-th provider call fails, if it does. *)
Definition providerFailure (env : Env) (k : nat) : option string :=
  match runOutcome env k with
  | Rejects message => Some message
  | _ => None
  end.

Definition isProviderCall (e : Event) : bool :=
  match e with
  | RanModel _ _ | CreatedTask _ _ _ => true
  | _ => false
  end.

Definition providerCalls (es : list Event) : nat :=
  List.length (filter isProviderCall es).

(** A sleep of [cooldown] milliseconds happens before the next provider
    call, if there is one. *)
Fixpoint pausesFirst (cooldown : Z) (es : list Event) : bool :=
  match es with
  | [] => true
  | Slept ms :: rest => (ms =? cooldown)%Z || pausesFirst cooldown rest
  | e :: rest => if isProviderCall e then false else pausesFirst cooldown rest
  end.

(** "On provider failure ... if the error text contains a rate-limit
    indicator, sleep a fixed cool-down before continuing to the next
    item": every provider call that fails with a message the indicator
    accepts is followed by the cool-down before the next call starts.
    [k] is the rank of the next call in [es]. *)
Fixpoint coolsDown (indicator : string -> bool) (cooldown : Z)
         (failure : nat -> option string) (k : nat) (es : list Event) : bool :=
  match es with
  | [] => true
  | e :: rest =>
      if isProviderCall e
      then match failure k with
           | Some message =>
               if indicator message then pausesFirst cooldown rest else true
           | None => true
           end
           && coolsDown indicator cooldown failure (S k) rest
      else coolsDown indicator cooldown failure k rest
  end.

(** An item the loops can start on: its shot number prints, and its
    prompt is a string. *)
Definition printsShot (item : WorkItem) : bool :=
  match Js.toStr (shotNumber item) with
  | Ok _ => true
  | Throw _ => false
  end.

Definition ready (item : WorkItem) : bool :=
  printsShot item
  && match prompt item with
     | Js.Str _ => true
     | _ => false
     end.

(** The record the image executor keeps for an item: the failed record
    with the message of the error caught, or the record of a saved
    image. *)
Definition imageRecordOf (env : Env) (modelId : string) (cost : Q)
           (item : WorkItem) (r : ImageGen.ImageResult) : Prop :=
  exists p,
    prompt item = Js.Str p
    /\ ((exists m,
            r = ImageGen.failedImage item p modelId m
            /\ telling env m)
        \/ (exists url path dur,
               r = ImageGen.generatedImage item p modelId cost url path dur
               /\ url <> EmptyString /\ path <> EmptyString)).

(** The record a clip generator returns for an item: the failed record
    with the message of the error caught, or the record of a downloaded
    clip. *)
Definition clipRecordOf (env : Env) (model : string) (duration : Z)
           (costPerSecond : Q) (shot promptV src : Js.Value)
           (clip : VideoGen.VideoClipResult) : Prop :=
  (exists m,
      clip = VideoGen.failedClip shot promptV src model m
      /\ telling env m)
  \/ (exists p url path time,
         promptV = Js.Str p
         /\ clip = VideoGen.savedClip shot src p model duration costPerSecond
                                      url path time
         /\ url <> EmptyString /\ path <> EmptyString).

(** "Resolved per-second cost": the rate of a video model in dollars,
    the decimal number the executor writes. *)
Definition rateOf (model : string) : Q :=
  if String.eqb model "gen3a_turbo" then 5 # 100 else 25 # 1000.

(** "Deliverable duration equals the sum of contributing clips'
    durations." *)
Definition durationSum (cs : list VideoGen.VideoClipResult) : Z :=
  fold_right (fun clip sum => (VideoGen.clipDuration clip + sum)%Z) 0%Z cs.

(** The amounts, in units of the last printed decimal, of a list of
    printed costs. *)
Definition totalOf (costs : list string) : Z :=
  fold_right (fun cost sum => (Fixed.amount cost + sum)%Z) 0%Z costs.

End ExecutorRule.

(** ** Sample inputs *)

Module Examples.
Import Js.

Definition shortBlock : string := "too short".

Definition negativeBlock : string :=
  "Negative Prompt: blurry, low quality, watermark, text, distorted faces".

Definition validBlock : string :=
  "A wide establishing shot of a mountain lake at dawn, soft mist, golden light".

(** Three fenced blocks: one under 50 characters, one with a negative
    prompt, one valid. *)
Definition threeBlocks : list (string * string) :=
  [("Shot list" ++ Str.LF, shortBlock);
   (Str.LF ++ "Avoid:" ++ Str.LF, negativeBlock);
   (Str.LF, validBlock)].

(** A fenced block whose opening fence carries a language tag. *)
Definition tagged (tag body : string) : string :=
  Markdown.fence ++ tag ++ Str.LF ++ body ++ Markdown.closing.

Definition taggedOnce : string :=
  "Plan:" ++ Str.LF ++ tagged "json" "{ }" ++ Str.LF ++ "Done.".

Definition prose : string :=
  "This paragraph sits between two tagged blocks and is long enough to pass.".

Definition taggedTwice : string :=
  tagged "json" "{ }" ++ Str.LF ++ prose ++ Str.LF ++ tagged "json" "[ ]".

(** The output of an image batch with one generated image. *)
Definition imageBatchEntries : list Value :=
  [Obj [("shotNumber", Num 1);
        ("url", Str "/generated-images/shot-1-1700000000000.png");
        ("localPath",
         Str "/app/public/generated-images/shot-1-1700000000000.png");
        ("originalPrompt", Str "a red fox in the snow");
        ("aspectRatio", Str "4:3");
        ("success", Bool true)]].

Definition imageBatchProps : list (string * Value) :=
  [("images", Arr imageBatchEntries);
   ("totalGenerated", Num 1);
   ("totalFailed", Num 0)].

Definition imageBatchOutput : Value := Obj imageBatchProps.

Definition mixedArray : list Value :=
  [Num 5; Str "a red fox"; Obj [("prompt", Str "a lake")]; Obj []].

Definition lighthouse : string := "a lighthouse at dusk, long exposure".

(** The work items of [n] requested images, and of [n] requested clips:
    what the normalizers make of an array of [n] prompts. *)
Definition requestedImages (n : nat) : list WorkItem :=
  mapi NormalizerRule.imageItemOf 0 (repeat (Str lighthouse) n).

Definition requestedClips (n : nat) : list WorkItem :=
  mapi NormalizerRule.videoItemOf 0 (repeat (Str lighthouse) n).

(** Collaborators that never fail, but for the provider, which answers
    its [k]-th call with [outcome k]. *)
Definition envWith (outcome : nat -> RunOutcome) : Env :=
  {| envKey := Some "r8_key";
     cwd := "/app";
     fileExists := fun _ => true;
     mkdirError := None;
     runOutcome := outcome;
     latency := fun _ => 1500%Z;
     readError := fun _ => None;
     writeError := fun _ => None;
     downloadError := fun _ => None;
     ffmpegError := None;
     createOutcome := fun _ => None;
     retrieveOutcome :=
       fun _ => Ok (Succeeded (Str "https://cdn.example/clip.mp4")) |}.

(** Every image is generated. *)
Definition steadyImages : Env := envWith (fun _ => ResolvesStream None).

(** Every clip is generated. *)
Definition steadyClips : Env :=
  envWith (fun _ => Resolves (Str "https://cdn.example/clip.mp4")).

(** The first call is rejected with a capitalised rate-limit message. *)
Definition capitalised : Env :=
  envWith (fun k => if (k =? 0)%nat then Rejects "Rate Limit exceeded"
                    else ResolvesStream None).

(** The first call is rejected with the provider's rate-limit message. *)
Definition rateLimited : Env :=
  envWith (fun k => if (k =? 0)%nat
                    then Rejects "Request was throttled: rate limit exceeded"
                    else ResolvesStream None).

(** The first call is rejected by an error without a message. *)
Definition wordless : Env :=
  envWith (fun k => if (k =? 0)%nat then Rejects EmptyString
                    else ResolvesStream None).

Definition start : World := {| clock := 1700000000000; calls := 0 |}.

(** A node and a configuration that name their model, and the output of
    a planning step with two prompts. *)
Definition fluxNode : ImageGen.ImageGenNode :=
  {| ImageGen.nodeId := "image-gen-1";
     ImageGen.imageGenConfigModel := Some "flux-dev";
     ImageGen.legacyConfigModel := None;
     ImageGen.legacyConfigSteps := None |}.

Definition minimaxConfig : VideoGen.VideoGenConfig :=
  {| VideoGen.cfgModel := Some "minimax";
     VideoGen.cfgDuration := None;
     VideoGen.cfgRatio := None;
     VideoGen.cfgInputMode := None |}.

Definition twoPrompts : Value := Arr [Str lighthouse; Str lighthouse].

(** Two generated clips around a failed one. *)
Definition clipAt (shot : Z) (seconds : Z) : VideoGen.VideoClipResult :=
  VideoGen.savedClip (Num shot) Undefined lighthouse "minimax" seconds
    (Double.literal (25 # 1000))
    ("/generated-videos/clip-" ++ Str.ofZ shot ++ "-1700000000000.mp4")
    ("/app/public/generated-videos/clip-" ++ Str.ofZ shot
     ++ "-1700000000000.mp4")
    "41.5s".

Definition threeClips : list VideoGen.VideoClipResult :=
  [clipAt 1 5;
   VideoGen.failedClip (Num 2) (Str lighthouse) Undefined "minimax"
                       "Prediction failed";
   clipAt 3 10].

End Examples.


(** ** More sample inputs *)

Module Cases.
Import Js.

(** No key in the environment. *)
Definition keyless : Env :=
  {| envKey := None;
     cwd := "/app";
     fileExists := fun _ => true;
     mkdirError := None;
     runOutcome := fun _ => ResolvesStream None;
     latency := fun _ => 1500%Z;
     readError := fun _ => None;
     writeError := fun _ => None;
     downloadError := fun _ => None;
     ffmpegError := None;
     createOutcome := fun _ => None;
     retrieveOutcome := fun _ => Ok Pending |}.

(** The public directory is missing and cannot be made. *)
Definition readOnly : Env :=
  {| envKey := Some "r8_key";
     cwd := "/app";
     fileExists := fun _ => false;
     mkdirError :=
       Some "EACCES: permission denied, mkdir '/app/public/generated-images'";
     runOutcome := fun _ => ResolvesStream None;
     latency := fun _ => 1500%Z;
     readError := fun _ => None;
     writeError := fun _ => None;
     downloadError := fun _ => None;
     ffmpegError := None;
     createOutcome := fun _ => None;
     retrieveOutcome := fun _ => Ok Pending |}.

(** What the array case makes of [{ prompt: 7 }]: the prompt is a
    number. *)
Definition numbered : WorkItem :=
  NormalizerRule.imageItemOf 2 (Obj [("prompt", Num 7)]).

(** The output of an approval step: of two generated images the second
    was approved, and a third entry was approved although its
    generation had failed. *)
Definition approval : list (string * Value) :=
  [("images",
    Arr [Obj [("shotNumber", Num 1); ("localPath", Str "/app/public/generated-images/shot-1-1700000000000.png");
              ("originalPrompt", Str "a red fox in the snow");
              ("success", Bool true)];
         Obj [("shotNumber", Num 2); ("localPath", Str "/app/public/generated-images/shot-2-1700000001000.png");
              ("originalPrompt", Str "a lake at dawn");
              ("success", Bool true)]]);
   ("approvedImages",
    Arr [Obj [("shotNumber", Num 2); ("localPath", Str "/app/public/generated-images/shot-2-1700000001000.png");
              ("originalPrompt", Str "a lake at dawn");
              ("aspectRatio", Str "4:3");
              ("success", Bool true)];
         Obj [("shotNumber", Num 3); ("localPath", Str EmptyString);
              ("success", Bool false)]])].

(** The output of a planning step: a list of tags, then the shots. *)
Definition plan : list (string * Value) :=
  [("title", Str "Launch film");
   ("tags", Arr [Str "product"; Str "cinematic"])].

Definition shots : list Value :=
  [Obj [("prompt", Str "a lighthouse at dusk, long exposure")];
   Obj [("prompt", Str "waves against the rocks, slow shutter");
        ("shotNumber", Num 7)]].

(** A Runway task that is refused at its third retrieval. *)
Definition moderated : Env :=
  {| envKey := Some "key_runway";
     cwd := "/app";
     fileExists := fun _ => true;
     mkdirError := None;
     runOutcome := fun _ => ResolvesStream None;
     latency := fun _ => 800%Z;
     readError := fun _ => None;
     writeError := fun _ => None;
     downloadError := fun _ => None;
     ffmpegError := None;
     createOutcome := fun _ => None;
     retrieveOutcome :=
       fun k => if (k <? 3)%nat then Ok Pending
                else Ok (Failed (Str "Content moderation")) |}.

End Cases.

(** ** What a run may do to the outside world *)

Module Trace.

(** Every event of every run of the computation satisfies [P]. *)
Definition always {A : Type} (m : IO A) (P : Event -> Prop) : Prop :=
  forall w : World, Forall P (IO.events (m w)).

(** The requests sent to Replicate, in order: the model and the input. *)
Fixpoint requests (es : list Event) : list (string * RunInput) :=
  match es with
  | [] => []
  | RanModel model input :: rest => (model, input) :: requests rest
  | _ :: rest => requests rest
  end.

Definition isCreation (e : Event) : bool :=
  match e with CreatedTask _ _ _ => true | _ => false end.

Definition isRetrieval (e : Event) : bool :=
  match e with RetrievedTask => true | _ => false end.

Definition isPause (ms : Z) (e : Event) : bool :=
  match e with Slept ms' => (ms' =? ms)%Z | _ => false end.

Definition isRequest (e : Event) : bool :=
  match e with RanModel _ _ => true | _ => false end.

Definition count (f : Event -> bool) (es : list Event) : nat :=
  List.length (filter f es).

(** No run of the computation has more than [n] events that pass [f]. *)
Definition within {A : Type} (m : IO A) (f : Event -> bool) (n : nat) : Prop :=
  forall w : World, count f (IO.events (m w)) <= n.

(** The steps of an image batch: it makes its directory, warns of a cut
    batch, asks the model of the batch for an image with a prompt of at
    most 4000 characters, writes a file, and pauses for one second or
    for ten. *)
Definition imageStep (modelId : string) (steps : Z) (e : Event) : Prop :=
  match e with
  | MadeDirectory _ | WroteFile _ => True
  | WarnedLimit cap requested => cap = ImageGen.MAX_IMAGES /\ cap < requested
  | RanModel model input =>
      model = modelId
      /\ String.length (inPrompt input) <= 4000
      /\ inSteps input = Some steps
      /\ inDuration input = None
      /\ inImage input = None
  | Slept ms => ms = 1000%Z \/ ms = 10000%Z
  | _ => False
  end.

(** The steps of a video batch through Replicate: the only pause is the
    one of two seconds between clips, and the requests go to the one
    model the batch has chosen. *)
Definition clipStep (model : string) (duration : Z) (e : Event) : Prop :=
  match e with
  | MadeDirectory _ | Downloaded _ _ | WroteManifest _ _ | RanFfmpeg _ _
  | Removed _ => True
  | WarnedLimit cap requested => cap = VideoGen.MAX_CLIPS /\ cap < requested
  | RanModel name input =>
      inSteps input = None
      /\ if String.eqb model "gen3a_turbo"
         then name = "runway/gen-3-alpha-turbo"
              /\ inDuration input = Some duration
         else name = "minimax/video-01"
              /\ inDuration input = None /\ inAspectRatio input = None
  | Slept ms => ms = 2000%Z
  | _ => False
  end.

(** The steps of a video batch on the Runway SDK: tasks of the model of
    the batch are created and retrieved, and the pauses are the one of
    two seconds between clips and the one of five seconds between two
    retrievals. *)
Definition taskStep (model : string) (e : Event) : Prop :=
  match e with
  | MadeDirectory _ | Downloaded _ _ | WroteManifest _ _ | RanFfmpeg _ _
  | Removed _ | RetrievedTask => True
  | WarnedLimit cap requested => cap = VideoGen.MAX_CLIPS /\ cap < requested
  | CreatedTask name _ _ => name = model
  | Slept ms => ms = 2000%Z \/ ms = 5000%Z
  | _ => False
  end.

End Trace.

(** ** The earlier image executor *)

(** The first version of the image executor: the normalizer knows no
    markdown, the model is the one string of the configuration, Flux
    Schnell when there is none, and every image is priced at $0.003.  The
    body of the loop is, word for word, the one of [ImageGen]. *)
Module Legacy.
Import Js Normalizer.

Definition extractPrompts (lastOutput : Value) : Result (list WorkItem) :=
  match lastOutput with
  | Arr items => mapiM ImageGen.ofElement 0 items
  | Obj props =>
      match at_ props "imagePrompts" with
      | Arr imagePrompts => mapiM ImageGen.ofPrompt 0 imagePrompts
      | _ =>
          found <- firstPromptArray props (keys props) ;;
          match found with
          | Some value => mapiM ImageGen.ofPrompt 0 value
          | None =>
              if hasKey "prompt" props then Ok [ImageGen.single props]
              else Ok [ImageGen.placeholder]
          end
      end
  | Str s => Ok [ImageGen.wholeString s]
  | _ => Ok [ImageGen.placeholder]
  end.

(** The part of [node.data.config] the executor reads. *)
Record ImageGenNode : Type := {
  nodeId : string;
  configModel : option string;
  configSteps : option Z
}.

Record ImageGenOutput : Type := {
  images : list ImageGen.ImageResult;
  totalGenerated : nat;
  totalFailed : nat;
  totalRequested : nat;
  estimatedTotalCost : string;
  provider : string;
  savedToPublic : bool;
  publicPath : string
}.

Definition defaultModel : string := "black-forest-labs/flux-schnell".

Definition costPerImage : Q := Double.literal (3 # 1000).

Section Run.
Variable env : Env.
Local Open Scope io_scope.

Definition generateAll (model : string) (numInferenceSteps : Z)
           (publicDir : string) (promptsToGenerate : list WorkItem)
  : IO ImageGenOutput :=
  tally <- ImageGen.generateFrom env model numInferenceSteps costPerImage
             publicDir (List.length promptsToGenerate) 0 promptsToGenerate
             {| ImageGen.results := []; ImageGen.successCount := 0;
                ImageGen.failCount := 0 |} ;;
  let totalCost :=
    Fixed.toFixed 4
      (Double.mul (inject_Z (Z.of_nat (ImageGen.successCount tally)))
                  costPerImage) in
  IO.ret {| images := ImageGen.results tally;
            totalGenerated := ImageGen.successCount tally;
            totalFailed := ImageGen.failCount tally;
            totalRequested := List.length promptsToGenerate;
            estimatedTotalCost := "$" ++ totalCost;
            provider := "replicate";
            savedToPublic := true;
            publicPath := "/generated-images/" |}.

Definition runBatch (model : string) (numInferenceSteps : Z)
           (prompts : list WorkItem) : IO ImageGenOutput :=
  publicDir <- ImageGen.ensurePublicDirectory env ;;
  (if (ImageGen.MAX_IMAGES <? List.length prompts)%nat
   then IO.emit (WarnedLimit ImageGen.MAX_IMAGES (List.length prompts))
   else IO.ret tt) ;;
  generateAll model numInferenceSteps publicDir
              (firstn ImageGen.MAX_IMAGES prompts).

Definition executeImageGenNode (node : ImageGenNode) (lastOutput : Value)
           (apiKey : option string) : IO ImageGenOutput :=
  startTime <- IO.now ;;
  match ImageGen.orString apiKey (envKey env) with
  | None => IO.throw ImageGen.missingKey
  | Some replicateKey =>
      let model := VideoGen.orText (configModel node) defaultModel in
      let numInferenceSteps := ImageGen.orNumber (configSteps node) 4 in
      prompts <- IO.lift (extractPrompts lastOutput) ;;
      runBatch model numInferenceSteps prompts
  end.
End Run.

(** The summary of this executor is the one of [ImageGen] without the
    two model fields. *)
Definition agrees (a : ImageGenOutput) (b : ImageGen.ImageGenOutput) : Prop :=
  images a = ImageGen.images b
  /\ totalGenerated a = ImageGen.totalGenerated b
  /\ totalFailed a = ImageGen.totalFailed b
  /\ totalRequested a = ImageGen.totalRequested b
  /\ estimatedTotalCost a = ImageGen.estimatedTotalCost b
  /\ provider a = ImageGen.provider b
  /\ savedToPublic a = ImageGen.savedToPublic b
  /\ publicPath a = ImageGen.publicPath b.

(** Two runs are alike when they do the same things to the outside
    world, end in the same state, and either throw the same error or
    return results that [R] relates. *)
Definition alike {A B : Type} (R : A -> B -> Prop)
           (x : Result A * World * list Event)
           (y : Result B * World * list Event) : Prop :=
  IO.events x = IO.events y
  /\ IO.world x = IO.world y
  /\ match IO.result x, IO.result y with
     | Ok a, Ok b => R a b
     | Throw e, Throw e' => e = e'
     | _, _ => False
     end.

End Legacy.

(** ** Saving a workflow (hooks/useWorkflow.ts) *)

(** The workflow, its nodes and the data of a node are values as they
    come out of [JSON.parse]: no functions, no dates, no cycles; the keys
    of an object are distinct, and none of them is [__proto__]. *)
Module Workflow.
Import Js Normalizer.

(** [key === 'Provider' || key === 'component' || key === 'ref'] *)
Definition reactKey (key : string) : bool :=
  String.eqb key "Provider" || String.eqb key "component"
  || String.eqb key "ref".

(** [cleaned[key] = value] *)
Fixpoint assign (key : string) (value : Value)
         (cleaned : list (string * Value)) : list (string * Value) :=
  match cleaned with
  | [] => [(key, value)]
  | (k, v) :: rest =>
      if String.eqb key k then (k, value) :: rest
      else (k, v) :: assign key value rest
  end.

Section Clean.
(** [cleanNodeData], for the calls it makes to itself. *)
Variable clean : Value -> Value.

(** What the loop stores for a value: [null], [undefined] and the
    scalars as they are, an array mapped, an object cleaned.
    [JSON.stringify] does not throw on a value without cycles. *)
Definition cleanValue (value : Value) : Value :=
  match value with
  | Arr items =>
      Arr (map (fun item => if typeofObject item then clean item else item)
               items)
  | Obj _ => clean value
  | _ => value
  end.

(** [for (const key in data)] on an object. *)
Fixpoint cleanEntries (entries cleaned : list (string * Value))
  : list (string * Value) :=
  match entries with
  | [] => cleaned
  | (key, value) :: rest =>
      if reactKey key then cleanEntries rest cleaned
      else cleanEntries rest (assign key (cleanValue value) cleaned)
  end.

(** The same loop on an array, whose keys are its indices. *)
Fixpoint cleanItems (index : nat) (items : list Value)
         (cleaned : list (string * Value)) : list (string * Value) :=
  match items with
  | [] => cleaned
  | value :: rest =>
      let key := Str.ofZ (Z.of_nat index) in
      if reactKey key then cleanItems (S index) rest cleaned
      else cleanItems (S index) rest (assign key (cleanValue value) cleaned)
  end.
End Clean.

(** [if (!data || typeof data !== 'object') return data;] and the loop
    that fills [cleaned = {}]. *)
Fixpoint cleanNodeData (data : Value) : Value :=
  match data with
  | Obj props => Obj (cleanEntries cleanNodeData props [])
  | Arr items => Obj (cleanItems cleanNodeData 0 items [])
  | _ => data
  end.

(** The callback of [workflow.nodes?.map]. *)
Definition cleanNode (node : Value) : Result Value :=
  id <- get node "id" ;;
  type <- get node "type" ;;
  position <- get node "position" ;;
  data <- get node "data" ;;
  Ok (Obj [("id", id); ("type", type); ("position", position);
           ("data", cleanNodeData (or data (Obj [])))]).

(** The callback of [workflow.edges?.map]. *)
Definition cleanEdge (edge : Value) : Result Value :=
  id <- get edge "id" ;;
  source <- get edge "source" ;;
  target <- get edge "target" ;;
  animated <- get edge "animated" ;;
  Ok (Obj [("id", id); ("source", source); ("target", target);
           ("animated", animated)]).

(** [values?.map(f) ?? []] *)
Definition mapOrEmpty (what : string) (f : Value -> Result Value)
           (values : Value) : Result Value :=
  match values with
  | Undefined | Null => Ok (Arr [])
  | Arr items => mapped <- mapM f items ;; Ok (Arr mapped)
  | _ => Throw (notAFunction what)
  end.

Definition sanitizeWorkflowForSave (workflow : Value) : Result Value :=
  nodes <- get workflow "nodes" ;;
  cleanNodes <- mapOrEmpty "workflow.nodes?.map" cleanNode nodes ;;
  edges <- get workflow "edges" ;;
  cleanEdges <- mapOrEmpty "workflow.edges?.map" cleanEdge edges ;;
  id <- get workflow "id" ;;
  customId <- get workflow "customId" ;;
  name <- get workflow "name" ;;
  description <- get workflow "description" ;;
  createdAt <- get workflow "createdAt" ;;
  updatedAt <- get workflow "updatedAt" ;;
  convexId <- get workflow "_convexId" ;;
  docId <- get workflow "_id" ;;
  Ok (Obj [("id", id); ("customId", or customId id); ("name", name);
           ("description", description); ("nodes", cleanNodes);
           ("edges", cleanEdges); ("createdAt", createdAt);
           ("updatedAt", updatedAt); ("_convexId", convexId);
           ("_id", docId)]).

(** *** What cleaning is for *)

(** No React key at any depth. *)
Fixpoint tidy (v : Value) : bool :=
  match v with
  | Obj props =>
      forallb (fun kv => negb (reactKey (fst kv)) && tidy (snd kv)) props
  | Arr items => forallb tidy items
  | _ => true
  end.

Fixpoint distinct (ks : list string) : bool :=
  match ks with
  | [] => true
  | k :: rest => negb (existsb (String.eqb k) rest) && distinct rest
  end.

(** Data with distinct keys, no React key, and no array that is an
    element of an array, at any depth. *)
Fixpoint settled (v : Value) : bool :=
  match v with
  | Obj props =>
      distinct (keys props)
      && forallb (fun kv => negb (reactKey (fst kv)) && settled (snd kv)) props
  | Arr items =>
      forallb (fun item =>
                 match item with Arr _ => false | _ => settled item end)
              items
  | _ => true
  end.

(** The keys of an array of [n] elements. *)
Definition indices (n : nat) : list string :=
  map (fun index => Str.ofZ (Z.of_nat index)) (seq 0 n).

End Workflow.

(** ** The workflow table *)

(** The Convex functions on the [workflows] table.  The table is the list
    of its documents in the order of their creation, which is the order
    of the [by_customId] index among the documents of one [customId];
    [ctx.db.delete(id)] removes the document of that id. *)
Module Convex.

Record Doc : Type := {
  docId : string;
  customId : option string;
  isTemplate : Js.Value;
  content : Js.Value
}.

Definition Table : Type := list Doc.

(** [ctx.db.query("workflows").collect()] *)
Definition listWorkflows (table : Table) : list Doc := table.

(** [.filter((q) => q.eq(q.field("isTemplate"), true))] *)
Definition isTrue (v : Js.Value) : bool :=
  match v with Js.Bool true => true | _ => false end.

Definition getTemplates (table : Table) : list Doc :=
  filter (fun doc => isTrue (isTemplate doc)) table.

(** [q.eq("customId", args.customId)] *)
Definition named (wanted : string) (doc : Doc) : bool :=
  match customId doc with
  | Some name => String.eqb name wanted
  | None => false
  end.

(** [.withIndex("by_customId", ...).first()] *)
Definition getWorkflowByCustomId (wanted : string) (table : Table)
  : option Doc :=
  find (named wanted) table.

(** [ctx.db.delete(id)] *)
Definition delete (id : string) (table : Table) : Table :=
  filter (fun doc => negb (String.eqb (docId doc) id)) table.

(** [{ deleted: true, id: existing._id }] or [{ deleted: false }] *)
Record Deletion : Type := {
  deleted : bool;
  id : option string
}.

Definition deleteWorkflow (wanted : string) (table : Table)
  : Deletion * Table :=
  match getWorkflowByCustomId wanted table with
  | Some existing =>
      ({| deleted := true; id := Some (docId existing) |},
       delete (docId existing) table)
  | None => ({| deleted := false; id := None |}, table)
  end.

(** The template seeded twice, and a workflow of the user. *)
Definition seededTwice : Table :=
  [{| docId := "j57a"; customId := Some "cinematic-ad-agent-suite";
      isTemplate := Js.Bool true; content := Js.Null |};
   {| docId := "j57b"; customId := Some "my-workflow";
      isTemplate := Js.Undefined; content := Js.Null |};
   {| docId := "j57c"; customId := Some "cinematic-ad-agent-suite";
      isTemplate := Js.Bool true; content := Js.Null |}].

End Convex.

(** ** Sample nodes *)

Module Nodes.

(** A node of the earlier executor with no configuration, and the node
    of the present executor that asks for Flux Schnell. *)
Definition bareNode : Legacy.ImageGenNode :=
  {| Legacy.nodeId := "image-gen-1";
     Legacy.configModel := None;
     Legacy.configSteps := None |}.

Definition schnellNode : ImageGen.ImageGenNode :=
  {| ImageGen.nodeId := "image-gen-1";
     ImageGen.imageGenConfigModel := Some "flux-schnell";
     ImageGen.legacyConfigModel := None;
     ImageGen.legacyConfigSteps := None |}.

(** A workflow as the editor holds it: a node whose data carry a React
    component and a list of points. *)
Definition drawing : Js.Value :=
  Js.Obj
    [("id", Js.Str "workflow_1700000000000");
     ("name", Js.Str "New Workflow");
     ("nodes",
      Js.Arr
        [Js.Obj
           [("id", Js.Str "node_start");
            ("type", Js.Str "start");
            ("position", Js.Obj [("x", Js.Num 250); ("y", Js.Num 100)]);
            ("selected", Js.Bool true);
            ("data",
             Js.Obj
               [("label", Js.Str "Start");
                ("component", Js.Obj [("displayName", Js.Str "StartNode")]);
                ("points",
                 Js.Arr [Js.Arr [Js.Num 0; Js.Num 0];
                         Js.Arr [Js.Num 4; Js.Num 2]])])]]);
     ("edges", Js.Arr []);
     ("createdAt", Js.Str "2023-11-14T22:13:20.000Z");
     ("updatedAt", Js.Str "2023-11-14T22:13:20.000Z")].

End Nodes.

(** * Strings and markdown extraction *)

Module StrFacts.
Import Str.

Lemma append_nil_r (s : string) : s ++ "" = s.
Proof. induction s; simpl; congruence. Qed.

Lemma append_assoc (a b c : string) : (a ++ b) ++ c = a ++ (b ++ c).
Proof. induction a; simpl; congruence. Qed.

Lemma length_append (a b : string) :
  String.length (a ++ b) = String.length a + String.length b.
Proof. induction a; simpl; congruence. Qed.

Lemma stripPrefix_append (p s : string) : stripPrefix p (p ++ s) = Some s.
Proof.
  induction p as [|c p IH]; simpl.
  - destruct s; reflexivity.
  - rewrite Ascii.eqb_refl. exact IH.
Qed.

Lemma stripPrefix_Some (p s r : string) :
  stripPrefix p s = Some r -> s = p ++ r.
Proof.
  revert s. induction p as [|c p IH]; intros s H.
  - destruct s; simpl in H; inversion H; reflexivity.
  - destruct s as [|d s]; simpl in H; [discriminate|].
    destruct (Ascii.eqb c d) eqn:E; [|discriminate].
    apply Ascii.eqb_eq in E. subst d. simpl. f_equal. auto.
Qed.

Lemma includes_cons_false (sub : string) (c : ascii) (s : string) :
  includes sub (String c s) = false ->
  startsWith sub (String c s) = false /\ includes sub s = false.
Proof.
  simpl. destruct (startsWith sub (String c s)); [discriminate|]. auto.
Qed.

Lemma includes_append_r (sub a b : string) :
  includes sub b = true -> includes sub (a ++ b) = true.
Proof.
  intros H. induction a as [|c a IH]; simpl; [exact H|].
  rewrite IH. destruct (startsWith sub (String c (a ++ b))); reflexivity.
Qed.

Lemma includes_prefix (sub s : string) : includes sub (sub ++ s) = true.
Proof.
  destruct (sub ++ s) eqn:E; simpl; unfold startsWith; rewrite <- E;
    rewrite stripPrefix_append; reflexivity.
Qed.

End StrFacts.

Module MarkdownFacts.
Import Str StrFacts Markdown.

Local Arguments Ascii.eqb : simpl never.
Local Arguments closing : simpl never.
Local Arguments opening : simpl never.

(** Case analysis on the character tests left by matching a literal. *)
Ltac split_tests :=
  repeat match goal with
         | |- context [Ascii.eqb ?x ?y] =>
             let E := fresh "E" in
             destruct (Ascii.eqb x y) eqn:E;
             try (cbv in E; discriminate E); clear E; simpl
         end.

(** A closing fence that begins inside a non-empty body lies within it. *)
Lemma closing_within (c : ascii) (b rest : string) :
  startsWith closing (String c b) = false ->
  stripPrefix closing (String c b ++ closing ++ rest) = None.
Proof.
  unfold startsWith, closing, fence, LF.
  destruct b as [|c2 [|c3 [|c4 b]]]; simpl;
    split_tests; try reflexivity; try discriminate.
Qed.

Lemma opening_within (c : ascii) (sep rest : string) :
  startsWith opening (String c sep) = false ->
  stripPrefix opening (String c sep ++ opening ++ rest) = None.
Proof.
  unfold startsWith, opening, fence, LF.
  destruct sep as [|c2 [|c3 [|c4 sep]]]; simpl;
    split_tests; try reflexivity; try discriminate.
Qed.

(** [lazyBody] unfolded one step. *)
Lemma lazyBody_step (s : string) :
  lazyBody s =
    match stripPrefix closing s with
    | Some rest => Some (EmptyString, rest)
    | None =>
        match s with
        | EmptyString => None
        | String c s' =>
            match lazyBody s' with
            | Some (body, rest) => Some (String c body, rest)
            | None => None
            end
        end
    end.
Proof. destruct s; reflexivity. Qed.

Lemma lazyBody_first (b rest : string) :
  includes closing b = false ->
  lazyBody (b ++ closing ++ rest) = Some (b, rest).
Proof.
  induction b as [|c b IH]; intros H; rewrite lazyBody_step.
  - change ("" ++ closing ++ rest) with (closing ++ rest).
    rewrite stripPrefix_append. reflexivity.
  - apply includes_cons_false in H. destruct H as [Hc Hb].
    rewrite (closing_within c b rest Hc). cbn [append].
    rewrite (IH Hb). reflexivity.
Qed.

Lemma lazyBody_sound (s b rest : string) :
  lazyBody s = Some (b, rest) -> s = b ++ closing ++ rest.
Proof.
  revert b rest.
  induction s as [|c s IH]; intros b rest H; rewrite lazyBody_step in H.
  - destruct (stripPrefix closing "") eqn:E; [|discriminate].
    inversion H; subst. apply stripPrefix_Some in E. exact E.
  - destruct (stripPrefix closing (String c s)) eqn:E.
    + inversion H; subst. apply stripPrefix_Some in E. exact E.
    + destruct (lazyBody s) as [[body r]|] eqn:L; [|discriminate].
      inversion H; subst. cbn [append]. f_equal. apply IH. reflexivity.
Qed.

Lemma lazyBody_complete (mid post : string) :
  lazyBody (mid ++ closing ++ post) <> None.
Proof.
  induction mid as [|c mid IH]; rewrite lazyBody_step.
  - change ("" ++ closing ++ post) with (closing ++ post).
    rewrite stripPrefix_append. discriminate.
  - destruct (stripPrefix closing (String c mid ++ closing ++ post));
      [discriminate|].
    cbn [append].
    destruct (lazyBody (mid ++ closing ++ post)) as [[body r]|];
      [discriminate | contradiction].
Qed.

(** [exec] unfolded one step. *)
Lemma exec_step (s : string) :
  exec s =
    match
      match stripPrefix opening s with
      | Some after => lazyBody after
      | None => None
      end
    with
    | Some found => Some found
    | None =>
        match s with
        | EmptyString => None
        | String _ s' => exec s'
        end
    end.
Proof. destruct s; reflexivity. Qed.

(** Every match is an opening fence directly followed by a newline, the
    captured body, and a newline directly followed by a fence. *)
Lemma exec_sound (s b rest : string) :
  exec s = Some (b, rest) ->
  exists before, s = before ++ MarkdownRule.fenced b ++ rest.
Proof.
  unfold MarkdownRule.fenced.
  induction s as [|c s IH]; rewrite exec_step; intros H.
  - cbv in H. discriminate H.
  - destruct (stripPrefix opening (String c s)) as [after|] eqn:E.
    + destruct (lazyBody after) as [found|] eqn:L.
      * inversion H; subst. apply lazyBody_sound in L.
        apply stripPrefix_Some in E. exists "". simpl.
        rewrite E, L. rewrite !append_assoc. reflexivity.
      * destruct (IH H) as [before Hs]. exists (String c before).
        simpl. f_equal. exact Hs.
    + destruct (IH H) as [before Hs]. exists (String c before).
      simpl. f_equal. exact Hs.
Qed.

(** The first block of a well-fenced text is the first match. *)
Lemma exec_block (sep b rest : string) :
  includes opening sep = false ->
  includes closing b = false ->
  exec (sep ++ MarkdownRule.fenced b ++ rest) = Some (b, rest).
Proof.
  unfold MarkdownRule.fenced. intros Hsep Hb.
  rewrite !append_assoc.
  induction sep as [|c sep IH]; rewrite exec_step.
  - change ("" ++ opening ++ b ++ closing ++ rest)
      with (opening ++ b ++ closing ++ rest).
    rewrite stripPrefix_append, (lazyBody_first b rest Hb). reflexivity.
  - apply includes_cons_false in Hsep. destruct Hsep as [Hc Hsep].
    rewrite (opening_within c sep _ Hc). cbn [append]. apply IH. exact Hsep.
Qed.

Lemma exec_found (before body after : string) :
  exec (before ++ MarkdownRule.fenced body ++ after) <> None.
Proof.
  unfold MarkdownRule.fenced. rewrite !append_assoc.
  induction before as [|c before IH]; rewrite exec_step.
  - change ("" ++ opening ++ body ++ closing ++ after)
      with (opening ++ body ++ closing ++ after).
    rewrite stripPrefix_append.
    pose proof (lazyBody_complete body after) as L.
    destruct (lazyBody (body ++ closing ++ after)); [discriminate|].
    contradiction.
  - destruct (match stripPrefix opening
                      (String c before ++ opening ++ body ++ closing ++ after)
              with
              | Some after0 => lazyBody after0
              | None => None
              end); [discriminate|].
    cbn [append]. exact IH.
Qed.

(** The regular expression finds nothing exactly in the texts without a
    block. *)
Lemma exec_None_iff (s : string) :
  exec s = None <-> MarkdownRule.noBlock s.
Proof.
  split.
  - intros H before body after E. subst s.
    exact (exec_found before body after H).
  - intros H. destruct (exec s) as [[b rest]|] eqn:E; [|reflexivity].
    apply exec_sound in E. destruct E as [before E].
    exfalso. exact (H before b rest E).
Qed.

Lemma no_opening_no_block (s : string) :
  includes opening s = false -> exec s = None.
Proof.
  intros H. apply exec_None_iff. intros before body after E. subst s.
  unfold MarkdownRule.fenced in H. rewrite !append_assoc in H.
  rewrite includes_append_r in H; [discriminate|].
  apply includes_prefix.
Qed.

Lemma exec_shorter (s b rest : string) :
  exec s = Some (b, rest) -> String.length rest < String.length s.
Proof.
  intros H. apply exec_sound in H. destruct H as [before H]. subst s.
  unfold MarkdownRule.fenced.
  rewrite !length_append. unfold opening, fence, LF. simpl. lia.
Qed.

(** *** Trimming and the two needles *)

Lemma isSpace_lowerChar (c : ascii) : isSpace (lowerChar c) = isSpace c.
Proof. destruct c as [[] [] [] [] [] [] [] []]; reflexivity. Qed.

Lemma toLowerCase_trimStart (s : string) :
  toLowerCase (trimStart s) = trimStart (toLowerCase s).
Proof.
  induction s as [|c s IH]; simpl; [reflexivity|].
  rewrite isSpace_lowerChar. destruct (isSpace c); [exact IH | reflexivity].
Qed.

Lemma toLowerCase_trimEnd (s : string) :
  toLowerCase (trimEnd s) = trimEnd (toLowerCase s).
Proof.
  induction s as [|c s IH]; simpl; [reflexivity|].
  rewrite <- IH, isSpace_lowerChar.
  destruct (trimEnd s); simpl; [destruct (isSpace c)|]; reflexivity.
Qed.

Lemma toLowerCase_trim (s : string) :
  toLowerCase (trim s) = trim (toLowerCase s).
Proof.
  unfold trim. rewrite toLowerCase_trimEnd, toLowerCase_trimStart.
  reflexivity.
Qed.

Lemma eqb_space (a c : ascii) :
  isSpace a = false -> isSpace c = true -> Ascii.eqb a c = false.
Proof.
  intros Ha Hc. destruct (Ascii.eqb a c) eqn:E; [|reflexivity].
  apply Ascii.eqb_eq in E. congruence.
Qed.

Lemma startsWith_cons (a : ascii) (n : string) (c : ascii) (s : string) :
  startsWith (String a n) (String c s) = Ascii.eqb a c && startsWith n s.
Proof. unfold startsWith. simpl. destruct (Ascii.eqb a c); reflexivity. Qed.

Lemma startsWith_nil (a : ascii) (n : string) :
  startsWith (String a n) "" = false.
Proof. reflexivity. Qed.

Lemma startsWith_empty (s : string) : startsWith "" s = true.
Proof. destruct s; reflexivity. Qed.

Lemma startsWith_trimEnd (needle s : string) :
  endsSolid needle = true ->
  startsWith needle (trimEnd s) = startsWith needle s.
Proof.
  revert needle. induction s as [|c s IH]; intros needle H; [reflexivity|].
  destruct needle as [|a n]; [discriminate|].
  rewrite startsWith_cons.
  destruct n as [|a' n'].
  - simpl in H. rewrite startsWith_empty, andb_true_r.
    simpl. destruct (trimEnd s).
    + destruct (isSpace c) eqn:Sc.
      * rewrite startsWith_nil. symmetry. apply eqb_space; [|exact Sc].
        destruct (isSpace a); [discriminate | reflexivity].
      * rewrite startsWith_cons, startsWith_empty, andb_true_r. reflexivity.
    + rewrite startsWith_cons, startsWith_empty, andb_true_r. reflexivity.
  - assert (Hn : endsSolid (String a' n') = true) by exact H.
    specialize (IH _ Hn). simpl trimEnd.
    destruct (trimEnd s) eqn:T.
    + rewrite <- IH, startsWith_nil, andb_false_r.
      destruct (isSpace c); [reflexivity|].
      rewrite startsWith_cons, startsWith_nil, andb_false_r. reflexivity.
    + rewrite startsWith_cons, IH. reflexivity.
Qed.

Lemma includes_unfold (sub s : string) :
  includes sub s =
    startsWith sub s
    || match s with EmptyString => false | String _ s' => includes sub s' end.
Proof. destruct s; simpl; destruct (startsWith sub _); reflexivity. Qed.

Lemma includes_trimEnd (needle s : string) :
  endsSolid needle = true ->
  includes needle (trimEnd s) = includes needle s.
Proof.
  intros H. induction s as [|c s IH]; [reflexivity|].
  rewrite (includes_unfold needle (String c s)).
  rewrite <- (startsWith_trimEnd needle (String c s) H), <- IH.
  simpl trimEnd. destruct (trimEnd s) eqn:T.
  - destruct (isSpace c).
    + rewrite !(includes_unfold needle "").
      destruct (startsWith needle ""); reflexivity.
    + rewrite (includes_unfold needle (String c "")). reflexivity.
  - rewrite (includes_unfold needle (String c (String a s0))). reflexivity.
Qed.

Lemma includes_trimStart (needle s : string) :
  startsSolid needle = true ->
  includes needle (trimStart s) = includes needle s.
Proof.
  intros H. destruct needle as [|a n]; [discriminate|]. simpl in H.
  induction s as [|c s IH]; [reflexivity|].
  simpl trimStart. destruct (isSpace c) eqn:Sc; [|reflexivity].
  rewrite IH, (includes_unfold _ (String c s)), startsWith_cons.
  rewrite eqb_space; [reflexivity | | exact Sc].
  destruct (isSpace a); [discriminate | reflexivity].
Qed.

Lemma includes_trim (needle s : string) :
  startsSolid needle = true -> endsSolid needle = true ->
  includes needle (trim s) = includes needle s.
Proof.
  intros H1 H2. unfold trim.
  rewrite includes_trimEnd, includes_trimStart by assumption. reflexivity.
Qed.

Lemma length_toLowerCase (s : string) :
  String.length (toLowerCase s) = String.length s.
Proof. induction s; simpl; congruence. Qed.

(** The test of the code, on the trimmed block, is the test of the
    rule, on the block. *)
Lemma skipped_trim (block : string) :
  skipped (trim block) = MarkdownRule.discarded block.
Proof.
  unfold skipped, MarkdownRule.discarded, MarkdownRule.containsNoCase.
  rewrite toLowerCase_trim.
  rewrite !includes_trim by reflexivity.
  reflexivity.
Qed.

(** *** The loop *)

Section LoopFacts.
Variable item : Z -> string -> WorkItem.

Lemma loop_spec (fuel : nat) :
  forall (text : string) (n : nat) (acc : list WorkItem),
    loop item fuel text (Z.of_nat n + 1)%Z acc
    = (acc ++ mapi (fun index block =>
                      item (Z.of_nat index + 1)%Z (trim block))
                   n (MarkdownRule.kept (captured fuel text)))%list.
Proof.
  induction fuel as [|fuel IH]; intros text n acc; simpl.
  - rewrite app_nil_r. reflexivity.
  - destruct (exec text) as [[g rest]|]; simpl.
    + rewrite skipped_trim. destruct (MarkdownRule.discarded g); simpl.
      * apply IH.
      * replace (Z.of_nat n + 1 + 1)%Z with (Z.of_nat (S n) + 1)%Z by lia.
        rewrite IH, <- app_assoc. reflexivity.
    + rewrite app_nil_r. reflexivity.
Qed.

(** More fuel than the text is long changes nothing. *)
Lemma captured_fuel (f1 : nat) :
  forall (f2 : nat) (text : string),
    String.length text < f1 -> String.length text < f2 ->
    captured f1 text = captured f2 text.
Proof.
  induction f1 as [|f1 IH]; intros f2 text H1 H2; [lia|].
  destruct f2 as [|f2]; [lia|]. simpl.
  destruct (exec text) as [[g rest]|] eqn:E; [|reflexivity].
  apply exec_shorter in E. f_equal. apply IH; lia.
Qed.

Lemma extract_spec (text : string) :
  extract item text
  = MarkdownRule.numbered item
      (MarkdownRule.kept (captured (S (String.length text)) text)).
Proof.
  unfold extract, MarkdownRule.numbered.
  change 1%Z with (Z.of_nat 0 + 1)%Z. rewrite loop_spec. reflexivity.
Qed.
End LoopFacts.

(** The captured groups of a well-fenced document are its blocks. *)
Lemma captured_document (parts : list (string * string)) (tail : string) :
  MarkdownRule.wellFenced parts tail ->
  forall fuel,
    String.length (MarkdownRule.document parts tail) < fuel ->
    captured fuel (MarkdownRule.document parts tail) = map snd parts.
Proof.
  intros [Hparts Htail]. induction Hparts as [|[sep b] parts [Hsep Hb] _ IH];
    intros fuel Hfuel.
  - cbn [MarkdownRule.document map]. destruct fuel; [reflexivity|].
    cbn [captured]. rewrite (no_opening_no_block tail Htail). reflexivity.
  - cbn [MarkdownRule.document fst snd] in *. destruct fuel; [lia|].
    cbn [captured]. rewrite (exec_block sep b _ Hsep Hb).
    cbn [map snd]. f_equal. apply IH.
    unfold MarkdownRule.fenced in Hfuel.
    rewrite !length_append in Hfuel.
    change (String.length opening) with 4 in Hfuel. lia.
Qed.

End MarkdownFacts.

(** * Printed amounts *)

Module FixedFacts.
Import Fixed.

Local Open Scope Z_scope.

Lemma digitValue_digitChar (d : Z) :
  0 <= d < 10 -> digitValue (Str.digitChar d) = Some d.
Proof.
  intros H.
  assert (Hc : d = 0 \/ d = 1 \/ d = 2 \/ d = 3 \/ d = 4 \/ d = 5 \/ d = 6
               \/ d = 7 \/ d = 8 \/ d = 9) by lia.
  repeat (destruct Hc as [Hc|Hc]; [subst d; reflexivity|]).
  subst d. reflexivity.
Qed.

Lemma readDigits_append (a b : string) :
  forall acc, readDigits (a ++ b) acc = readDigits b (readDigits a acc).
Proof.
  induction a as [|c a IH]; intros acc; simpl; [reflexivity|].
  destruct (digitValue c); apply IH.
Qed.

Lemma readDigits_digit (d : Z) (s : string) (acc : Z) :
  0 <= d < 10 ->
  readDigits (String (Str.digitChar d) s) acc = readDigits s (acc * 10 + d).
Proof.
  intros H. cbn [readDigits]. rewrite (digitValue_digitChar d H). reflexivity.
Qed.

Lemma readDigits_fraction (f : nat) :
  forall (n : Z) (tail : string) (acc : Z),
    0 <= n ->
    readDigits (fraction f n tail) acc
    = readDigits tail (acc * 10 ^ Z.of_nat f + n mod 10 ^ Z.of_nat f).
Proof.
  induction f as [|f IH]; intros n tail acc Hn.
  - cbn [fraction]. change (10 ^ Z.of_nat 0) with 1.
    rewrite Z.mod_1_r. f_equal. lia.
  - cbn [fraction]. rewrite IH by (apply Z.div_pos; lia).
    rewrite readDigits_digit by (apply Z.mod_pos_bound; lia).
    f_equal. rewrite Nat2Z.inj_succ, Z.pow_succ_r by lia.
    assert (Hp : 0 < 10 ^ Z.of_nat f) by (apply Z.pow_pos_nonneg; lia).
    rewrite (Z.rem_mul_r n 10 (10 ^ Z.of_nat f)) by lia. lia.
Qed.

Lemma digitsAcc_tail (fuel : nat) :
  forall (n : Z) (tail : string),
    Str.digitsAcc fuel n tail = (Str.digitsAcc fuel n EmptyString ++ tail)%string.
Proof.
  induction fuel as [|fuel IH]; intros n tail; cbn [Str.digitsAcc].
  - reflexivity.
  - destruct (n <? 10); [reflexivity|].
    rewrite (IH (n / 10) (String _ tail)), (IH (n / 10) (String _ EmptyString)).
    rewrite StrFacts.append_assoc. reflexivity.
Qed.

Lemma readDigits_digitsAcc (fuel : nat) :
  forall (n : Z) (tail : string),
    0 <= n < 2 * 2 ^ Z.of_nat fuel ->
    readDigits (Str.digitsAcc fuel n tail) 0 = readDigits tail n.
Proof.
  induction fuel as [|fuel IH]; intros n tail Hn; cbn [Str.digitsAcc].
  - change (2 ^ Z.of_nat 0) with 1 in Hn.
    rewrite readDigits_digit by (apply Z.mod_pos_bound; lia).
    rewrite Z.mod_small by lia. f_equal.
  - destruct (n <? 10) eqn:E.
    + apply Z.ltb_lt in E.
      rewrite readDigits_digit by (apply Z.mod_pos_bound; lia).
      rewrite Z.mod_small by lia. f_equal.
    + apply Z.ltb_ge in E.
      rewrite IH.
      * rewrite readDigits_digit by (apply Z.mod_pos_bound; lia).
        f_equal. pose proof (Z.div_mod n 10). lia.
      * rewrite Nat2Z.inj_succ, Z.pow_succ_r in Hn by lia.
        split; [apply Z.div_pos; lia|].
        apply Z.div_lt_upper_bound; lia.
Qed.

Lemma readDigits_ofNonneg (n : Z) (tail : string) :
  0 <= n -> readDigits (Str.ofNonneg n ++ tail) 0 = readDigits tail n.
Proof.
  intros Hn. unfold Str.ofNonneg. rewrite <- digitsAcc_tail.
  apply readDigits_digitsAcc. split; [exact Hn|].
  destruct (Z.eq_dec n 0) as [->|Hnz]; [reflexivity|].
  rewrite Z2Nat.id by apply Z.log2_nonneg.
  pose proof (Z.log2_spec n) as H.
  rewrite <- Z.pow_succ_r by apply Z.log2_nonneg. lia.
Qed.

(** Reading a printed amount gives the amount back. *)
Lemma amount_render (f : nat) (n : Z) :
  0 <= n -> amount ("$" ++ render f n) = n.
Proof.
  intros Hn. unfold amount, render.
  assert (Hp : 0 < 10 ^ Z.of_nat f) by (apply Z.pow_pos_nonneg; lia).
  change (readDigits ("$" ++ ?s) 0) with (readDigits s 0).
  rewrite readDigits_ofNonneg by (apply Z.div_pos; lia).
  destruct f as [|f].
  - change (10 ^ Z.of_nat 0) with 1. rewrite Z.div_1_r. reflexivity.
  - change (readDigits ("." ++ ?s) ?a) with (readDigits s a).
    rewrite readDigits_fraction by (apply Z.mod_pos_bound; lia).
    cbn [readDigits]. rewrite Z.mod_mod by lia.
    pose proof (Z.div_mod n (10 ^ Z.of_nat (S f))). lia.
Qed.

Lemma units_nonneg (f : nat) (x : Q) : 0 <= units f x.
Proof.
  unfold units.
  assert (H : (0 <= Qabs x * inject_Z (10 ^ Z.of_nat f) + (1 # 2))%Q).
  { apply Qle_trans with (y := (0 + 0)%Q); [discriminate|].
    apply Qplus_le_compat; [|discriminate].
    apply Qmult_le_0_compat; [apply Qabs_nonneg|].
    change 0%Q with (inject_Z 0). rewrite <- Zle_Qle.
    apply Z.pow_nonneg. lia. }
  apply Qfloor_resp_le in H. exact H.
Qed.

Lemma amount_toFixed (f : nat) (x : Q) :
  (0 <= x)%Q -> amount ("$" ++ toFixed f x) = units f x.
Proof.
  intros Hx. unfold toFixed.
  destruct (Qlt_le_dec x 0) as [Hneg|_].
  - exfalso. apply (Qlt_not_le _ _ Hneg). exact Hx.
  - change (EmptyString ++ ?s)%string with s.
    apply amount_render. apply units_nonneg.
Qed.

(** An amount that is a whole number of units is printed exactly. *)
Lemma units_exact (f : nat) (x : Q) (u : Z) :
  0 <= u ->
  (x * inject_Z (10 ^ Z.of_nat f) == inject_Z u)%Q ->
  units f x = u.
Proof.
  intros Hu Hx. unfold units.
  assert (Hp : (0 < inject_Z (10 ^ Z.of_nat f))%Q).
  { change 0%Q with (inject_Z 0). rewrite <- Zlt_Qlt.
    apply Z.pow_pos_nonneg; lia. }
  assert (Hpos : (0 <= x)%Q).
  { destruct (Qlt_le_dec x 0) as [Hneg|H]; [|exact H].
    exfalso.
    assert (Hlt : (x * inject_Z (10 ^ Z.of_nat f) < 0)%Q).
    { rewrite <- (Qmult_0_l (inject_Z (10 ^ Z.of_nat f))).
      apply Qmult_lt_compat_r; assumption. }
    rewrite Hx in Hlt. change 0%Q with (inject_Z 0) in Hlt.
    rewrite <- Zlt_Qlt in Hlt. lia. }
  rewrite (Qabs_pos x Hpos), Hx.
  unfold Qfloor, Qplus, inject_Z. cbn [Qnum Qden].
  change (Z.pos (1 * 2)) with 2.
  symmetry. apply Z.div_unique with (r := 1); lia.
Qed.

Lemma amount_zero4 : amount "$0.0000" = 0.
Proof. reflexivity. Qed.

Lemma amount_zero2 : amount "$0.00" = 0.
Proof. reflexivity. Qed.

End FixedFacts.

(** * Binary64 rounding *)

Module DoubleFacts.
Import Double.

Lemma floor_unique (q : Q) (n : Z) :
  (inject_Z n <= q)%Q -> (q < inject_Z n + 1)%Q -> Qfloor q = n.
Proof.
  intros Hle Hlt.
  pose proof (Qfloor_le q) as H1. pose proof (Qlt_floor q) as H2.
  rewrite inject_Z_plus in H2.
  assert (Ha : (inject_Z (Qfloor q) < inject_Z (n + 1))%Q)
    by (rewrite inject_Z_plus; change (inject_Z 1) with 1%Q; lra).
  assert (Hb : (inject_Z n < inject_Z (Qfloor q + 1))%Q)
    by (rewrite inject_Z_plus; change (inject_Z 1) with 1%Q in *; lra).
  rewrite <- Zlt_Qlt in Ha, Hb. lia.
Qed.

(** The nearest integer is within one half. *)
Lemma nearestEven_near (q : Q) :
  (q - (1 # 2) <= inject_Z (nearestEven q) <= q + (1 # 2))%Q.
Proof.
  unfold nearestEven.
  pose proof (Qfloor_le q) as H1. pose proof (Qlt_floor q) as H2.
  rewrite inject_Z_plus in H2. change (inject_Z 1) with 1%Q in H2.
  destruct (q - inject_Z (Qfloor q) ?= 1 # 2)%Q eqn:E.
  - apply Qeq_alt in E.
    destruct (Z.even (Qfloor q));
      rewrite ?inject_Z_plus; change (inject_Z 1) with 1%Q; lra.
  - apply Qlt_alt in E. lra.
  - apply Qgt_alt in E. rewrite inject_Z_plus.
    change (inject_Z 1) with 1%Q. lra.
Qed.

Lemma nearestEven_nonneg (q : Q) : (0 <= q)%Q -> (0 <= nearestEven q)%Z.
Proof.
  intros Hq.
  assert (Hf : (0 <= Qfloor q)%Z).
  { change 0%Z with (Qfloor 0). apply Qfloor_resp_le. exact Hq. }
  unfold nearestEven.
  destruct (q - inject_Z (Qfloor q) ?= 1 # 2)%Q;
    [destruct (Z.even (Qfloor q))| |]; lia.
Qed.

Lemma two_nonzero : ~ (2 == 0)%Q.
Proof. discriminate. Qed.

Lemma pow2_pos (k : Z) : (0 < 2 ^ k)%Q.
Proof. apply Qpower_0_lt. reflexivity. Qed.

Lemma pow2_cancel (k : Z) : (2 ^ (52 - k) * 2 ^ (k - 52) == 1)%Q.
Proof.
  rewrite <- Qpower_plus by exact two_nonzero.
  replace (52 - k + (k - 52))%Z with 0%Z by lia. reflexivity.
Qed.

(** The exponent of a number under [2^m]. *)
Lemma exponent_le (x : Q) (m : Z) :
  (0 <= m)%Z -> (0 < x)%Q -> (x < inject_Z (2 ^ m))%Q ->
  (exponent x <= m)%Z.
Proof.
  intros Hm Hpos Hlt.
  assert (Hk : (Z.log2 (Qnum x) - Z.log2 (Zpos (Qden x)) <= m)%Z).
  { destruct x as [a b]. unfold Qlt in *. cbn [Qnum Qden inject_Z] in *.
    assert (Ha : (0 < a)%Z) by lia.
    pose proof (Z.log2_spec (Z.pos b) eq_refl) as [_ Hb].
    pose proof (Z.log2_nonneg (Z.pos b)) as Hb0.
    assert (Hab : (a < 2 ^ (m + Z.succ (Z.log2 (Z.pos b))))%Z).
    { rewrite Z.pow_add_r by lia.
      assert (Hp : (0 < 2 ^ m)%Z) by (apply Z.pow_pos_nonneg; lia).
      nia. }
    apply Z.log2_lt_pow2 in Hab; [lia | exact Ha]. }
  unfold exponent. destruct (Qle_bool _ _); lia.
Qed.

(** The nearest binary64 number is within half a unit in the last
    place. *)
Lemma nearest_near (x : Q) (m : Z) :
  (0 <= m)%Z -> (0 < x)%Q -> (x < inject_Z (2 ^ m))%Q ->
  (x - (1 # 2) * 2 ^ (m - 52) <= nearest x <= x + (1 # 2) * 2 ^ (m - 52))%Q.
Proof.
  intros Hm Hpos Hlt.
  pose proof (exponent_le x m Hm Hpos Hlt) as He.
  unfold nearest. rewrite Qred_correct.
  set (e := exponent x) in *.
  pose proof (nearestEven_near (x * 2 ^ (52 - e))) as [Hlo Hhi].
  set (n := inject_Z (nearestEven (x * 2 ^ (52 - e)))) in *.
  pose proof (pow2_pos (e - 52)) as Hp.
  pose proof (pow2_cancel e) as Hc.
  assert (Hmono : (2 ^ (e - 52) <= 2 ^ (m - 52))%Q).
  { apply Qpower_le_compat_l; [lia | discriminate]. }
  assert (Hx : (x * 2 ^ (52 - e) * 2 ^ (e - 52) == x)%Q).
  { rewrite <- Qmult_assoc, Hc. ring. }
  set (y := (x * 2 ^ (52 - e))%Q) in *.
  set (p := (2 ^ (e - 52))%Q) in *.
  set (P := (2 ^ (m - 52))%Q) in *.
  assert (Hlo' : ((y - (1 # 2)) * p <= n * p)%Q).
  { apply Qmult_le_compat_r; [exact Hlo | apply Qlt_le_weak; exact Hp]. }
  assert (Hhi' : (n * p <= (y + (1 # 2)) * p)%Q).
  { apply Qmult_le_compat_r; [exact Hhi | apply Qlt_le_weak; exact Hp]. }
  assert (Ea : ((y - (1 # 2)) * p == y * p - (1 # 2) * p)%Q) by ring.
  assert (Eb : ((y + (1 # 2)) * p == y * p + (1 # 2) * p)%Q) by ring.
  rewrite Ea in Hlo'. rewrite Eb in Hhi'. rewrite Hx in Hlo', Hhi'.
  split; lra.
Qed.

Lemma nearest_nonneg (x : Q) : (0 < x)%Q -> (0 <= nearest x)%Q.
Proof.
  intros Hpos. unfold nearest. rewrite Qred_correct.
  apply Qmult_le_0_compat.
  - change 0%Q with (inject_Z 0). rewrite <- Zle_Qle.
    apply nearestEven_nonneg. apply Qmult_le_0_compat.
    + apply Qlt_le_weak. exact Hpos.
    + apply Qlt_le_weak. apply pow2_pos.
  - apply Qlt_le_weak. apply pow2_pos.
Qed.

Lemma round_pos (x : Q) : (0 < x)%Q -> round x = nearest x.
Proof.
  intros Hpos. unfold round. destruct x as [[|a|a] b]; try reflexivity;
    exfalso; unfold Qlt in Hpos; cbn in Hpos; lia.
Qed.

Lemma round_zero (x : Q) : (x == 0)%Q -> round x = 0%Q.
Proof.
  intros Hx. unfold round. destruct x as [[|a|a] b]; try reflexivity;
    exfalso; unfold Qeq in Hx; cbn in Hx; lia.
Qed.

(** *** Products that print exactly *)

Lemma mul_nonneg (d : Z) (c53 : Q) :
  (0 <= d)%Z -> (0 < c53)%Q -> (0 <= mul (inject_Z d) c53)%Q.
Proof.
  intros Hd Hpos. unfold mul. destruct (Z.eq_dec d 0) as [->|Hnz].
  - rewrite round_zero by (change (inject_Z 0) with 0%Q; ring).
    apply Qle_refl.
  - assert (Hz : (0 < inject_Z d * c53)%Q).
    { apply Qmult_lt_0_compat; [|exact Hpos].
      change 0%Q with (inject_Z 0). rewrite <- Zlt_Qlt. lia. }
    rewrite round_pos by exact Hz. apply nearest_nonneg. exact Hz.
Qed.

(** A count or a duration [d] under 2^36 times a rate [c53], the
    binary64 number of a decimal rate [c] under 1: when [d * c] is [t]
    units of [10^-f], for [f] up to 4, the product prints as [t]
    units. *)
Lemma mul_units (f : nat) (d t : Z) (c c53 : Q) :
  f <= 4 ->
  (0 <= d < 2 ^ 36)%Z ->
  (inject_Z d * c * inject_Z (10 ^ Z.of_nat f) == inject_Z t)%Q ->
  (0 < c53 <= 1)%Q ->
  (c - (1 # 2 ^ 56) <= c53 <= c + (1 # 2 ^ 56))%Q ->
  Fixed.units f (mul (inject_Z d) c53) = t.
Proof.
  intros Hf [Hd0 Hd] Hdu [Hpos Hone] [Hlo Hhi].
  assert (Hdq : (inject_Z d < inject_Z (2 ^ 36))%Q) by (rewrite <- Zlt_Qlt; exact Hd).
  assert (Hdq0 : (0 <= inject_Z d)%Q)
    by (change 0%Q with (inject_Z 0); rewrite <- Zle_Qle; exact Hd0).
  assert (Hcases : f = 0 \/ f = 1 \/ f = 2 \/ f = 3 \/ f = 4) by lia.
  unfold mul. destruct (Z.eq_dec d 0) as [->|Hnz].
  - rewrite round_zero by (change (inject_Z 0) with 0%Q; ring).
    unfold Fixed.units. change (Qabs 0) with 0%Q.
    change (inject_Z 0) with 0%Q in Hdu.
    assert (Ht : (inject_Z t == 0)%Q) by (rewrite <- Hdu; ring).
    apply floor_unique; lra.
  - assert (Hd1 : (1 <= inject_Z d)%Q).
    { change 1%Q with (inject_Z 1). rewrite <- Zle_Qle. lia. }
    set (z := (inject_Z d * c53)%Q).
    assert (Hz : (0 < z)%Q).
    { unfold z. apply Qmult_lt_0_compat; [lra | exact Hpos]. }
    assert (Hzd : (z <= inject_Z d)%Q).
    { unfold z. rewrite <- (Qmult_1_r (inject_Z d)) at 2.
      apply Qmult_le_l; [lra | exact Hone]. }
    assert (Hzlo : (inject_Z d * (c - (1 # 2 ^ 56)) <= z)%Q).
    { unfold z. apply Qmult_le_l; [lra | exact Hlo]. }
    assert (Hzhi : (z <= inject_Z d * (c + (1 # 2 ^ 56)))%Q).
    { unfold z. apply Qmult_le_l; [lra | exact Hhi]. }
    rewrite round_pos by exact Hz.
    pose proof (nearest_near z 36 ltac:(lia) Hz ltac:(lra)) as [Hn1 Hn2].
    pose proof (nearest_nonneg z Hz) as Hn0.
    assert (E : (2 ^ (36 - 52) == 1 # 65536)%Q) by reflexivity.
    rewrite E in Hn1, Hn2.
    set (x := nearest z) in *.
    set (r := (inject_Z d * c)%Q) in *.
    assert (Ea : (inject_Z d * (c - (1 # 2 ^ 56))
                  == r - inject_Z d * (1 # 2 ^ 56))%Q) by (unfold r; ring).
    assert (Eb : (inject_Z d * (c + (1 # 2 ^ 56))
                  == r + inject_Z d * (1 # 2 ^ 56))%Q) by (unfold r; ring).
    rewrite Ea in Hzlo. rewrite Eb in Hzhi.
    change (inject_Z (2 ^ 36)) with (68719476736 # 1)%Q in Hdq.
    change (1 # 2 ^ 56)%Q with (1 # 72057594037927936)%Q in Hzlo, Hzhi.
    unfold Fixed.units. rewrite (Qabs_pos x Hn0).
    set (q := inject_Z t) in *.
    apply floor_unique;
      destruct Hcases as [->|[->|[->|[->| ->]]]];
      cbn [Z.of_nat Pos.of_succ_nat Pos.succ] in *;
      match goal with
      | H : (r * inject_Z (10 ^ ?k) == q)%Q |- _ =>
          let n := eval vm_compute in (10 ^ k)%Z in
          change (inject_Z (10 ^ k)) with (n # 1)%Q in *
      end;
      fold q; clear Ea Eb E; clearbody q x r z; lra.
Qed.

(** The same, read back from the printed cost. *)
Lemma amount_mul (f : nat) (d t : Z) (c c53 : Q) :
  f <= 4 ->
  (0 <= d < 2 ^ 36)%Z ->
  (inject_Z d * c * inject_Z (10 ^ Z.of_nat f) == inject_Z t)%Q ->
  (0 < c53 <= 1)%Q ->
  (c - (1 # 2 ^ 56) <= c53 <= c + (1 # 2 ^ 56))%Q ->
  Fixed.amount ("$" ++ Fixed.toFixed f (mul (inject_Z d) c53)) = t.
Proof.
  intros Hf Hd Hdu Hc Hnear.
  rewrite FixedFacts.amount_toFixed
    by (apply mul_nonneg; [apply Hd | apply Hc]).
  apply (mul_units f d t c c53); assumption.
Qed.

(** The rates of the registries and their binary64 numbers. *)
Lemma literal_near (c : Q) :
  In c [25 # 1000; 4 # 100; 3 # 1000; 5 # 100]%Q ->
  (0 < literal c <= 1)%Q
  /\ (c - (1 # 2 ^ 56) <= literal c <= c + (1 # 2 ^ 56))%Q.
Proof.
  intros [<-|[<-|[<-|[<-|[]]]]]; vm_compute; repeat split; discriminate.
Qed.

End DoubleFacts.

(** * The normalizers *)

Module NormalizerFacts.
Import Js Normalizer NormalizerRule.

Lemma get_field (v : Value) (k : string) :
  nullish v = false -> get v k = Ok (field v k).
Proof. destruct v; simpl; intros H; try discriminate; reflexivity. Qed.

Lemma mapiM_length {A B : Type} (f : nat -> A -> Result B) (l : list A) :
  forall (i : nat) (out : list B),
    mapiM f i l = Ok out -> List.length out = List.length l.
Proof.
  induction l as [|a l IH]; intros i out H; simpl in H.
  - inversion H. reflexivity.
  - destruct (f i a) as [b|]; simpl in H; [|discriminate].
    destruct (mapiM f (S i) l) as [bs|] eqn:E; simpl in H; [|discriminate].
    inversion H; subst. simpl. f_equal. exact (IH _ _ E).
Qed.

(** A callback that succeeds on every element maps the whole array. *)
Lemma mapiM_total {A B : Type} (f : nat -> A -> Result B) (g : nat -> A -> B)
      (l : list A) :
  forall i : nat,
    Forall (fun a => forall j, f j a = Ok (g j a)) l ->
    mapiM f i l = Ok (mapi g i l).
Proof.
  induction l as [|a l IH]; intros i H; simpl; [reflexivity|].
  inversion H; subst. rewrite H2. simpl. rewrite (IH (S i) H3). reflexivity.
Qed.

Lemma mapi_length {A B : Type} (g : nat -> A -> B) (l : list A) :
  forall i : nat, List.length (mapi g i l) = List.length l.
Proof. induction l; intros i; simpl; [reflexivity | f_equal; auto]. Qed.

Lemma filterM_total {A : Type} (keep : A -> Result bool) (p : A -> bool)
      (l : list A) :
  Forall (fun a => keep a = Ok (p a)) l ->
  filterM keep l = Ok (filter p l).
Proof.
  induction 1 as [|a l Ha _ IH]; simpl; [reflexivity|].
  rewrite Ha, IH. simpl. reflexivity.
Qed.

(** *** Scalars and strings *)

Lemma image_ofString_nonempty (s : string) : ImageGen.ofString s <> [].
Proof.
  unfold ImageGen.ofString.
  destruct (Str.includes Markdown.fence s); [|discriminate].
  destruct (ImageGen.extractPromptsFromMarkdown s); discriminate.
Qed.

Lemma video_ofString_nonempty (s : string) : VideoGen.ofString s <> [].
Proof.
  unfold VideoGen.ofString.
  destruct (Str.includes Markdown.fence s); [|discriminate].
  destruct (VideoGen.extractPromptsFromMarkdown s); discriminate.
Qed.

(** *** Objects without array-valued properties *)

Lemma flat_at (props : list (string * Value)) (k : string) :
  flat props = true ->
  match at_ props k with Arr _ => False | _ => True end.
Proof.
  unfold at_. induction props as [|[k' v] props IH]; simpl; intros H;
    [exact I|].
  apply andb_true_iff in H. destruct H as [Hv H].
  destruct (String.eqb k k'); [|exact (IH H)].
  destruct v; try exact I. discriminate.
Qed.

Lemma promptArray_not_array (v : Value) :
  match v with Arr _ => False | _ => True end ->
  promptArray v = Ok None.
Proof. destruct v; simpl; intros H; try reflexivity. contradiction. Qed.

Lemma firstPromptArray_flat (props : list (string * Value)) :
  flat props = true ->
  forall ks, firstPromptArray props ks = Ok None.
Proof.
  intros H ks. induction ks as [|k ks IH]; simpl; [reflexivity|].
  rewrite (promptArray_not_array _ (flat_at props k H)). simpl. exact IH.
Qed.

(** *** Arrays *)

Lemma image_ofElement_total (index : nat) (item : Value) :
  mappable item = true ->
  exists w, ImageGen.ofElement index item = Ok w.
Proof.
  unfold mappable, printable. intros H.
  apply andb_true_iff in H. destruct H as [Hn Hp].
  apply negb_true_iff in Hn.
  unfold ImageGen.ofElement. rewrite !(get_field _ _ Hn). simpl.
  destruct (truthy (field item "prompt")); simpl; [eexists; reflexivity|].
  simpl in Hp. destruct (callToString item); [|discriminate].
  simpl. eexists; reflexivity.
Qed.

Lemma video_ofElement_total (index : nat) (item : Value) :
  mappable item = true ->
  exists w, VideoGen.ofElement index item = Ok w.
Proof.
  unfold mappable, printable. intros H.
  apply andb_true_iff in H. destruct H as [Hn Hp].
  apply negb_true_iff in Hn.
  unfold VideoGen.ofElement. rewrite !(get_field _ _ Hn). simpl.
  destruct (truthy (field item "prompt")); simpl; [eexists; reflexivity|].
  simpl in Hp. destruct (callToString item); [|discriminate].
  simpl. eexists; reflexivity.
Qed.

Lemma mapiM_succeeds {A B : Type} (f : nat -> A -> Result B) (l : list A) :
  forall i : nat,
    Forall (fun a => forall j, exists b, f j a = Ok b) l ->
    exists out, mapiM f i l = Ok out /\ List.length out = List.length l.
Proof.
  induction l as [|a l IH]; intros i H; simpl.
  - exists []. split; reflexivity.
  - inversion H; subst. destruct (H2 i) as [b Hb]. rewrite Hb. simpl.
    destruct (IH (S i) H3) as [bs [Hbs Hlen]]. rewrite Hbs. simpl.
    exists (b :: bs). split; [reflexivity | simpl; congruence].
Qed.

(** *** The [images] case of the video normalizer *)

Lemma usable_entry (img : Value) :
  nullish img = false -> VideoGen.usable img = Ok (usableEntry img).
Proof.
  intros H. unfold VideoGen.usable, usableEntry.
  rewrite !(get_field _ _ H). simpl.
  destruct (truthy (field img "success")); reflexivity.
Qed.

Lemma ofImage_entry (index : nat) (img : Value) :
  nullish img = false -> VideoGen.ofImage index img = Ok (ofImageEntry index img).
Proof.
  intros H. unfold VideoGen.ofImage, ofImageEntry.
  rewrite !(get_field _ _ H). reflexivity.
Qed.

End NormalizerFacts.

(** * Effects, and the loop of the image executor *)

Ltac io_unfold :=
  unfold IO.bind, IO.tryCatch, IO.lift, IO.ret, IO.throw, IO.emit, IO.now,
    IO.elapse, IO.nextCall, IO.sleep, IO.failing in *.

Module IOFacts.

Lemma run_eta {A : Type} (x : Result A * World * list Event) :
  x = (IO.result x, IO.world x, IO.events x).
Proof. destruct x as [[r w] es]. reflexivity. Qed.

Lemma bind_Ok {A B : Type} (m : IO A) (k : A -> IO B) (w w1 : World)
      (a : A) (es1 : list Event) :
  m w = (Ok a, w1, es1) ->
  IO.bind m k w
  = (IO.result (k a w1), IO.world (k a w1), (es1 ++ IO.events (k a w1))%list).
Proof.
  intros H. unfold IO.bind. rewrite H.
  destruct (k a w1) as [[r w2] es2]. reflexivity.
Qed.

Lemma bind_Throw {A B : Type} (m : IO A) (k : A -> IO B) (w w1 : World)
      (x : string) (es1 : list Event) :
  m w = (Throw x, w1, es1) -> IO.bind m k w = (Throw x, w1, es1).
Proof. intros H. unfold IO.bind. rewrite H. reflexivity. Qed.

Section Rules.
Context {A B : Type}.

Lemma sat_ret (a : A) (Q : A -> Prop) (E : string -> Prop) :
  Q a -> IO.satisfies (IO.ret a) Q E.
Proof. intros H w. exact H. Qed.

Lemma sat_throw (x : string) (Q : A -> Prop) (E : string -> Prop) :
  E x -> IO.satisfies (IO.throw x) Q E.
Proof. intros H w. exact H. Qed.

Lemma sat_lift (r : Result A) (Q : A -> Prop) (E : string -> Prop) :
  match r with Ok a => Q a | Throw x => E x end ->
  IO.satisfies (IO.lift r) Q E.
Proof. intros H w. exact H. Qed.

Lemma sat_bind (m : IO A) (k : A -> IO B) (P : A -> Prop) (Q : B -> Prop)
      (E : string -> Prop) :
  IO.satisfies m P E ->
  (forall a, P a -> IO.satisfies (k a) Q E) ->
  IO.satisfies (IO.bind m k) Q E.
Proof.
  intros Hm Hk w. specialize (Hm w). unfold IO.bind.
  destruct (m w) as [[[a|x] w1] es1]; simpl in Hm.
  - specialize (Hk a Hm w1). destruct (k a w1) as [[r w2] es2]. exact Hk.
  - exact Hm.
Qed.

Lemma sat_weaken (m : IO A) (Q Q' : A -> Prop) (E E' : string -> Prop) :
  IO.satisfies m Q E ->
  (forall a, Q a -> Q' a) -> (forall x, E x -> E' x) ->
  IO.satisfies m Q' E'.
Proof.
  intros H HQ HE w. specialize (H w).
  destruct (IO.result (m w)); auto.
Qed.

Lemma sat_tryCatch (body : IO A) (handler : string -> IO A)
      (Q : A -> Prop) (E' E : string -> Prop) :
  IO.satisfies body Q E' ->
  (forall x, E' x -> IO.satisfies (handler x) Q E) ->
  IO.satisfies (IO.tryCatch body handler) Q E.
Proof.
  intros Hb Hh w. specialize (Hb w). unfold IO.tryCatch.
  destruct (body w) as [[[a|x] w1] es1]; simpl in Hb.
  - exact Hb.
  - specialize (Hh x Hb w1). destruct (handler x w1) as [[r w2] es2].
    exact Hh.
Qed.
End Rules.

Lemma sat_emit (e : Event) (E : string -> Prop) :
  IO.satisfies (IO.emit e) (fun _ => True) E.
Proof. intros w. exact I. Qed.

Lemma sat_now (E : string -> Prop) : IO.satisfies IO.now (fun _ => True) E.
Proof. intros w. exact I. Qed.

Lemma sat_elapse (ms : Z) (E : string -> Prop) :
  IO.satisfies (IO.elapse ms) (fun _ => True) E.
Proof. intros w. exact I. Qed.

Lemma sat_nextCall (E : string -> Prop) :
  IO.satisfies IO.nextCall (fun _ => True) E.
Proof. intros w. exact I. Qed.

Lemma sat_sleep (ms : Z) (E : string -> Prop) :
  IO.satisfies (IO.sleep ms) (fun _ => True) E.
Proof. intros w. exact I. Qed.

Lemma sat_failing (error : option string) (E : string -> Prop) :
  (forall x, error = Some x -> E x) ->
  IO.satisfies (IO.failing error) (fun _ => True) E.
Proof. intros H w. destruct error as [x|]; simpl; auto. Qed.

(** A step whose value is not used. *)
Lemma sat_then {A B : Type} (m : IO A) (k : IO B) (Q : B -> Prop)
      (E : string -> Prop) :
  IO.satisfies m (fun _ => True) E ->
  IO.satisfies k Q E ->
  IO.satisfies (IO.bind m (fun _ => k)) Q E.
Proof. intros Hm Hk. eapply sat_bind; [exact Hm | intros _ _; exact Hk]. Qed.

(** A computation that cannot throw returns. *)
Lemma sat_returns {A : Type} (m : IO A) (Q : A -> Prop) (E : string -> Prop)
      (w : World) :
  IO.satisfies m Q E -> (forall x, ~ E x) ->
  exists a, IO.result (m w) = Ok a /\ Q a.
Proof.
  intros H HE. specialize (H w).
  destruct (IO.result (m w)) as [a|x]; [eauto|].
  exfalso. exact (HE x H).
Qed.

(** A warning between two steps changes neither the result nor the
    world: it is one more event, after those of the first step. *)
Lemma warn_then {A B : Type} (m : IO A) (b : bool) (e : Event)
      (k : A -> IO B) (w : World) :
  let loud :=
    IO.bind m (fun a =>
      IO.bind (if b then IO.emit e else IO.ret tt) (fun _ => k a)) w in
  let quiet := IO.bind m (fun a => IO.bind (IO.ret tt) (fun _ => k a)) w in
  IO.result loud = IO.result quiet
  /\ IO.world loud = IO.world quiet
  /\ (forall a w1 es1,
         m w = (Ok a, w1, es1) ->
         IO.events loud
         = (es1 ++ (if b then [e] else []) ++ IO.events (k a w1))%list
         /\ IO.events quiet = (es1 ++ IO.events (k a w1))%list).
Proof.
  unfold IO.bind, IO.emit, IO.ret.
  destruct (m w) as [[[a|x] w1] es1].
  - destruct b; cbn; destruct (k a w1) as [[r w2] es2] eqn:Hk; cbn;
      (split; [reflexivity|]); (split; [reflexivity|]);
      intros a' w1' es1' H; inversion H; subst; rewrite Hk; cbn;
      split; reflexivity.
  - cbn. split; [reflexivity|]. split; [reflexivity|].
    intros a w1' es1' H. discriminate.
Qed.

End IOFacts.

(** Equality of two finished runs, component by component. *)
Ltac run_eq :=
  match goal with
  | |- (Ok ?a, ?w1, ?e1) = (Ok ?b, ?w2, ?e2) =>
      let Ha := fresh "Ha" in
      let Hw := fresh "Hw" in
      assert (Ha : a = b);
      [ f_equal; first [lia | rewrite <- ?app_assoc; reflexivity]
      | assert (Hw : w1 = w2);
        [ f_equal; first [lia | reflexivity]
        | rewrite Ha, Hw; reflexivity ] ]
  end.

Module ImageFacts.
Import Js Normalizer ImageGen ExecutorRule.

Local Arguments truncatePrompt : simpl never.
Local Arguments fileNameOf : simpl never.
Local Arguments seconds : simpl never.
Local Arguments Str.includes : simpl never.
Local Arguments Fixed.toFixed : simpl never.
Local Arguments failedImage : simpl never.
Local Arguments generatedImage : simpl never.
Local Arguments requestOf : simpl never.
Local Arguments String.append : simpl never.
Local Arguments Nat.ltb : simpl never.

Section Run.
Variable env : Env.
Variables (modelId : string) (steps : Z) (cost : Q) (publicDir : string).

Lemma toStr_or_position (v : Value) (s : string) (i : nat) :
  toStr v = Ok s -> exists s', toStr (or v (position i)) = Ok s'.
Proof.
  intros H. unfold or. destruct (truthy v); [exists s; exact H|].
  eexists. reflexivity.
Qed.

(** One iteration of the loop, on an item whose shot number prints
    and whose prompt is a string: either the catch block runs, or the
    image is saved. *)
Lemma generateOne_cases (total i : nat) (item : WorkItem) (tally : Tally)
      (w : World) (s p : string) :
  toStr (shotNumber item) = Ok s ->
  asPromptText "prompt" (prompt item) = Ok p ->
  (exists m t,
      generateOne env modelId steps cost publicDir total i item tally w
      = (Ok {| results := results tally ++ [failedImage item p modelId m];
               successCount := successCount tally;
               failCount := S (failCount tally) |},
         {| clock := t; calls := S (calls w) |},
         RanModel modelId (requestOf steps item p)
         :: (if Str.includes "rate limit" m then [Slept 10000] else []))
      /\ (forall m', runOutcome env (calls w) = Rejects m' -> m' = m)
      /\ (speaks env -> m <> EmptyString))
  \/ (exists url path dur t,
         generateOne env modelId steps cost publicDir total i item tally w
         = (Ok {| results :=
                    results tally
                    ++ [generatedImage item p modelId cost url path dur];
                  successCount := S (successCount tally);
                  failCount := failCount tally |},
            {| clock := t; calls := S (calls w) |},
            RanModel modelId (requestOf steps item p)
            :: WroteFile path
            :: (if (S i <? total)%nat then [Slept 1000] else []))
         /\ url <> EmptyString /\ path <> EmptyString
         /\ providerFailure env (calls w) = None).
Proof.
  intros Hs Hp.
  destruct (toStr_or_position _ s i Hs) as [s' Hs'].
  unfold generateOne, providerFailure. io_unfold. rewrite Hs, Hp. simpl.
  destruct (runOutcome env (calls w)) as [m|out|[m|]] eqn:Hout; simpl.
  - left. exists m. destruct (Str.includes "rate limit" m); io_unfold; simpl;
      eexists; (split; [reflexivity|]); split.
    + intros m' H. congruence.
    + intros [H _]. exact (H _ _ Hout).
    + intros m' H. congruence.
    + intros [H _]. exact (H _ _ Hout).
  - left. exists unexpectedOutput.
    assert (Hno : Str.includes "rate limit" unexpectedOutput = false)
      by reflexivity.
    rewrite ?Hno. io_unfold; simpl.
    eexists; (split; [reflexivity|]); split;
      try (intros m' H; discriminate); intros _; discriminate.
  - left. exists m. destruct (Str.includes "rate limit" m); io_unfold; simpl;
      eexists; (split; [reflexivity|]); split;
      try (intros m' H; discriminate);
      intros [_ [H _]]; exact (H _ _ Hout).
  - rewrite Hs'. simpl.
    destruct (writeError env _) as [m|] eqn:Hw; io_unfold; simpl.
    + left. exists m.
      destruct (Str.includes "rate limit" m); io_unfold; simpl;
        eexists; (split; [reflexivity|]); split;
        try (intros m' H; discriminate);
        intros [_ [_ [_ [H _]]]]; exact (H _ _ Hw).
    + right.
      destruct (S i <? total)%nat; io_unfold; simpl;
        do 4 eexists; (split; [reflexivity|]);
        (split; [|split]); try reflexivity;
        unfold String.append; try discriminate.
      all: destruct publicDir; discriminate.
Qed.

Lemma ready_inv (item : WorkItem) :
  ready item = true ->
  exists s p, toStr (shotNumber item) = Ok s /\ prompt item = Str p.
Proof.
  unfold ready, printsShot. intros H. apply andb_true_iff in H.
  destruct H as [H1 H2].
  destruct (toStr (shotNumber item)) as [s|]; [|discriminate].
  destruct (prompt item); try discriminate. eauto.
Qed.

(** The loop, on items that are ready. *)
Lemma generateFrom_run (items : list WorkItem) :
  forall (total i : nat) (tally : Tally) (w : World),
    forallb ready items = true ->
    exists rs t es,
      generateFrom env modelId steps cost publicDir total i items tally w
      = (Ok {| results := results tally ++ rs;
               successCount :=
                 successCount tally + List.length (filter irSuccess rs);
               failCount :=
                 failCount tally
                 + List.length (filter (fun r => negb (irSuccess r)) rs) |},
         {| clock := t; calls := calls w + List.length items |}, es)
      /\ Forall2 (imageRecordOf env modelId cost) items rs
      /\ coolsDown (Str.includes "rate limit") 10000 (providerFailure env)
                   (calls w) es = true
      /\ providerCalls es = List.length items
      /\ (forall j r m,
             nth_error rs j = Some r ->
             providerFailure env (calls w + j) = Some m ->
             irSuccess r = false /\ irError r = Some m).
Proof.
  induction items as [|item rest IH]; intros total i tally w Hready.
  - exists [], (clock w), []. simpl. rewrite !app_nil_r, !Nat.add_0_r.
    destruct tally, w; simpl.
    split; [reflexivity|]. split; [constructor|].
    split; [reflexivity|]. split; [reflexivity|].
    intros j r m H. destruct j; discriminate.
  - simpl in Hready. apply andb_true_iff in Hready.
    destruct Hready as [Hitem Hrest].
    destruct (ready_inv item Hitem) as [s [p [Hs Hp]]].
    assert (Hp' : asPromptText "prompt" (prompt item) = Ok p)
      by (rewrite Hp; reflexivity).
    cbn [generateFrom]. unfold IO.bind at 1.
    destruct (generateOne_cases total i item tally w s p Hs Hp')
      as [[m [t [Hrun [Hrej Hspeak]]]] | [url [path [dur [t [Hrun [Hu [Hpath Hnone]]]]]]]];
      rewrite Hrun;
      match goal with
      | |- context [generateFrom _ _ _ _ _ _ _ rest ?tl ?wl] =>
          destruct (IH total (S i) tl wl Hrest)
            as [rs [t' [es [Hloop [Hrecs [Hcool [Hcalls Hfail]]]]]]]
      end; rewrite Hloop; cbn [results successCount failCount calls clock];
      cbn [calls clock] in Hcool, Hcalls, Hfail.
    + exists (failedImage item p modelId m :: rs), t'. eexists.
      split; [|split; [|split; [|split]]].
      * cbn [filter].
        change (irSuccess (failedImage item p modelId m)) with false.
        cbn [negb List.length]. run_eq.
      * constructor; [|exact Hrecs]. exists p. split; [exact Hp|].
        left. exists m. split; [reflexivity | exact Hspeak].
      * assert (Hm : forall m', providerFailure env (calls w) = Some m' ->
                                m' = m).
        { intros m' Hf. unfold providerFailure in Hf.
          destruct (runOutcome env (calls w)) eqn:Ho; try discriminate.
          inversion Hf; subst. apply Hrej. reflexivity. }
        destruct (Str.includes "rate limit" m) eqn:Hinc;
          cbn [app coolsDown isProviderCall pausesFirst];
          rewrite Hcool, andb_true_r;
          destruct (providerFailure env (calls w)) as [m'|];
          try reflexivity; rewrite (Hm m' eq_refl), Hinc; reflexivity.
      * unfold providerCalls in *.
        destruct (Str.includes "rate limit" m);
          cbn [app filter isProviderCall List.length]; rewrite Hcalls;
          reflexivity.
      * intros j r m0 Hj Hm0. destruct j as [|j]; cbn [nth_error] in Hj.
        -- inversion Hj; subst r. rewrite Nat.add_0_r in Hm0.
           unfold providerFailure in Hm0.
           destruct (runOutcome env (calls w)) eqn:Ho; try discriminate.
           inversion Hm0; subst. rewrite (Hrej _ eq_refl). split; reflexivity.
        -- apply (Hfail j r m0 Hj).
           replace (S (calls w) + j) with (calls w + S j) by lia. exact Hm0.
    + exists (generatedImage item p modelId cost url path dur :: rs), t'.
      eexists.
      split; [|split; [|split; [|split]]].
      * cbn [filter].
        change (irSuccess (generatedImage item p modelId cost url path dur))
          with true.
        cbn [negb List.length]. run_eq.
      * constructor; [|exact Hrecs]. exists p. split; [exact Hp|].
        right. exists url, path, dur. auto.
      * cbn [app coolsDown isProviderCall]. rewrite Hnone.
        destruct (S i <? total)%nat; cbn [app coolsDown isProviderCall andb];
          exact Hcool.
      * unfold providerCalls in *.
        destruct (S i <? total)%nat;
          cbn [app filter isProviderCall List.length]; rewrite Hcalls;
          reflexivity.
      * intros j r m0 Hj Hm0. destruct j as [|j]; cbn [nth_error] in Hj.
        -- rewrite Nat.add_0_r in Hm0. congruence.
        -- apply (Hfail j r m0 Hj).
           replace (S (calls w) + j) with (calls w + S j) by lia. exact Hm0.
Qed.
End Run.
End ImageFacts.

(** * Values, and the clip generators *)

Module JsFacts.
Import Js.

(** Induction on values, through the elements of arrays. *)
Lemma Value_induction (P : Value -> Prop) :
  P Undefined -> P Null -> (forall b, P (Bool b)) -> (forall n, P (Num n)) ->
  (forall s, P (Str s)) ->
  (forall items, Forall P items -> P (Arr items)) ->
  (forall props, P (Obj props)) ->
  forall v, P v.
Proof.
  intros HU HN HB HZ HS HA HO.
  fix IH 1. intros v.
  destruct v as [| |b|n|s|items|props];
    [exact HU | exact HN | apply HB | apply HZ | apply HS | | apply HO].
  apply HA. induction items as [|x items IHitems]; constructor.
  - apply IH.
  - exact IHitems.
Qed.

Lemma mapM_Throw {A B : Type} (f : A -> Result B) (l : list A) (x : string) :
  mapM f l = Throw x -> exists a, In a l /\ f a = Throw x.
Proof.
  induction l as [|a l IH]; simpl; intros H; [discriminate|].
  destruct (f a) as [b|y] eqn:Ea; simpl in H.
  - destruct (mapM f l) as [bs|z]; simpl in H; [discriminate|].
    inversion H; subst z. destruct (IH eq_refl) as [a' [Hin Ha']].
    exists a'. split; [right; exact Hin | exact Ha'].
  - inversion H; subst y. exists a. split; [left; reflexivity | exact Ea].
Qed.

Lemma toStr_message (v : Value) :
  forall x, toStr v = Throw x -> x = cannotConvert.
Proof.
  induction v as [| |b|n|s|items IH|props] using Value_induction;
    intros x H; simpl in H; try discriminate.
  - destruct b; discriminate.
  - match type of H with
    | bind ?e _ = _ => destruct e as [parts|y] eqn:E
    end; simpl in H; [discriminate|].
    inversion H; subst y. clear H.
    apply mapM_Throw in E. destruct E as [a [Hin Ha]].
    rewrite Forall_forall in IH. apply (IH a Hin).
    destruct a; try discriminate; exact Ha.
  - destruct (hasKey "toString" props); [|discriminate].
    inversion H. reflexivity.
Qed.

Lemma toStr_speaks (v : Value) :
  match toStr v with
  | Ok _ => True
  | Throw x => x <> EmptyString
  end.
Proof.
  destruct (toStr v) as [s|x] eqn:E; [exact I|].
  rewrite (toStr_message v x E). discriminate.
Qed.

End JsFacts.

Module VideoFacts.
Import Js Normalizer VideoGen ExecutorRule IOFacts JsFacts.

Local Arguments String.append : simpl never.

Lemma asPromptText_inv (what : string) (v : Value) :
  match ImageGen.asPromptText what v with
  | Ok p => v = Str p
  | Throw x => x <> EmptyString
  end.
Proof.
  destruct v; simpl; try reflexivity; try discriminate.
  unfold notAFunction. destruct what; discriminate.
  all: unfold notAFunction; destruct what; discriminate.
Qed.

Section Run.
Variable env : Env.

Local Abbreviation telling := (ExecutorRule.telling env).

Lemma telling_const (x : string) : x <> EmptyString -> telling x.
Proof. intros H _. exact H. Qed.

Lemma readSource_sat (src : Value) :
  IO.satisfies (readSource env src) (fun _ => True) telling.
Proof.
  destruct src; simpl; try (apply sat_throw, telling_const; discriminate).
  eapply sat_then; [|apply sat_ret; exact I].
  apply sat_failing. intros x Hx [_ [_ [H _]]]. exact (H _ _ Hx).
Qed.

Lemma downloadFile_sat (outputUrl : Value) (localPath : string) :
  IO.satisfies (downloadFile env outputUrl localPath) (fun _ => True) telling.
Proof.
  destruct outputUrl; simpl;
    try (apply sat_throw, telling_const; discriminate).
  eapply sat_then; [|apply sat_emit].
  apply sat_failing. intros x Hx [_ [_ [_ [_ [H _]]]]]. exact (H _ _ Hx).
Qed.

Lemma toStr_sat (v : Value) :
  IO.satisfies (IO.lift (toStr v)) (fun _ => True) telling.
Proof.
  apply sat_lift. pose proof (toStr_speaks v) as H.
  destruct (toStr v); [exact I | apply telling_const; exact H].
Qed.

Lemma saveClip_sat (promptText : string) (options : ClipOptions)
      (model : string) (duration : Z) (costPerSecond : Q)
      (outputDir : string) (startTime : Z) (outputUrl : Value) :
  IO.satisfies
    (saveClip env promptText options model duration costPerSecond
              outputDir startTime outputUrl)
    (fun clip =>
       exists url path time,
         clip = savedClip (optShotNumber options) (optSourceImage options)
                          promptText model duration costPerSecond
                          url path time
         /\ url <> EmptyString /\ path <> EmptyString)
    telling.
Proof.
  unfold saveClip.
  eapply sat_then; [apply toStr_sat|].
  eapply sat_bind; [apply sat_now|]. intros timestamp _.
  eapply sat_bind; [apply toStr_sat|]. intros shot _.
  eapply sat_then; [apply downloadFile_sat|].
  eapply sat_bind; [apply sat_now|]. intros finished _.
  apply sat_ret. do 3 eexists. split; [reflexivity|].
  split; [discriminate|]. destruct outputDir; discriminate.
Qed.

Lemma outputUrlOf_sat (output : Value) :
  IO.satisfies (IO.lift (outputUrlOf output)) (fun _ => True) telling.
Proof.
  apply sat_lift. destruct output as [| | | | |[|first rest]|props]; simpl;
    try exact I; try (apply telling_const; discriminate).
  destruct (hasKey "url" props); [exact I|].
  apply telling_const; discriminate.
Qed.

(** What [generateSingleClip] returns, through Replicate: the record
    of a downloaded clip or a failed record; it throws only before its
    [try] block, on a shot number or ratio that does not print or a
    prompt that is not a string. *)
Lemma generateSingleClip_sat (promptV : Value) (options : ClipOptions)
      (outputDir : string) :
  IO.satisfies
    (generateSingleClip env promptV options outputDir)
    (clipRecordOf env (orText (Some (optModel options)) "minimax")
                  (orNumber (Some (optDuration options)) 5)
                  (costPerSecondOf (orText (Some (optModel options)) "minimax"))
                  (optShotNumber options) promptV (optSourceImage options))
    (fun x => x <> EmptyString).
Proof.
  unfold generateSingleClip.
  eapply sat_bind; [apply sat_now|]. intros startTime _.
  eapply sat_bind with (P := fun _ => True).
  { apply sat_lift. pose proof (toStr_speaks (optShotNumber options)) as H.
    destruct (toStr _); [exact I | exact H]. }
  intros _ _.
  eapply sat_bind with (P := fun _ => True).
  { apply sat_lift.
    pose proof (toStr_speaks (or (optRatio options) (Str "16:9"))) as H.
    destruct (toStr _); [exact I | exact H]. }
  intros _ _.
  eapply sat_bind with (P := fun p => promptV = Str p).
  { apply sat_lift. apply asPromptText_inv. }
  intros promptText Hp.
  eapply sat_tryCatch with (E' := telling).
  - eapply sat_weaken with (E := telling).
    + eapply sat_bind with (P := fun _ => True).
      { destruct (useImage env _ _); [|apply sat_ret; exact I].
        eapply sat_bind; [apply readSource_sat|].
        intros path _. apply sat_ret. exact I. }
      intros image _.
      eapply sat_bind; [apply sat_nextCall|]. intros k _.
      eapply sat_then.
      { destruct (String.eqb _ "gen3a_turbo"); apply sat_emit. }
      eapply sat_then; [apply sat_elapse|].
      eapply sat_bind with (P := fun _ => True).
      { destruct (runOutcome env k) as [m|output|failure] eqn:Ho.
        - apply sat_throw. intros [H _]. exact (H _ _ Ho).
        - apply outputUrlOf_sat.
        - apply sat_ret. exact I. }
      intros outputUrl _. apply saveClip_sat.
    + intros clip [url [path [time [Hc [Hu Hpath]]]]].
      right. exists promptText, url, path, time. auto.
    + auto.
  - intros x Hx. apply sat_ret. left. exists x. subst promptV. auto.
Qed.

(** *** The clip generator on the Runway SDK *)

Lemma createTask_sat (model promptText : string) (image : option string) :
  IO.satisfies (Runway.createTask env model promptText image)
               (fun _ => True) telling.
Proof.
  unfold Runway.createTask.
  eapply sat_bind; [apply sat_nextCall|]. intros k _.
  eapply sat_then; [apply sat_emit|].
  eapply sat_then; [apply sat_elapse|].
  apply sat_failing. intros x Hx [_ [_ [_ [_ [_ [H _]]]]]]. exact (H _ _ Hx).
Qed.

Lemma retrieve_sat :
  IO.satisfies (Runway.retrieve env) (fun _ => True) telling.
Proof.
  unfold Runway.retrieve.
  eapply sat_bind; [apply sat_nextCall|]. intros k _.
  eapply sat_then; [apply sat_emit|].
  eapply sat_then; [apply sat_elapse|].
  apply sat_lift. destruct (retrieveOutcome env k) as [st|x] eqn:Hr;
    [exact I|].
  intros [_ [_ [_ [_ [_ [_ H]]]]]]. exact (H _ _ Hr).
Qed.

Lemma poll_sat (remaining : nat) :
  forall task,
    IO.satisfies (Runway.poll env remaining task) (fun _ => True) telling.
Proof.
  induction remaining as [|n IH]; intros task.
  - destruct task; apply sat_ret; exact I.
  - destruct task; try (apply sat_ret; exact I). cbn [Runway.poll].
    eapply sat_then; [apply sat_sleep|].
    eapply sat_bind; [apply retrieve_sat|]. intros task' _. apply IH.
Qed.

Lemma runway_generateSingleClip_sat (promptV : Value)
      (options : ClipOptions) (outputDir : string) :
  IO.satisfies
    (Runway.generateSingleClip env promptV options outputDir)
    (clipRecordOf env (orText (Some (optModel options)) "gen3a_turbo")
                  (orNumber (Some (optDuration options)) 5)
                  (Double.literal (5 # 100))
                  (optShotNumber options) promptV (optSourceImage options))
    (fun x => x <> EmptyString).
Proof.
  unfold Runway.generateSingleClip.
  eapply sat_bind; [apply sat_now|]. intros startTime _.
  eapply sat_bind with (P := fun _ => True).
  { apply sat_lift. pose proof (toStr_speaks (optShotNumber options)) as H.
    destruct (toStr _); [exact I | exact H]. }
  intros _ _.
  eapply sat_bind with (P := fun _ => True).
  { apply sat_lift.
    pose proof (toStr_speaks (or (optRatio options) (Str "16:9"))) as H.
    destruct (toStr _); [exact I | exact H]. }
  intros _ _.
  eapply sat_bind with (P := fun p => promptV = Str p).
  { apply sat_lift. apply asPromptText_inv. }
  intros promptText Hp.
  eapply sat_tryCatch with (E' := telling).
  - eapply sat_weaken with (E := telling).
    + eapply sat_then.
      { destruct (useImage env _ _); [|apply createTask_sat].
        eapply sat_bind; [apply readSource_sat|].
        intros path _. apply createTask_sat. }
      eapply sat_bind; [apply retrieve_sat|]. intros first _.
      eapply sat_bind; [apply poll_sat|]. intros task _.
      destruct task as [|output|failure].
      * apply sat_throw, telling_const. discriminate.
      * destruct (truthy (Runway.outputUrlOf output));
          [apply saveClip_sat | apply sat_throw, telling_const; discriminate].
      * eapply sat_bind; [apply toStr_sat|]. intros reason _.
        apply sat_throw, telling_const. discriminate.
    + intros clip [url [path [time [Hc [Hu Hpath]]]]].
      right. exists promptText, url, path, time. auto.
    + auto.
  - intros x Hx. apply sat_ret. left. exists x. subst promptV. auto.
Qed.

(** *** The loop *)

Section Batch.
Variable clipOf : Value -> ClipOptions -> string -> IO VideoClipResult.
Variables (fallback : string) (costOf : string -> Q).
Variables (model : string) (duration : Z) (ratio inputMode outputDir : string).

Hypothesis clipOf_sat :
  forall promptV options dir,
    IO.satisfies
      (clipOf promptV options dir)
      (clipRecordOf env (orText (Some (optModel options)) fallback)
                    (orNumber (Some (optDuration options)) 5)
                    (costOf (orText (Some (optModel options)) fallback))
                    (optShotNumber options) promptV (optSourceImage options))
      (fun x => x <> EmptyString).
Hypothesis model_set : Str.isEmpty model = false.
Hypothesis duration_set : (duration =? 0)%Z = false.

Lemma video_generateOne_sat (total i : nat) (item : WorkItem) (tally : Tally) :
  IO.satisfies
    (generateOne clipOf model duration ratio inputMode outputDir
                 total i item tally)
    (fun tally' =>
       exists clip,
         clipRecordOf env model duration (costOf model) (shotNumber item)
                      (prompt item) (sourceImage item) clip
         /\ results tally' = (results tally ++ [clip])%list
         /\ successCount tally'
            = successCount tally + (if clipSuccess clip then 1 else 0)
         /\ failCount tally'
            = failCount tally + (if clipSuccess clip then 0 else 1))
    (fun _ => printsShot item = false).
Proof.
  unfold generateOne.
  eapply sat_bind with (P := fun _ => True).
  { apply sat_lift. unfold printsShot.
    destruct (toStr (shotNumber item)); [exact I | reflexivity]. }
  intros _ _.
  eapply sat_tryCatch with (E' := fun x => x <> EmptyString).
  - eapply sat_bind; [apply clipOf_sat|]. intros clip Hclip.
    cbn [optModel optDuration optShotNumber optSourceImage] in Hclip.
    assert (Hm : orText (Some model) fallback = model)
      by (unfold orText; rewrite model_set; reflexivity).
    assert (Hd : orNumber (Some duration) 5 = duration)
      by (unfold orNumber; rewrite duration_set; reflexivity).
    rewrite Hm, Hd in Hclip.
    eapply sat_then with (E := fun x => x <> EmptyString).
    { destruct (S i <? total)%nat; [apply sat_sleep | apply sat_ret; exact I]. }
    apply sat_ret. exists clip. split; [exact Hclip|].
    cbn [results successCount failCount].
    destruct (clipSuccess clip); repeat split; lia.
  - intros x Hx.
    eapply sat_then.
    { destruct (_ || _)%bool; [apply sat_sleep | apply sat_ret; exact I]. }
    apply sat_ret. eexists. split.
    + left. exists x. split; [reflexivity | intros _; exact Hx].
    + cbn [results successCount failCount failedClip clipSuccess].
      repeat split; lia.
Qed.

Lemma video_generateFrom_sat (items : list WorkItem) :
  forall (total i : nat) (tally : Tally),
    IO.satisfies
      (generateFrom clipOf model duration ratio inputMode outputDir
                    total i items tally)
      (fun tally' =>
         exists rs,
           Forall2 (fun item clip =>
                      clipRecordOf env model duration (costOf model)
                                   (shotNumber item) (prompt item)
                                   (sourceImage item) clip) items rs
           /\ results tally' = (results tally ++ rs)%list
           /\ successCount tally'
              = successCount tally + List.length (filter clipSuccess rs)
           /\ failCount tally'
              = failCount tally
                + List.length (filter (fun c => negb (clipSuccess c)) rs))
      (fun _ => forallb printsShot items = false).
Proof.
  induction items as [|item rest IH]; intros total i tally.
  - apply sat_ret. exists []. rewrite app_nil_r. simpl.
    repeat split; try constructor; lia.
  - cbn [generateFrom forallb].
    eapply sat_bind.
    + eapply sat_weaken; [apply video_generateOne_sat | intros a H; exact H |].
      intros x H. cbv beta in H. rewrite H. reflexivity.
    + intros tally' [clip [Hclip [Hres [Hs Hf]]]].
      eapply sat_weaken; [apply IH | |].
      * intros tally'' [rs [Hrs [Hres' [Hs' Hf']]]].
        exists (clip :: rs). split; [constructor; assumption|].
        rewrite Hres', Hres, <- app_assoc. split; [reflexivity|].
        cbn [filter]. destruct (clipSuccess clip); cbn [negb List.length];
          split; lia.
      * intros x H. cbv beta in H. rewrite H. apply andb_false_r.
Qed.
End Batch.
End Run.
End VideoFacts.

(** * The assembler *)

Module AssemblerFacts.
Import Js VideoGen ExecutorRule.

Local Arguments String.append : simpl never.
Local Arguments concatListPathOf : simpl never.
Local Arguments outputFilenameOf : simpl never.
Local Arguments concatContentOf : simpl never.
Local Arguments totalDurationOf : simpl never.

Lemma fold_left_duration (cs : list VideoClipResult) :
  forall acc : Z,
    fold_left (fun sum clip => (sum + clipDuration clip)%Z) cs acc
    = (acc + durationSum cs)%Z.
Proof.
  induction cs as [|c cs IH]; intros acc; simpl; [lia|].
  rewrite IH. lia.
Qed.

Lemma totalDurationOf_sum (cs : list VideoClipResult) :
  totalDurationOf cs = durationSum cs.
Proof. unfold totalDurationOf. rewrite fold_left_duration. lia. Qed.

Lemma stitchable_counted (clips : list VideoClipResult) :
  filter stitchable clips <> [] ->
  Nat.ltb 0 (List.length (filter clipSuccess clips)) = true.
Proof.
  induction clips as [|c clips IH]; simpl; intros H; [contradiction|].
  unfold stitchable in H at 1.
  destruct (clipSuccess c); simpl in *; [reflexivity|].
  apply IH. exact H.
Qed.

Section Run.
Variable env : Env.

(** The stitching step of the video executor, on the clips of a batch
    and the count of successes the loop has kept, by the number of
    stitchable clips (successes with a local path). *)
Lemma assemble_cases (clips : list VideoClipResult) (n : nat)
        (outputDir : string) (w : World) :
  n = List.length (filter clipSuccess clips) ->
  let good := filter stitchable clips in
  let run := assemble env clips n outputDir w in
  let manifest := concatListPathOf outputDir (clock w) in
  let output := outputDir ++ "/" ++ outputFilenameOf (clock w) in
  (good = [] -> run = (Ok (None, skipped), w, []))
  /\ (forall only, good = [only] ->
        run = (Ok (Some {| fvUrl := clipUrl only;
                           fvLocalPath := clipLocalPath only;
                           fvDuration := clipDuration only;
                           fvFormat := "mp4" |}, success), w, []))
  /\ (2 <= List.length good ->
      (writeError env manifest = None -> ffmpegError env = None ->
       run = (Ok (Some {| fvUrl := "/generated-videos/"
                                   ++ outputFilenameOf (clock w);
                          fvLocalPath := output;
                          fvDuration := durationSum good;
                          fvFormat := "mp4" |}, success), w,
              [WroteManifest manifest (concatContentOf good);
               RanFfmpeg manifest output;
               Removed manifest]))
      /\ (writeError env manifest <> None \/ ffmpegError env <> None ->
          IO.result run = Ok (None, failed))).
Proof.
  intros Hn good run manifest output.
  subst run. unfold assemble, stitchClipsWithFFmpeg. fold good.
  split; [|split].
  - intros Hgood. rewrite Hgood.
    destruct (Nat.ltb 0 n); reflexivity.
  - intros only Hgood.
    assert (Hpos : Nat.ltb 0 n = true).
    { subst n. apply stitchable_counted. fold good. rewrite Hgood.
      discriminate. }
    rewrite Hpos, Hgood. reflexivity.
  - intros Hlen.
    assert (Hpos : Nat.ltb 0 n = true).
    { subst n. apply stitchable_counted. fold good.
      destruct good; [simpl in Hlen; lia | discriminate]. }
    rewrite Hpos.
    destruct good as [|a [|b rest]] eqn:Hgood;
      [simpl in Hlen; lia | simpl in Hlen; lia |].
    fold manifest. split.
    + intros Hw Hf. io_unfold. cbn [clock]. fold manifest.
      rewrite Hw, Hf. cbn. rewrite totalDurationOf_sum. reflexivity.
    + intros Hfail. io_unfold. cbn [clock]. fold manifest.
      destruct (writeError env manifest) as [m|]; [reflexivity|].
      destruct (ffmpegError env) as [m|]; [|destruct Hfail; contradiction].
      destruct (fileExists env manifest); reflexivity.
Qed.
End Run.

End AssemblerFacts.

(** * Batches *)

Module ImageBatchFacts.
Import Js Normalizer ImageGen ExecutorRule ImageFacts.

Local Arguments String.append : simpl never.
Local Arguments Fixed.toFixed : simpl never.
Local Arguments firstn : simpl never.
Local Arguments MAX_IMAGES : simpl never.
Local Arguments Nat.ltb : simpl never.

Section Run.
Variable env : Env.

Lemma image_runBatch_run (modelKey : FluxModelKey) (steps : Z)
      (prompts : list WorkItem) (w : World) :
  forallb ready (firstn MAX_IMAGES prompts) = true ->
  fileExists env (publicDirOf env) = true \/ mkdirError env = None ->
  exists rs t es,
    runBatch env modelKey steps prompts w
    = (Ok {| images := rs;
             totalGenerated := List.length (filter irSuccess rs);
             totalFailed :=
               List.length (filter (fun r => negb (irSuccess r)) rs);
             totalRequested := List.length (firstn MAX_IMAGES prompts);
             estimatedTotalCost :=
               "$" ++ Fixed.toFixed 4
                        (Double.mul
                           (inject_Z (Z.of_nat
                                        (List.length (filter irSuccess rs))))
                           (costPerImage (FLUX_MODELS modelKey)));
             provider := "replicate";
             model := keyName modelKey;
             modelId := replicateId (FLUX_MODELS modelKey);
             savedToPublic := true;
             publicPath := "/generated-images/" |},
       {| clock := t;
          calls := calls w + List.length (firstn MAX_IMAGES prompts) |},
       ((if fileExists env (publicDirOf env) then []
         else [MadeDirectory (publicDirOf env)])
        ++ (if (MAX_IMAGES <? List.length prompts)%nat
            then [WarnedLimit MAX_IMAGES (List.length prompts)] else [])
        ++ es)%list)
    /\ Forall2 (imageRecordOf env (replicateId (FLUX_MODELS modelKey))
                              (costPerImage (FLUX_MODELS modelKey)))
               (firstn MAX_IMAGES prompts) rs
    /\ coolsDown (Str.includes "rate limit") 10000 (providerFailure env)
                 (calls w) es = true
    /\ providerCalls es = List.length (firstn MAX_IMAGES prompts)
    /\ (forall j r m,
           nth_error rs j = Some r ->
           providerFailure env (calls w + j) = Some m ->
           irSuccess r = false /\ irError r = Some m).
Proof.
  intros Hready Hdir.
  destruct (generateFrom_run env (replicateId (FLUX_MODELS modelKey)) steps
              (costPerImage (FLUX_MODELS modelKey)) (publicDirOf env)
              (firstn MAX_IMAGES prompts)
              (List.length (firstn MAX_IMAGES prompts)) 0
              {| results := []; successCount := 0; failCount := 0 |}
              w Hready)
    as [rs [t [es [Hloop Hfacts]]]].
  exists rs, t, es. split; [|exact Hfacts].
  unfold runBatch, generateAll, ensurePublicDirectory.
  io_unfold.
  destruct (fileExists env (publicDirOf env)) eqn:Hex.
  - destruct (MAX_IMAGES <? List.length prompts)%nat; cbn;
      rewrite Hloop; cbn; rewrite ?app_nil_r; reflexivity.
  - destruct Hdir as [Hdir|Hdir]; [discriminate|]. rewrite Hdir.
    destruct (MAX_IMAGES <? List.length prompts)%nat; cbn;
      rewrite Hloop; cbn; rewrite ?app_nil_r; reflexivity.
Qed.
End Run.
End ImageBatchFacts.

Module VideoBatchFacts.
Import Js Normalizer VideoGen ExecutorRule IOFacts VideoFacts.

Local Arguments String.append : simpl never.
Local Arguments Fixed.toFixed : simpl never.
Local Arguments firstn : simpl never.
Local Arguments Nat.ltb : simpl never.

Section Run.
Variable env : Env.

Lemma assemble_sat (clips : list VideoClipResult) (n : nat) (dir : string) :
  IO.satisfies (assemble env clips n dir)
               (fun st => exists w, IO.result (assemble env clips n dir w) = Ok st)
               (fun _ => False).
Proof.
  intros w. destruct (IO.result (assemble env clips n dir w)) as [st|x] eqn:E.
  - exists w. exact E.
  - unfold assemble in E. destruct (0 <? n)%nat; [|discriminate].
    unfold IO.tryCatch in E.
    destruct (IO.bind _ _ w) as [[[a|y] w1] es1]; discriminate.
Qed.

Lemma video_ensurePublicDirectory_sat (subdir : string) :
  IO.satisfies (ensurePublicDirectory env subdir)
               (fun dir => dir = publicDirOf env subdir)
               (fun x => fileExists env (publicDirOf env subdir) = false
                         /\ mkdirError env = Some x).
Proof.
  intros w. unfold ensurePublicDirectory. io_unfold.
  destruct (fileExists env (publicDirOf env subdir)); [reflexivity|].
  destruct (mkdirError env); simpl; auto.
Qed.

Section Batch.
Variable clipOf : Value -> ClipOptions -> string -> IO VideoClipResult.
Variables (fallback providerName : string) (costOf : string -> Q)
          (costPerSecond : Q).
Variables (model : string) (duration : Z) (ratio inputMode : string).

Hypothesis clipOf_sat :
  forall promptV options dir,
    IO.satisfies
      (clipOf promptV options dir)
      (clipRecordOf env (orText (Some (optModel options)) fallback)
                    (orNumber (Some (optDuration options)) 5)
                    (costOf (orText (Some (optModel options)) fallback))
                    (optShotNumber options) promptV (optSourceImage options))
      (fun x => x <> EmptyString).
Hypothesis model_set : Str.isEmpty model = false.
Hypothesis duration_set : (duration =? 0)%Z = false.

(** What a batch returns, and when it throws. *)
Lemma video_runBatch_sat (prompts : list WorkItem) :
  IO.satisfies
    (runBatch env clipOf providerName model duration ratio inputMode
              costPerSecond prompts)
    (fun out =>
       Forall2 (fun item clip =>
                  clipRecordOf env model duration (costOf model)
                               (shotNumber item) (prompt item)
                               (sourceImage item) clip)
               (firstn MAX_CLIPS prompts) (clips out)
       /\ totalGenerated out = List.length (filter clipSuccess (clips out))
       /\ totalFailed out
          = List.length (filter (fun c => negb (clipSuccess c)) (clips out))
       /\ estimatedTotalCost out
          = "$" ++ Fixed.toFixed 2
                     (Double.mul
                        (inject_Z (totalDurationOf
                                     (filter clipSuccess (clips out))))
                        costPerSecond)
       /\ provider out = providerName
       /\ exists w,
           IO.result (assemble env (clips out) (totalGenerated out)
                               (publicDirOf env "generated-videos") w)
           = Ok (finalVideo out, stitchingStatus out))
    (fun x =>
       forallb printsShot (firstn MAX_CLIPS prompts) = false
       \/ (fileExists env (publicDirOf env "generated-videos") = false
           /\ mkdirError env = Some x)).
Proof.
  unfold runBatch, generateAll.
  eapply sat_bind.
  { eapply sat_weaken; [apply video_ensurePublicDirectory_sat | |].
    - intros a H. exact H.
    - intros x H. right. exact H. }
  intros outputDir Hdir. cbv beta in Hdir. subst outputDir.
  eapply sat_then.
  { destruct (MAX_CLIPS <? _)%nat; [apply sat_emit | apply sat_ret; exact I]. }
  eapply sat_bind.
  { eapply sat_weaken;
      [apply (video_generateFrom_sat env clipOf fallback costOf
                model duration ratio inputMode _ clipOf_sat model_set
                duration_set) | |].
    - intros a H. exact H.
    - intros x H. left. exact H. }
  intros tally [rs [Hrs [Hres [Hs Hf]]]].
  cbn [results successCount failCount app] in Hres, Hs, Hf.
  eapply sat_bind.
  { eapply sat_weaken; [apply assemble_sat | intros a H; exact H |].
    intros x H. contradiction. }
  intros stitched [w' Hst].
  apply sat_ret. cbn [clips totalGenerated totalFailed estimatedTotalCost
                      provider finalVideo stitchingStatus].
  rewrite Hres, Hs, Hf. repeat split; try assumption; try reflexivity.
  exists w'. rewrite <- Hs, <- Hres. rewrite Hst.
  destruct stitched; reflexivity.
Qed.
End Batch.
End Run.
End VideoBatchFacts.

(** * The image batch, whatever its items *)

Module ImageLoopFacts.
Import Js Normalizer ImageGen ExecutorRule IOFacts ImageFacts.

Local Arguments String.append : simpl never.
Local Arguments Fixed.toFixed : simpl never.
Local Arguments firstn : simpl never.
Local Arguments Nat.ltb : simpl never.
Local Arguments failedImage : simpl never.
Local Arguments generatedImage : simpl never.

Section Run.
Variable env : Env.
Variables (modelId : string) (steps : Z) (cost : Q) (publicDir : string).

(** An item that is not ready stops the loop: the error is raised
    before the [try] block. *)
Lemma generateOne_unready (total i : nat) (item : WorkItem) (tally : Tally)
      (w : World) :
  ready item = false ->
  exists x,
    IO.result (generateOne env modelId steps cost publicDir total i item
                           tally w) = Throw x.
Proof.
  unfold ready, printsShot, generateOne. io_unfold. intros H.
  destruct (toStr (shotNumber item)) as [s|x]; cbn.
  - destruct (prompt item); cbn in H |- *; try discriminate;
      eexists; reflexivity.
  - eexists. reflexivity.
Qed.

Lemma image_generateOne_sat (total i : nat) (item : WorkItem) (tally : Tally) :
  IO.satisfies
    (generateOne env modelId steps cost publicDir total i item tally)
    (fun tally' =>
       exists r,
         imageRecordOf env modelId cost item r
         /\ results tally' = (results tally ++ [r])%list
         /\ successCount tally'
            = successCount tally + (if irSuccess r then 1 else 0)
         /\ failCount tally'
            = failCount tally + (if irSuccess r then 0 else 1))
    (fun _ => ready item = false).
Proof.
  intros w. destruct (ready item) eqn:Hready.
  - destruct (ready_inv item Hready) as [s [p [Hs Hp]]].
    assert (Hp' : asPromptText "prompt" (prompt item) = Ok p)
      by (rewrite Hp; reflexivity).
    destruct (generateOne_cases env modelId steps cost publicDir total i
                item tally w s p Hs Hp')
      as [[m [t [Hrun [_ Hspeak]]]]
         | [url [path [dur [t [Hrun [Hu [Hpath _]]]]]]]];
      rewrite Hrun; cbn [IO.result fst].
    + exists (failedImage item p modelId m). split.
      * exists p. split; [exact Hp|]. left. exists m.
        split; [reflexivity | exact Hspeak].
      * cbn [results successCount failCount].
        change (irSuccess (failedImage item p modelId m)) with false.
        repeat split; lia.
    + exists (generatedImage item p modelId cost url path dur). split.
      * exists p. split; [exact Hp|]. right. exists url, path, dur. auto.
      * cbn [results successCount failCount].
        change (irSuccess (generatedImage item p modelId cost url path dur))
          with true.
        repeat split; lia.
  - destruct (generateOne_unready total i item tally w Hready) as [x Hx].
    rewrite Hx. reflexivity.
Qed.

Lemma image_generateFrom_sat (items : list WorkItem) :
  forall (total i : nat) (tally : Tally),
    IO.satisfies
      (generateFrom env modelId steps cost publicDir total i items tally)
      (fun tally' =>
         exists rs,
           Forall2 (imageRecordOf env modelId cost) items rs
           /\ results tally' = (results tally ++ rs)%list
           /\ successCount tally'
              = successCount tally + List.length (filter irSuccess rs)
           /\ failCount tally'
              = failCount tally
                + List.length (filter (fun r => negb (irSuccess r)) rs))
      (fun _ => forallb ready items = false).
Proof.
  induction items as [|item rest IH]; intros total i tally.
  - apply sat_ret. exists []. rewrite app_nil_r. simpl.
    repeat split; try constructor; lia.
  - cbn [generateFrom forallb].
    eapply sat_bind.
    + eapply sat_weaken; [apply image_generateOne_sat | intros a H; exact H |].
      intros x H. cbv beta in H. rewrite H. reflexivity.
    + intros tally' [r [Hr [Hres [Hs Hf]]]].
      eapply sat_weaken; [apply IH | |].
      * intros tally'' [rs [Hrs [Hres' [Hs' Hf']]]].
        exists (r :: rs). split; [constructor; assumption|].
        rewrite Hres', Hres, <- app_assoc. split; [reflexivity|].
        cbn [filter]. destruct (irSuccess r); cbn [negb List.length];
          split; lia.
      * intros x H. cbv beta in H. rewrite H. apply andb_false_r.
Qed.
End Run.

(** What an image batch returns, and when it throws. *)
Lemma image_runBatch_sat (env : Env) (modelKey : FluxModelKey) (steps : Z)
      (prompts : list WorkItem) :
  IO.satisfies
    (runBatch env modelKey steps prompts)
    (fun out =>
       Forall2 (imageRecordOf env (replicateId (FLUX_MODELS modelKey))
                              (costPerImage (FLUX_MODELS modelKey)))
               (firstn MAX_IMAGES prompts) (images out)
       /\ totalGenerated out = List.length (filter irSuccess (images out))
       /\ totalFailed out
          = List.length (filter (fun r => negb (irSuccess r)) (images out))
       /\ totalRequested out = List.length (firstn MAX_IMAGES prompts)
       /\ estimatedTotalCost out
          = "$" ++ Fixed.toFixed 4
                     (Double.mul
                        (inject_Z (Z.of_nat (List.length
                                               (filter irSuccess (images out)))))
                        (costPerImage (FLUX_MODELS modelKey))))
    (fun x =>
       forallb ready (firstn MAX_IMAGES prompts) = false
       \/ (fileExists env (publicDirOf env) = false
           /\ mkdirError env = Some x)).
Proof.
  unfold runBatch, generateAll.
  eapply sat_bind with (P := fun dir => dir = publicDirOf env).
  { intros w. unfold ensurePublicDirectory. io_unfold.
    destruct (fileExists env (publicDirOf env)); [reflexivity|].
    destruct (mkdirError env); simpl; auto. }
  intros publicDir Hdir. subst publicDir.
  eapply sat_then.
  { destruct (MAX_IMAGES <? _)%nat; [apply sat_emit | apply sat_ret; exact I]. }
  cbv zeta.
  eapply sat_bind.
  { eapply sat_weaken; [apply image_generateFrom_sat | |].
    - intros a H. exact H.
    - intros x H. left. exact H. }
  intros tally [rs [Hrs [Hres [Hs Hf]]]].
  cbn [results successCount failCount app] in Hres, Hs, Hf.
  apply sat_ret.
  cbn [images totalGenerated totalFailed totalRequested estimatedTotalCost].
  rewrite Hres, Hs, Hf. repeat split; try assumption; reflexivity.
Qed.

End ImageLoopFacts.

(** * The executors *)

Module ExecutorFacts.
Import Js ExecutorRule IOFacts.

Local Arguments firstn : simpl never.
Local Arguments Nat.ltb : simpl never.
Local Arguments String.append : simpl never.
Local Arguments Fixed.toFixed : simpl never.

Lemma orText_set (a : option string) (b : string) :
  Str.isEmpty b = false -> Str.isEmpty (VideoGen.orText a b) = false.
Proof.
  intros Hb. unfold VideoGen.orText. destruct a as [s|]; [|exact Hb].
  destruct (Str.isEmpty s) eqn:Hs; [exact Hb | exact Hs].
Qed.

Lemma orNumber_set (a : option Z) (b : Z) :
  (b =? 0)%Z = false -> (VideoGen.orNumber a b =? 0)%Z = false.
Proof.
  intros Hb. unfold VideoGen.orNumber. destruct a as [n|]; [|exact Hb].
  destruct (n =? 0)%Z eqn:Hn; [exact Hb | exact Hn].
Qed.

Lemma sat_lift_eq {A : Type} (r : Result A) :
  IO.satisfies (IO.lift r) (fun a => r = Ok a) (fun x => r = Throw x).
Proof. apply sat_lift. destruct r; reflexivity. Qed.

Section Run.
Variable env : Env.
Variables (lastOutput : Value) (apiKey : option string).

(** The image executor: what it returns, and when it throws. *)
Lemma image_execute_sat (node : ImageGen.ImageGenNode) :
  let modelKey := ImageGen.resolveModelKey node in
  let model := ImageGen.FLUX_MODELS modelKey in
  IO.satisfies
    (ImageGen.executeImageGenNode env node lastOutput apiKey)
    (fun out =>
       exists prompts,
         ImageGen.extractPrompts lastOutput = Ok prompts
         /\ Forall2 (imageRecordOf env (ImageGen.replicateId model)
                                   (ImageGen.costPerImage model))
                    (firstn ImageGen.MAX_IMAGES prompts) (ImageGen.images out)
         /\ ImageGen.totalGenerated out
            = List.length (filter ImageGen.irSuccess (ImageGen.images out))
         /\ ImageGen.totalFailed out
            = List.length (filter (fun r => negb (ImageGen.irSuccess r))
                                  (ImageGen.images out))
         /\ ImageGen.totalRequested out
            = List.length (firstn ImageGen.MAX_IMAGES prompts)
         /\ ImageGen.estimatedTotalCost out
            = "$" ++ Fixed.toFixed 4
                       (Double.mul
                          (inject_Z (Z.of_nat
                                       (List.length
                                          (filter ImageGen.irSuccess
                                                  (ImageGen.images out)))))
                          (ImageGen.costPerImage model)))
    (fun x =>
       ImageGen.orString apiKey (envKey env) = None
       \/ ImageGen.extractPrompts lastOutput = Throw x
       \/ (exists prompts,
              ImageGen.extractPrompts lastOutput = Ok prompts
              /\ forallb ready (firstn ImageGen.MAX_IMAGES prompts) = false)
       \/ (fileExists env (ImageGen.publicDirOf env) = false
           /\ mkdirError env = Some x)).
Proof.
  intros modelKey model. unfold ImageGen.executeImageGenNode.
  eapply sat_bind; [apply sat_now|]. intros startTime _.
  destruct (ImageGen.orString apiKey (envKey env)) as [key|];
    [|apply sat_throw; left; reflexivity].
  cbv zeta. eapply sat_bind.
  { eapply sat_weaken; [apply sat_lift_eq | intros a H; exact H |].
    intros x H. right. left. exact H. }
  intros prompts Hprompts. cbv beta in Hprompts.
  eapply sat_weaken; [apply ImageLoopFacts.image_runBatch_sat | |].
  - intros out H. exists prompts. split; [exact Hprompts | exact H].
  - intros x [H|H]; right; right; [left | right; exact H].
    exists prompts. split; [exact Hprompts | exact H].
Qed.

(** The executors, once the key has been found. *)
Lemma image_execute_run (node : ImageGen.ImageGenNode) (w : World)
      (key : string) :
  ImageGen.orString apiKey (envKey env) = Some key ->
  ImageGen.executeImageGenNode env node lastOutput apiKey w
  = IO.bind (IO.lift (ImageGen.extractPrompts lastOutput))
      (fun prompts =>
         ImageGen.runBatch env (ImageGen.resolveModelKey node)
           (ImageGen.orNumber (ImageGen.legacyConfigSteps node)
              (ImageGen.defaultSteps
                 (ImageGen.FLUX_MODELS (ImageGen.resolveModelKey node))))
           prompts) w.
Proof.
  intros Hkey. unfold ImageGen.executeImageGenNode.
  unfold IO.bind at 1. unfold IO.now. rewrite Hkey. cbv zeta.
  match goal with |- _ = ?rhs => destruct rhs as [[r w1] es1] end.
  reflexivity.
Qed.

Lemma video_execute_run (config : VideoGen.VideoGenConfig) (w : World)
      (key : string) :
  ImageGen.orString apiKey (envKey env) = Some key ->
  VideoGen.executeVideoGenNode env config lastOutput apiKey w
  = IO.bind (IO.lift (VideoGen.promptsOf lastOutput))
      (fun prompts =>
         VideoGen.runBatch env (VideoGen.generateSingleClip env) "replicate"
           (VideoGen.orText (VideoGen.cfgModel config) "minimax")
           (VideoGen.orNumber (VideoGen.cfgDuration config) 5)
           (VideoGen.orText (VideoGen.cfgRatio config) "16:9")
           (VideoGen.orText (VideoGen.cfgInputMode config) "auto")
           (VideoGen.costPerSecondOf
              (VideoGen.orText (VideoGen.cfgModel config) "minimax"))
           prompts) w.
Proof.
  intros Hkey. unfold VideoGen.executeVideoGenNode.
  unfold IO.bind at 1. unfold IO.now. rewrite Hkey. cbv zeta.
  match goal with |- _ = ?rhs => destruct rhs as [[r w1] es1] end.
  reflexivity.
Qed.

Lemma runway_execute_run (config : VideoGen.VideoGenConfig) (w : World)
      (key : string) :
  ImageGen.orString apiKey (envKey env) = Some key ->
  Runway.executeVideoGenNode env config lastOutput apiKey w
  = IO.bind (IO.lift (VideoGen.extractVideoPrompts lastOutput))
      (fun prompts =>
         VideoGen.runBatch env (Runway.generateSingleClip env) "runway"
           (VideoGen.orText (VideoGen.cfgModel config) "gen3a_turbo")
           (VideoGen.orNumber (VideoGen.cfgDuration config) 5)
           (VideoGen.orText (VideoGen.cfgRatio config) "16:9")
           (VideoGen.orText (VideoGen.cfgInputMode config) "auto")
           (Double.literal (5 # 100)) prompts) w.
Proof.
  intros Hkey. unfold Runway.executeVideoGenNode.
  unfold IO.bind at 1. unfold IO.now. rewrite Hkey. cbv zeta.
  match goal with |- _ = ?rhs => destruct rhs as [[r w1] es1] end.
  reflexivity.
Qed.

Lemma execute_keyless (w : World) :
  ImageGen.orString apiKey (envKey env) = None ->
  (forall node,
      IO.result (ImageGen.executeImageGenNode env node lastOutput apiKey w)
      = Throw ImageGen.missingKey)
  /\ (forall config,
         IO.result (VideoGen.executeVideoGenNode env config lastOutput
                                                 apiKey w)
         = Throw VideoGen.missingKey)
  /\ (forall config,
         IO.result (Runway.executeVideoGenNode env config lastOutput
                                               apiKey w)
         = Throw Runway.missingKey).
Proof.
  intros Hkey.
  unfold ImageGen.executeImageGenNode, VideoGen.executeVideoGenNode,
    Runway.executeVideoGenNode.
  unfold IO.bind, IO.now. rewrite Hkey. repeat split.
Qed.

(** Both video executors, from their common part. *)
Section Video.
Variable clipOf :
  Value -> VideoGen.ClipOptions -> string -> IO VideoGen.VideoClipResult.
Variables (fallback providerName : string) (costOf : string -> Q).
Variable normalize : Value -> Result (list WorkItem).
Variable config : VideoGen.VideoGenConfig.

Hypothesis clipOf_sat :
  forall promptV options dir,
    IO.satisfies
      (clipOf promptV options dir)
      (clipRecordOf env
                    (VideoGen.orText (Some (VideoGen.optModel options))
                                     fallback)
                    (VideoGen.orNumber (Some (VideoGen.optDuration options)) 5)
                    (costOf (VideoGen.orText
                               (Some (VideoGen.optModel options)) fallback))
                    (VideoGen.optShotNumber options) promptV
                    (VideoGen.optSourceImage options))
      (fun x => x <> EmptyString).
Hypothesis fallback_set : Str.isEmpty fallback = false.

Local Abbreviation model :=
  (VideoGen.orText (VideoGen.cfgModel config) fallback).
Local Abbreviation duration :=
  (VideoGen.orNumber (VideoGen.cfgDuration config) 5).

Lemma video_execute_sat (ratio inputMode : string) (costPerSecond : Q) :
  IO.satisfies
    (prompts <- IO.lift (normalize lastOutput) ;;
     VideoGen.runBatch env clipOf providerName model duration ratio
                       inputMode costPerSecond prompts)%io
    (fun out =>
       exists prompts,
         normalize lastOutput = Ok prompts
         /\ Forall2 (fun item clip =>
                       clipRecordOf env model duration (costOf model)
                                    (shotNumber item) (prompt item)
                                    (sourceImage item) clip)
                    (firstn VideoGen.MAX_CLIPS prompts) (VideoGen.clips out)
         /\ VideoGen.totalGenerated out
            = List.length (filter VideoGen.clipSuccess (VideoGen.clips out))
         /\ VideoGen.totalFailed out
            = List.length (filter (fun c => negb (VideoGen.clipSuccess c))
                                  (VideoGen.clips out))
         /\ VideoGen.estimatedTotalCost out
            = "$" ++ Fixed.toFixed 2
                       (Double.mul
                          (inject_Z (VideoGen.totalDurationOf
                                       (filter VideoGen.clipSuccess
                                               (VideoGen.clips out))))
                          costPerSecond)
         /\ VideoGen.provider out = providerName
         /\ exists w,
             IO.result (VideoGen.assemble env (VideoGen.clips out)
                          (VideoGen.totalGenerated out)
                          (VideoGen.publicDirOf env "generated-videos") w)
             = Ok (VideoGen.finalVideo out, VideoGen.stitchingStatus out))
    (fun x =>
       normalize lastOutput = Throw x
       \/ (exists prompts,
              normalize lastOutput = Ok prompts
              /\ forallb printsShot (firstn VideoGen.MAX_CLIPS prompts)
                 = false)
       \/ (fileExists env (VideoGen.publicDirOf env "generated-videos")
           = false
           /\ mkdirError env = Some x)).
Proof.
  eapply sat_bind.
  { eapply sat_weaken; [apply sat_lift_eq | intros a H; exact H |].
    intros x H. left. exact H. }
  intros prompts Hprompts. cbv beta in Hprompts.
  eapply sat_weaken;
    [apply (VideoBatchFacts.video_runBatch_sat env clipOf fallback
              providerName costOf costPerSecond model duration ratio
              inputMode clipOf_sat) | |].
  - apply orText_set. exact fallback_set.
  - apply orNumber_set. reflexivity.
  - intros out H. exists prompts. split; [exact Hprompts | exact H].
  - intros x [H|H]; right; [left | right; exact H].
    exists prompts. split; [exact Hprompts | exact H].
Qed.
End Video.
End Run.

(** The property a computation satisfies holds of what it returns. *)
Lemma sat_result {A : Type} (m : IO A) (Q : A -> Prop) (E : string -> Prop)
      (w : World) (a : A) :
  IO.satisfies m Q E -> IO.result (m w) = Ok a -> Q a.
Proof. intros H Hr. specialize (H w). rewrite Hr in H. exact H. Qed.

Section Outcomes.
Variable env : Env.
Variables (lastOutput : Value) (apiKey : option string) (w : World).

(** What the image executor returns. *)
Lemma image_outcome (node : ImageGen.ImageGenNode)
      (out : ImageGen.ImageGenOutput) :
  let model := ImageGen.FLUX_MODELS (ImageGen.resolveModelKey node) in
  IO.result (ImageGen.executeImageGenNode env node lastOutput apiKey w)
  = Ok out ->
  exists prompts,
    ImageGen.extractPrompts lastOutput = Ok prompts
    /\ Forall2 (imageRecordOf env (ImageGen.replicateId model)
                              (ImageGen.costPerImage model))
               (firstn ImageGen.MAX_IMAGES prompts) (ImageGen.images out)
    /\ ImageGen.totalGenerated out
       = List.length (filter ImageGen.irSuccess (ImageGen.images out))
    /\ ImageGen.totalFailed out
       = List.length (filter (fun r => negb (ImageGen.irSuccess r))
                             (ImageGen.images out))
    /\ ImageGen.totalRequested out
       = List.length (firstn ImageGen.MAX_IMAGES prompts)
    /\ ImageGen.estimatedTotalCost out
       = "$" ++ Fixed.toFixed 4
                  (Double.mul
                     (inject_Z (Z.of_nat
                                  (List.length
                                     (filter ImageGen.irSuccess
                                             (ImageGen.images out)))))
                     (ImageGen.costPerImage model)).
Proof.
  intros model Hout.
  exact (sat_result _ _ _ w out (image_execute_sat env lastOutput apiKey node)
                    Hout).
Qed.

(** What the video executor returns, through Replicate. *)
Lemma replicate_outcome (config : VideoGen.VideoGenConfig)
      (out : VideoGen.VideoGenOutput) :
  let model := VideoGen.orText (VideoGen.cfgModel config) "minimax" in
  let duration := VideoGen.orNumber (VideoGen.cfgDuration config) 5 in
  IO.result (VideoGen.executeVideoGenNode env config lastOutput apiKey w)
  = Ok out ->
  exists prompts,
    VideoGen.promptsOf lastOutput = Ok prompts
    /\ Forall2 (fun item clip =>
                  clipRecordOf env model duration
                               (VideoGen.costPerSecondOf model)
                               (shotNumber item) (prompt item)
                               (sourceImage item) clip)
               (firstn VideoGen.MAX_CLIPS prompts) (VideoGen.clips out)
    /\ VideoGen.totalGenerated out
       = List.length (filter VideoGen.clipSuccess (VideoGen.clips out))
    /\ VideoGen.totalFailed out
       = List.length (filter (fun c => negb (VideoGen.clipSuccess c))
                             (VideoGen.clips out))
    /\ VideoGen.estimatedTotalCost out
       = "$" ++ Fixed.toFixed 2
                  (Double.mul
                     (inject_Z (VideoGen.totalDurationOf
                                  (filter VideoGen.clipSuccess
                                          (VideoGen.clips out))))
                     (VideoGen.costPerSecondOf model))
    /\ VideoGen.provider out = "replicate"
    /\ exists w',
        IO.result (VideoGen.assemble env (VideoGen.clips out)
                     (VideoGen.totalGenerated out)
                     (VideoGen.publicDirOf env "generated-videos") w')
        = Ok (VideoGen.finalVideo out, VideoGen.stitchingStatus out).
Proof.
  intros model duration Hout.
  destruct (ImageGen.orString apiKey (envKey env)) as [key|] eqn:Hkey.
  - rewrite (video_execute_run env lastOutput apiKey config w key Hkey)
      in Hout.
    exact (sat_result _ _ _ w out
             (video_execute_sat env lastOutput
                (VideoGen.generateSingleClip env) "minimax" "replicate"
                VideoGen.costPerSecondOf VideoGen.promptsOf config
                (fun promptV options dir =>
                   VideoFacts.generateSingleClip_sat env promptV options dir)
                eq_refl _ _ _) Hout).
  - destruct (execute_keyless env lastOutput apiKey w Hkey) as [_ [H _]].
    rewrite H in Hout. discriminate.
Qed.

(** What the video executor returns, through Runway. *)
Lemma runway_outcome (config : VideoGen.VideoGenConfig)
      (out : VideoGen.VideoGenOutput) :
  let model := VideoGen.orText (VideoGen.cfgModel config) "gen3a_turbo" in
  let duration := VideoGen.orNumber (VideoGen.cfgDuration config) 5 in
  IO.result (Runway.executeVideoGenNode env config lastOutput apiKey w)
  = Ok out ->
  exists prompts,
    VideoGen.extractVideoPrompts lastOutput = Ok prompts
    /\ Forall2 (fun item clip =>
                  clipRecordOf env model duration
                               (Double.literal (5 # 100))
                               (shotNumber item) (prompt item)
                               (sourceImage item) clip)
               (firstn VideoGen.MAX_CLIPS prompts) (VideoGen.clips out)
    /\ VideoGen.totalGenerated out
       = List.length (filter VideoGen.clipSuccess (VideoGen.clips out))
    /\ VideoGen.totalFailed out
       = List.length (filter (fun c => negb (VideoGen.clipSuccess c))
                             (VideoGen.clips out))
    /\ VideoGen.estimatedTotalCost out
       = "$" ++ Fixed.toFixed 2
                  (Double.mul
                     (inject_Z (VideoGen.totalDurationOf
                                  (filter VideoGen.clipSuccess
                                          (VideoGen.clips out))))
                     (Double.literal (5 # 100)))
    /\ VideoGen.provider out = "runway"
    /\ exists w',
        IO.result (VideoGen.assemble env (VideoGen.clips out)
                     (VideoGen.totalGenerated out)
                     (VideoGen.publicDirOf env "generated-videos") w')
        = Ok (VideoGen.finalVideo out, VideoGen.stitchingStatus out).
Proof.
  intros model duration Hout.
  destruct (ImageGen.orString apiKey (envKey env)) as [key|] eqn:Hkey.
  - rewrite (runway_execute_run env lastOutput apiKey config w key Hkey)
      in Hout.
    exact (sat_result _ _ _ w out
             (video_execute_sat env lastOutput
                (Runway.generateSingleClip env) "gen3a_turbo" "runway"
                (fun _ => Double.literal (5 # 100))
                VideoGen.extractVideoPrompts config
                (fun promptV options dir =>
                   VideoFacts.runway_generateSingleClip_sat env promptV
                                                            options dir)
                eq_refl _ _ _) Hout).
  - destruct (execute_keyless env lastOutput apiKey w Hkey) as [_ [_ H]].
    rewrite H in Hout. discriminate.
Qed.

(** The executors return, on items they can start on. *)
Lemma image_returns (node : ImageGen.ImageGenNode) (prompts : list WorkItem) :
  ImageGen.orString apiKey (envKey env) <> None ->
  ImageGen.extractPrompts lastOutput = Ok prompts ->
  forallb ready (firstn ImageGen.MAX_IMAGES prompts) = true ->
  fileExists env (ImageGen.publicDirOf env) = true \/ mkdirError env = None ->
  exists out,
    IO.result (ImageGen.executeImageGenNode env node lastOutput apiKey w)
    = Ok out.
Proof.
  intros Hkey Hp Hready Hdir.
  destruct (sat_returns _ _ _ w
              (image_execute_sat env lastOutput apiKey node))
    as [out [Hout _]]; [|exists out; exact Hout].
  intros x [H|[H|[[ps [H1 H2]]|[H1 H2]]]]; try congruence.
  destruct Hdir; congruence.
Qed.

Lemma replicate_returns (config : VideoGen.VideoGenConfig)
      (prompts : list WorkItem) :
  ImageGen.orString apiKey (envKey env) <> None ->
  VideoGen.promptsOf lastOutput = Ok prompts ->
  forallb printsShot (firstn VideoGen.MAX_CLIPS prompts) = true ->
  fileExists env (VideoGen.publicDirOf env "generated-videos") = true
  \/ mkdirError env = None ->
  exists out,
    IO.result (VideoGen.executeVideoGenNode env config lastOutput apiKey w)
    = Ok out.
Proof.
  intros Hkey Hp Hshots Hdir.
  destruct (ImageGen.orString apiKey (envKey env)) as [key|] eqn:Hk;
    [|congruence].
  rewrite (video_execute_run env lastOutput apiKey config w key Hk).
  destruct (sat_returns _ _ _ w
              (video_execute_sat env lastOutput
                 (VideoGen.generateSingleClip env) "minimax" "replicate"
                 VideoGen.costPerSecondOf VideoGen.promptsOf config
                 (fun promptV options dir =>
                    VideoFacts.generateSingleClip_sat env promptV options dir)
                 eq_refl
                 (VideoGen.orText (VideoGen.cfgRatio config) "16:9")
                 (VideoGen.orText (VideoGen.cfgInputMode config) "auto")
                 (VideoGen.costPerSecondOf
                    (VideoGen.orText (VideoGen.cfgModel config) "minimax"))))
    as [out [Hout _]]; [|exists out; exact Hout].
  intros x [H|[[ps [H1 H2]]|[H1 H2]]]; try congruence.
  destruct Hdir; congruence.
Qed.
End Outcomes.

End ExecutorFacts.

(** * Costs *)

Module CostFacts.
Import Js ExecutorRule Fixed FixedFacts.

Local Arguments String.append : simpl never.
Local Arguments toFixed : simpl never.
Local Arguments amount : simpl never.
Local Arguments Double.mul : simpl never.

Lemma totalOf_equal (u : Z) (costs : list string) :
  Forall (fun cost => amount cost = u) costs ->
  totalOf costs = (Z.of_nat (List.length costs) * u)%Z.
Proof.
  induction 1 as [|cost costs Hc _ IH]; [reflexivity|].
  cbn [totalOf fold_right List.length]. fold (totalOf costs).
  rewrite IH, Hc. lia.
Qed.

(** *** Image batches *)

(** The total of [n] images is [n] times what one image is printed to
    cost. *)
Lemma image_total (k : ImageGen.FluxModelKey) (n : Z) :
  (0 <= n < 2 ^ 36)%Z ->
  let cost := ImageGen.costPerImage (ImageGen.FLUX_MODELS k) in
  amount ("$" ++ toFixed 4 (Double.mul (inject_Z n) cost))
  = (n * amount ("$" ++ toFixed 4 cost))%Z.
Proof.
  intros Hn cost.
  assert (H : exists c u,
             cost = Double.literal c
             /\ In c [25 # 1000; 4 # 100; 3 # 1000; 5 # 100]%Q
             /\ (c * inject_Z (10 ^ Z.of_nat 4) == inject_Z u)%Q
             /\ amount ("$" ++ toFixed 4 cost) = u).
  { subst cost. destruct k;
      [exists (25 # 1000)%Q, 250%Z | exists (4 # 100)%Q, 400%Z
       | exists (3 # 1000)%Q, 30%Z];
      (split; [reflexivity|]); (split; [cbn; tauto|]);
      (split; [reflexivity | vm_compute; reflexivity]). }
  destruct H as [c [u [Hcost [Hc [Hu Hunit]]]]].
  rewrite Hunit, Hcost.
  destruct (DoubleFacts.literal_near c Hc) as [Hrange Hnear].
  apply (DoubleFacts.amount_mul 4 n (n * u) c); try assumption; [lia|].
  rewrite <- Qmult_assoc, Hu, inject_Z_mult. reflexivity.
Qed.

Lemma image_costs (env : Env) (modelId : string) (cost : Q)
      (items : list WorkItem) (rs : list ImageGen.ImageResult) :
  Forall2 (imageRecordOf env modelId cost) items rs ->
  Forall (fun r => ImageGen.irEstimatedCost r
                   = if ImageGen.irSuccess r then "$" ++ toFixed 4 cost
                     else "$0.0000") rs.
Proof.
  induction 1 as [|item r items rs Hr _ IH]; constructor; [|exact IH].
  destruct Hr as [p [_ [[m [-> _]] | [url [path [dur [-> _]]]]]]]; reflexivity.
Qed.

Lemma successful_image_costs (cost : Q) (rs : list ImageGen.ImageResult) :
  Forall (fun r => ImageGen.irEstimatedCost r
                   = if ImageGen.irSuccess r then "$" ++ toFixed 4 cost
                     else "$0.0000") rs ->
  Forall (fun c => amount c = amount ("$" ++ toFixed 4 cost))
         (map ImageGen.irEstimatedCost (filter ImageGen.irSuccess rs)).
Proof.
  induction 1 as [|r rs Hr _ IH]; [constructor|].
  cbn [filter]. destruct (ImageGen.irSuccess r); [|exact IH].
  cbn [map]. constructor; [|exact IH].
  rewrite Hr. reflexivity.
Qed.

Lemma filter_length_le {A : Type} (p : A -> bool) (l : list A) :
  List.length (filter p l) <= List.length l.
Proof.
  induction l as [|a l IH]; [apply Nat.le_refl|].
  cbn [filter]. destruct (p a); cbn [List.length]; lia.
Qed.

(** *** Video batches *)

Lemma costPerSecondOf_rate (model : string) :
  VideoGen.costPerSecondOf model = Double.literal (rateOf model)
  /\ In (rateOf model) [25 # 1000; 4 # 100; 3 # 1000; 5 # 100]%Q.
Proof.
  unfold VideoGen.costPerSecondOf, rateOf.
  destruct (String.eqb model "gen3a_turbo"); split;
    try reflexivity; cbn; tauto.
Qed.

Lemma clip_costs (env : Env) (model : string) (duration : Z) (cps : Q)
      (items : list WorkItem) (cs : list VideoGen.VideoClipResult) :
  Forall2 (fun item clip =>
             clipRecordOf env model duration cps (shotNumber item)
                          (prompt item) (sourceImage item) clip) items cs ->
  Forall (fun c =>
            if VideoGen.clipSuccess c
            then VideoGen.clipDuration c = duration
                 /\ VideoGen.clipEstimatedCost c
                    = "$" ++ toFixed 2 (Double.mul (inject_Z duration) cps)
            else VideoGen.clipDuration c = 0%Z
                 /\ VideoGen.clipEstimatedCost c = "$0.00") cs.
Proof.
  induction 1 as [|item c items cs Hc _ IH]; constructor; [|exact IH].
  destruct Hc as [[m [-> _]] | [p [url [path [time [_ [-> _]]]]]]];
    split; reflexivity.
Qed.

Lemma successful_durations (duration : Z) (cs : list VideoGen.VideoClipResult) :
  Forall (fun c => VideoGen.clipSuccess c = true ->
                   VideoGen.clipDuration c = duration) cs ->
  durationSum (filter VideoGen.clipSuccess cs)
  = (Z.of_nat (List.length (filter VideoGen.clipSuccess cs)) * duration)%Z.
Proof.
  induction 1 as [|c cs Hc _ IH]; [reflexivity|].
  cbn [filter]. destruct (VideoGen.clipSuccess c) eqn:E; [|exact IH].
  cbn [durationSum fold_right List.length].
  fold (durationSum (filter VideoGen.clipSuccess cs)).
  rewrite IH, (Hc eq_refl). lia.
Qed.

(** [n] clips of [duration] seconds each, at the rate of [model], when
    one clip costs a whole number of cents: the clip and the total print
    exactly. *)
Lemma clip_total (model : string) (duration cents n : Z) :
  (0 <= duration < 2 ^ 32)%Z -> (0 <= n <= 10)%Z ->
  (inject_Z duration * rateOf model * inject_Z (10 ^ Z.of_nat 2)
   == inject_Z cents)%Q ->
  amount ("$" ++ toFixed 2 (Double.mul (inject_Z duration)
                                       (VideoGen.costPerSecondOf model)))
  = cents
  /\ amount ("$" ++ toFixed 2 (Double.mul (inject_Z (n * duration))
                                          (VideoGen.costPerSecondOf model)))
     = (n * cents)%Z.
Proof.
  intros Hd Hn Hcents.
  destruct (costPerSecondOf_rate model) as [-> Hin].
  destruct (DoubleFacts.literal_near _ Hin) as [Hrange Hnear].
  split.
  - apply (DoubleFacts.amount_mul 2 duration cents (rateOf model));
      try assumption; lia.
  - apply (DoubleFacts.amount_mul 2 (n * duration) (n * cents) (rateOf model));
      try assumption; [lia | nia |].
    rewrite !inject_Z_mult, <- Hcents. ring.
Qed.

End CostFacts.

(** * Claims on the normalizers *)

Module NormalizerClaims.
Import Js Normalizer NormalizerRule NormalizerFacts.

Lemma image_ofElement_item (index : nat) (item : Value) :
  mappable item = true ->
  ImageGen.ofElement index item = Ok (imageItemOf index item).
Proof.
  unfold mappable, printable. intros H.
  apply andb_true_iff in H. destruct H as [Hn Hp].
  apply negb_true_iff in Hn.
  unfold ImageGen.ofElement, imageItemOf, promptOrText, textOf.
  rewrite !(get_field _ _ Hn). simpl.
  destruct (truthy (field item "prompt")); simpl; [reflexivity|].
  simpl in Hp. destruct (callToString item); [|discriminate].
  reflexivity.
Qed.

Lemma video_ofElement_item (index : nat) (item : Value) :
  mappable item = true ->
  VideoGen.ofElement index item = Ok (videoItemOf index item).
Proof.
  unfold mappable, printable. intros H.
  apply andb_true_iff in H. destruct H as [Hn Hp].
  apply negb_true_iff in Hn.
  unfold VideoGen.ofElement, videoItemOf, promptOrText, textOf.
  rewrite !(get_field _ _ Hn). simpl.
  destruct (truthy (field item "prompt")); simpl; [reflexivity|].
  simpl in Hp. destruct (callToString item); [|discriminate].
  reflexivity.
Qed.

Lemma forallb_Forall {A : Type} (p : A -> bool) (l : list A) :
  forallb p l = true -> Forall (fun a => p a = true) l.
Proof.
  induction l as [|a l IH]; simpl; intros H; constructor;
    apply andb_true_iff in H; destruct H; auto.
Qed.




(** C7, as the code has it: the image normalizer has no case for an
    [images] array; on the output of an image batch it falls through to
    the placeholder. *)
Lemma C7_image_normalizer_ignores_images :
  ImageGen.extractPrompts Examples.imageBatchOutput
  = Ok [ImageGen.placeholder].
Proof. reflexivity. Qed.

(** C7, amended: the video normalizer tries the [images] case first,
    whatever else the object holds: it keeps, in order, the entries whose
    [success] and [localPath] are truthy ([true] and a non-empty path in
    the output of an image batch), and maps the entry at position [i] of
    the kept ones to a work item with prompt [originalPrompt] (or
    "Shot i+1"), source image [localPath] and shot number [shotNumber]
    or [i+1].  The image normalizer has no such case. *)
Theorem C7_video_images_case_first
        (props : list (string * Value)) (images : list Value) :
  at_ props "images" = Arr images ->
  forallb (fun img => negb (nullish img)) images = true ->
  VideoGen.extractVideoPrompts (Obj props)
  = Ok (mapi ofImageEntry 0 (filter usableEntry images)).
Proof.
  intros Hat Hentries. simpl. rewrite Hat.
  apply forallb_Forall in Hentries.
  rewrite (filterM_total VideoGen.usable usableEntry).
  - simpl. apply mapiM_total. apply Forall_forall.
    intros img Hin j. apply ofImage_entry.
    apply filter_In in Hin. destruct Hin as [Hin _].
    rewrite Forall_forall in Hentries. specialize (Hentries img Hin).
    apply negb_true_iff in Hentries. exact Hentries.
  - eapply Forall_impl; [|exact Hentries].
    intros img H. apply usable_entry. apply negb_true_iff in H. exact H.
Qed.

Lemma C7_video_images_case_first_witness :
  VideoGen.extractVideoPrompts Examples.imageBatchOutput
  = Ok [{| shotNumber := Num 1;
           prompt := Str "a red fox in the snow";
           sourceImage :=
             Str "/app/public/generated-images/shot-1-1700000000000.png";
           aspectRatio := Str "4:3";
           style := Undefined |}].
Proof.
  exact (C7_video_images_case_first Examples.imageBatchProps
           Examples.imageBatchEntries eq_refl eq_refl).
Defined.

End NormalizerClaims.

(** * Claims on markdown extraction *)

Module MarkdownClaims.
Import Js MarkdownRule MarkdownFacts.

Lemma extract_document (item : Z -> string -> WorkItem)
      (parts : list (string * string)) (tail : string) :
  wellFenced parts tail ->
  Markdown.extract item (document parts tail)
  = numbered item (kept (map snd parts)).
Proof.
  intros H. rewrite extract_spec.
  rewrite (captured_document parts tail H) by lia. reflexivity.
Qed.

Lemma extract_noBlock (item : Z -> string -> WorkItem) (text : string) :
  noBlock text -> Markdown.extract item text = [].
Proof.
  intros H. apply exec_None_iff in H.
  unfold Markdown.extract. simpl. rewrite H. reflexivity.
Qed.






End MarkdownClaims.

(** * Claims on the executors *)

Module BatchClaims.
Import Js ExecutorRule IOFacts.

Local Arguments firstn : simpl never.
Local Arguments Nat.ltb : simpl never.

Lemma firstn_capped {A : Type} (cap : nat) (l : list A) :
  firstn cap (firstn cap l) = firstn cap l
  /\ Nat.ltb cap (List.length (firstn cap l)) = false
  /\ List.length (firstn cap l) = Nat.min (List.length l) cap.
Proof.
  split; [|split].
  - rewrite firstn_firstn, Nat.min_id. reflexivity.
  - apply Nat.ltb_ge. rewrite length_firstn. lia.
  - rewrite length_firstn. lia.
Qed.

Lemma Forall2_length_eq {A B : Type} (R : A -> B -> Prop) (l : list A)
      (l' : list B) :
  Forall2 R l l' -> List.length l' = List.length l.
Proof. induction 1; simpl; congruence. Qed.

Lemma image_ensure_run (env : Env) (w : World) :
  fileExists env (ImageGen.publicDirOf env) = true \/ mkdirError env = None ->
  exists prep,
    ImageGen.ensurePublicDirectory env w
    = (Ok (ImageGen.publicDirOf env), w, prep)
    /\ providerCalls prep = 0.
Proof.
  intros H. unfold ImageGen.ensurePublicDirectory. io_unfold.
  destruct (fileExists env (ImageGen.publicDirOf env)).
  - exists []. split; reflexivity.
  - destruct H as [H|H]; [discriminate|]. rewrite H.
    eexists. split; reflexivity.
Qed.

Lemma video_ensure_run (env : Env) (subdir : string) (w : World) :
  fileExists env (VideoGen.publicDirOf env subdir) = true
  \/ mkdirError env = None ->
  exists prep,
    VideoGen.ensurePublicDirectory env subdir w
    = (Ok (VideoGen.publicDirOf env subdir), w, prep)
    /\ providerCalls prep = 0.
Proof.
  intros H. unfold VideoGen.ensurePublicDirectory. io_unfold.
  destruct (fileExists env (VideoGen.publicDirOf env subdir)).
  - exists []. split; reflexivity.
  - destruct H as [H|H]; [discriminate|]. rewrite H.
    eexists. split; reflexivity.
Qed.

(** The events of a batch over the cap are those of the capped batch
    with the warning in between. *)
Lemma warned_between (b : bool) (e : Event) (es1 tail loud quiet : list Event) :
  b = true ->
  loud = (es1 ++ (if b then [e] else []) ++ tail)%list ->
  quiet = (es1 ++ tail)%list ->
  providerCalls es1 = 0 ->
  exists before after,
    loud = (before ++ e :: after)%list
    /\ providerCalls before = 0 /\ quiet = (before ++ after)%list.
Proof.
  intros -> Hl Hq Hc. exists es1, tail. subst. auto.
Qed.




(** *** Records and items *)

Lemma image_records_in_order (env : Env) (modelId : string) (cost : Q)
      (items : list WorkItem) (rs : list ImageGen.ImageResult) :
  Forall2 (imageRecordOf env modelId cost) items rs ->
  map ImageGen.irShotNumber rs = map shotNumber items
  /\ map (fun r => Str (ImageGen.irOriginalPrompt r)) rs = map prompt items.
Proof.
  induction 1 as [|item r items rs Hr _ [IH1 IH2]]; [split; reflexivity|].
  cbn [map]. rewrite IH1, IH2.
  destruct Hr as [p [Hp [[m [-> _]] | [url [path [dur [-> _]]]]]]];
    rewrite Hp; split; reflexivity.
Qed.

Lemma clip_records_in_order (env : Env) (model : string) (duration : Z)
      (cps : Q) (items : list WorkItem) (cs : list VideoGen.VideoClipResult) :
  Forall2 (fun item clip =>
             clipRecordOf env model duration cps (shotNumber item)
                          (prompt item) (sourceImage item) clip) items cs ->
  map VideoGen.clipShotNumber cs = map shotNumber items
  /\ map VideoGen.clipOriginalPrompt cs = map prompt items.
Proof.
  induction 1 as [|item c items cs Hc _ [IH1 IH2]]; [split; reflexivity|].
  cbn [map]. rewrite IH1, IH2.
  destruct Hc as [[m [-> _]] | [p [url [path [time [Hp [-> _]]]]]]];
    [|rewrite Hp]; split; reflexivity.
Qed.

Lemma filter_split {A : Type} (p : A -> bool) (l : list A) :
  List.length (filter p l) + List.length (filter (fun x => negb (p x)) l)
  = List.length l.
Proof.
  induction l as [|x l IH]; [reflexivity|].
  cbn [filter]. destruct (p x); cbn [negb List.length]; lia.
Qed.

Local Arguments String.append : simpl never.
Local Arguments Fixed.toFixed : simpl never.



(** *** Whole records *)

Lemma failed_whole (env : Env) (m : string) :
  telling env m -> wholeRecord env false EmptyString EmptyString (Some m).
Proof.
  intros Hm. right. split.
  - repeat split. exists m. reflexivity.
  - intros Hspeak. repeat split. exists m. split; [reflexivity|].
    exact (Hm Hspeak).
Qed.

Lemma image_record_whole (env : Env) (modelId : string) (cost : Q)
      (item : WorkItem) (r : ImageGen.ImageResult) :
  imageRecordOf env modelId cost item r ->
  wholeRecord env (ImageGen.irSuccess r) (ImageGen.irUrl r)
              (ImageGen.irLocalPath r) (ImageGen.irError r).
Proof.
  intros [p [_ [[m [-> Hm]] | [url [path [dur [-> [Hu Hp]]]]]]]].
  - apply failed_whole. exact Hm.
  - left. repeat split; assumption.
Qed.

Lemma clip_record_whole (env : Env) (model : string) (duration : Z) (cps : Q)
      (shot promptV src : Value) (clip : VideoGen.VideoClipResult) :
  clipRecordOf env model duration cps shot promptV src clip ->
  wholeRecord env (VideoGen.clipSuccess clip) (VideoGen.clipUrl clip)
              (VideoGen.clipLocalPath clip) (VideoGen.clipError clip).
Proof.
  intros [[m [-> Hm]] | [p [url [path [time [_ [-> [Hu Hp]]]]]]]].
  - apply failed_whole. exact Hm.
  - left. repeat split; assumption.
Qed.

Lemma Forall2_Forall_r {A B : Type} (R : A -> B -> Prop) (P : B -> Prop)
      (l : list A) (l' : list B) :
  (forall a b, R a b -> P b) -> Forall2 R l l' -> Forall P l'.
Proof. intros H. induction 1; constructor; eauto. Qed.




(** *** Costs *)


Lemma Forall_impl2 {A : Type} (P Q : A -> Prop) (l : list A) :
  (forall a, P a -> Q a) -> Forall P l -> Forall Q l.
Proof. intros H. induction 1; constructor; auto. Qed.

Lemma successful_clip_costs (duration : Z) (cps : Q) (cents : Z)
      (cs : list VideoGen.VideoClipResult) :
  Fixed.amount ("$" ++ Fixed.toFixed 2 (Double.mul (inject_Z duration) cps))
  = cents ->
  Forall (fun c =>
            if VideoGen.clipSuccess c
            then VideoGen.clipDuration c = duration
                 /\ VideoGen.clipEstimatedCost c
                    = "$" ++ Fixed.toFixed 2
                               (Double.mul (inject_Z duration) cps)
            else VideoGen.clipDuration c = 0%Z
                 /\ VideoGen.clipEstimatedCost c = "$0.00") cs ->
  Forall (fun c => Fixed.amount c = cents)
         (map VideoGen.clipEstimatedCost (filter VideoGen.clipSuccess cs)).
Proof.
  intros Hc. induction 1 as [|c cs Hcost _ IH]; [constructor|].
  cbn [filter]. destruct (VideoGen.clipSuccess c); [|exact IH].
  cbn [map]. constructor; [|exact IH].
  destruct Hcost as [_ ->]. exact Hc.
Qed.



(** *** Failures *)

Lemma coolsDown_skip (indicator : string -> bool) (cooldown : Z)
      (failure : nat -> option string) (k : nat) (pre es : list Event) :
  providerCalls pre = 0 ->
  coolsDown indicator cooldown failure k (pre ++ es)
  = coolsDown indicator cooldown failure k es.
Proof.
  unfold providerCalls. induction pre as [|e pre IH]; [reflexivity|].
  cbn [filter app coolsDown]. destruct (isProviderCall e); [discriminate|].
  exact IH.
Qed.

(** A rejected provider call, in the loop of the video executor. *)
Lemma video_generateOne_rejected (env : Env) (model : string) (duration : Z)
      (ratio inputMode outputDir : string) (total i : nat) (item : WorkItem)
      (tally : VideoGen.Tally) (w : World) (p m s1 s2 : string) :
  prompt item = Str p ->
  toStr (shotNumber item) = Ok s1 ->
  toStr (or (or (aspectRatio item) (Str ratio)) (Str "16:9")) = Ok s2 ->
  VideoGen.useImage env (VideoGen.orText (Some inputMode) "auto")
                    (sourceImage item) = false ->
  runOutcome env (calls w) = Rejects m ->
  IO.result (VideoGen.generateOne (VideoGen.generateSingleClip env) model
               duration ratio inputMode outputDir total i item tally w)
  = Ok {| VideoGen.results :=
            VideoGen.results tally
            ++ [VideoGen.failedClip (shotNumber item) (Str p)
                  (sourceImage item) (VideoGen.orText (Some model) "minimax")
                  m];
          VideoGen.successCount := VideoGen.successCount tally;
          VideoGen.failCount := S (VideoGen.failCount tally) |}.
Proof.
  intros Hp Hs1 Hs2 Himage Hout.
  unfold VideoGen.generateOne, VideoGen.generateSingleClip. io_unfold.
  cbn [VideoGen.optShotNumber VideoGen.optSourceImage VideoGen.optModel
       VideoGen.optDuration VideoGen.optRatio VideoGen.optInputMode].
  rewrite Hs1, Hs2, Hp, Himage. cbn [ImageGen.asPromptText calls].
  destruct (String.eqb (VideoGen.orText (Some model) "minimax") "gen3a_turbo");
    cbn [calls]; rewrite Hout; cbn;
    destruct (Nat.ltb (S i) total); reflexivity.
Qed.




(** *** The assembler *)

Lemma stitchable_successes (clips : list VideoGen.VideoClipResult) :
  Forall (fun c => VideoGen.clipSuccess c = true ->
                   VideoGen.clipLocalPath c <> EmptyString) clips ->
  filter VideoGen.stitchable clips = filter VideoGen.clipSuccess clips.
Proof.
  induction 1 as [|c clips Hc _ IH]; [reflexivity|].
  cbn [filter]. unfold VideoGen.stitchable at 1. rewrite IH.
  destruct (VideoGen.clipSuccess c); [|reflexivity].
  destruct (VideoGen.clipLocalPath c); [|reflexivity].
  exfalso. apply Hc; reflexivity.
Qed.

Lemma clip_record_path (env : Env) (model : string) (duration : Z) (cps : Q)
      (items : list WorkItem) (cs : list VideoGen.VideoClipResult) :
  Forall2 (fun item clip =>
             clipRecordOf env model duration cps (shotNumber item)
                          (prompt item) (sourceImage item) clip) items cs ->
  Forall (fun c => VideoGen.clipSuccess c = true ->
                   VideoGen.clipLocalPath c <> EmptyString) cs.
Proof.
  induction 1 as [|item c items cs Hc _ IH]; constructor; [|exact IH].
  destruct Hc as [[m [-> _]] | [p [url [path [time [_ [-> [_ Hp]]]]]]]].
  - discriminate.
  - intros _. exact Hp.
Qed.



End BatchClaims.

(** * Errors before and inside the loop *)

Module FatalFacts.
Import Js ExecutorRule IOFacts.

Local Arguments firstn : simpl never.
Local Arguments Nat.ltb : simpl never.
Local Arguments String.append : simpl never.
Local Arguments Fixed.toFixed : simpl never.
Local Arguments ImageGen.failedImage : simpl never.
Local Arguments ImageGen.generatedImage : simpl never.
Local Arguments ImageGen.requestOf : simpl never.
Local Arguments Str.includes : simpl never.



(** X2: with a key (one that is not the empty string, which counts as
    none), the normalizer runs before the public directory is made, and
    the directory before the loop: an error of the normalizer, and a
    failure to make the missing directory, end the run with that error
    before anything has happened. *)
Theorem X2_errors_before_the_loop (env : Env) (lastOutput : Value)
        (apiKey : option string) (w : World) (key : string) :
  ImageGen.orString apiKey (envKey env) = Some key ->
  Str.isEmpty key = false ->
  (forall node,
      (forall x,
          ImageGen.extractPrompts lastOutput = Throw x ->
          ImageGen.executeImageGenNode env node lastOutput apiKey w
          = (Throw x, w, []))
      /\ (forall prompts x,
             ImageGen.extractPrompts lastOutput = Ok prompts ->
             fileExists env (ImageGen.publicDirOf env) = false ->
             mkdirError env = Some x ->
             ImageGen.executeImageGenNode env node lastOutput apiKey w
             = (Throw x, w, [])))
  /\ (forall config,
         (forall x,
             VideoGen.promptsOf lastOutput = Throw x ->
             VideoGen.executeVideoGenNode env config lastOutput apiKey w
             = (Throw x, w, []))
         /\ (forall prompts x,
                VideoGen.promptsOf lastOutput = Ok prompts ->
                fileExists env (VideoGen.publicDirOf env "generated-videos")
                = false ->
                mkdirError env = Some x ->
                VideoGen.executeVideoGenNode env config lastOutput apiKey w
                = (Throw x, w, []))).
Proof.
  intros Hkey _. split.
  - intros node.
    rewrite (ExecutorFacts.image_execute_run env lastOutput apiKey node w key
               Hkey).
    split.
    + intros x Hx. unfold IO.bind, IO.lift. rewrite Hx. reflexivity.
    + intros prompts x Hp Hdir Hmk.
      unfold ImageGen.runBatch, ImageGen.ensurePublicDirectory.
      unfold IO.bind, IO.lift, IO.failing, IO.throw.
      rewrite Hp, Hdir, Hmk. reflexivity.
  - intros config.
    rewrite (ExecutorFacts.video_execute_run env lastOutput apiKey config w
               key Hkey).
    split.
    + intros x Hx. unfold IO.bind, IO.lift. rewrite Hx. reflexivity.
    + intros prompts x Hp Hdir Hmk.
      unfold VideoGen.runBatch, VideoGen.ensurePublicDirectory.
      unfold IO.bind, IO.lift, IO.failing, IO.throw.
      rewrite Hp, Hdir, Hmk. reflexivity.
Qed.

Lemma X2_errors_before_the_loop_witness :
  ImageGen.executeImageGenNode Cases.readOnly Examples.fluxNode
    Examples.twoPrompts None Examples.start
  = (Throw "EACCES: permission denied, mkdir '/app/public/generated-images'",
     Examples.start, []).
Proof.
  apply (proj2 (proj1 (X2_errors_before_the_loop Cases.readOnly
                         Examples.twoPrompts None Examples.start "r8_key"
                         eq_refl eq_refl)
                      Examples.fluxNode)
               (Examples.requestedImages 2)); reflexivity.
Defined.

(** *** An item the image loop cannot start on *)

Section Abort.
Variable env : Env.
Variables (modelId : string) (steps : Z) (cost : Q) (publicDir : string).

(** The loop of the image executor reads the shot number and the
    prompt of an item before its [try]: what they raise ends the
    loop. *)
Lemma image_generateOne_unready_run (total i : nat) (item : WorkItem)
      (tally : ImageGen.Tally) (w : World) :
  ready item = false ->
  exists message,
    ImageGen.generateOne env modelId steps cost publicDir total i item
                         tally w
    = (Throw message, w, [])
    /\ (toStr (shotNumber item) = Throw message
        \/ (printsShot item = true
            /\ ImageGen.asPromptText "prompt" (prompt item)
               = Throw message)).
Proof.
  unfold ready, printsShot, ImageGen.generateOne. io_unfold. intros H.
  destruct (toStr (shotNumber item)) as [s|x]; cbn.
  - destruct (prompt item); cbn in H |- *; try discriminate;
      eexists; (split; [reflexivity|]); right; split; reflexivity.
  - eexists. split; [reflexivity|]. left. reflexivity.
Qed.

Lemma image_generateFrom_abort (good : list WorkItem) (bad : WorkItem)
      (rest : list WorkItem) :
  forall (total i : nat) (tally : ImageGen.Tally) (w : World),
    forallb ready good = true ->
    ready bad = false ->
    exists message t es,
      ImageGen.generateFrom env modelId steps cost publicDir total i
                            (good ++ bad :: rest) tally w
      = (Throw message,
         {| clock := t; calls := calls w + List.length good |}, es)
      /\ providerCalls es = List.length good
      /\ (toStr (shotNumber bad) = Throw message
          \/ (printsShot bad = true
              /\ ImageGen.asPromptText "prompt" (prompt bad)
                 = Throw message)).
Proof.
  induction good as [|item good IH]; intros total i tally w Hgood Hbad.
  - cbn [app ImageGen.generateFrom List.length].
    destruct (image_generateOne_unready_run total i bad tally w Hbad)
      as [message [Hrun Hwhy]].
    exists message, (clock w), []. unfold IO.bind. rewrite Hrun.
    rewrite Nat.add_0_r. destruct w. split; [reflexivity|].
    split; [reflexivity | exact Hwhy].
  - cbn [forallb] in Hgood. apply andb_true_iff in Hgood.
    destruct Hgood as [Hitem Hgood].
    destruct (ImageFacts.ready_inv item Hitem) as [s [p [Hs Hp]]].
    assert (Hp' : ImageGen.asPromptText "prompt" (prompt item) = Ok p)
      by (rewrite Hp; reflexivity).
    cbn [app ImageGen.generateFrom List.length]. unfold IO.bind at 1.
    destruct (ImageFacts.generateOne_cases env modelId steps cost publicDir
                total i item tally w s p Hs Hp')
      as [[m [t [Hrun _]]] | [url [path [dur [t [Hrun _]]]]]];
      rewrite Hrun;
      match goal with
      | |- context [ImageGen.generateFrom _ _ _ _ _ _ _ _ ?tl ?wl] =>
          destruct (IH total (S i) tl wl Hgood Hbad)
            as [message [t' [es [Hloop [Hcalls Hwhy]]]]]
      end; rewrite Hloop; cbn [calls];
      exists message, t'; eexists;
      (split; [f_equal; f_equal; f_equal; lia|]);
      (split; [|exact Hwhy]);
      unfold providerCalls in *.
    + destruct (Str.includes "rate limit" m);
        cbn [app filter isProviderCall List.length]; rewrite Hcalls;
        reflexivity.
    + destruct (Nat.ltb (S i) total);
        cbn [app filter isProviderCall List.length]; rewrite Hcalls;
        reflexivity.
Qed.
End Abort.

(** X3: the loop of the image executor reads an item's shot number and
    prompt before its [try].  An item of the capped batch whose shot
    number does not print or whose prompt is not a string ends the run
    with that [TypeError], after one provider call for each item before
    it; their images stay on disk and their records are lost. *)
Theorem X3_unready_item_aborts_image_batch (env : Env)
        (modelKey : ImageGen.FluxModelKey) (steps : Z)
        (good : list WorkItem) (bad : WorkItem) (rest : list WorkItem)
        (w : World) :
  List.length good < ImageGen.MAX_IMAGES ->
  forallb ready good = true ->
  ready bad = false ->
  fileExists env (ImageGen.publicDirOf env) = true \/ mkdirError env = None ->
  exists message,
    IO.result (ImageGen.runBatch env modelKey steps (good ++ bad :: rest) w)
    = Throw message
    /\ providerCalls
         (IO.events (ImageGen.runBatch env modelKey steps
                                       (good ++ bad :: rest) w))
       = List.length good
    /\ (toStr (shotNumber bad) = Throw message
        \/ (printsShot bad = true
            /\ ImageGen.asPromptText "prompt" (prompt bad) = Throw message)).
Proof.
  intros Hlen Hgood Hbad Hdir.
  assert (Hcut : firstn ImageGen.MAX_IMAGES (good ++ bad :: rest)
                 = (good ++ bad
                      :: firstn (ImageGen.MAX_IMAGES - List.length good - 1)
                                rest)%list).
  { rewrite firstn_app, firstn_all2 by lia.
    remember (ImageGen.MAX_IMAGES - List.length good - 1) as k eqn:Hk.
    replace (ImageGen.MAX_IMAGES - List.length good) with (S k) by lia.
    rewrite firstn_cons. reflexivity. }
  destruct (BatchClaims.image_ensure_run env w Hdir) as [prep [Hprep Hnone]].
  unfold ImageGen.runBatch. rewrite Hcut.
  rewrite (bind_Ok _ _ w w (ImageGen.publicDirOf env) prep Hprep).
  set (warn := if Nat.ltb ImageGen.MAX_IMAGES _ then _ else _).
  assert (Hwarn : exists es, warn w = (Ok tt, w, es) /\ providerCalls es = 0).
  { subst warn. destruct (Nat.ltb _ _); eexists; split; reflexivity. }
  destruct Hwarn as [es1 [Hwarn Hquiet]].
  rewrite (bind_Ok _ _ w w tt es1 Hwarn).
  unfold ImageGen.generateAll. cbv zeta.
  match goal with
  | |- context [ImageGen.generateFrom env ?id steps ?c ?dir ?total 0 ?items ?tl] =>
      destruct (image_generateFrom_abort env id steps c dir good bad
                  (firstn (ImageGen.MAX_IMAGES - List.length good - 1) rest)
                  total 0 tl w Hgood Hbad)
        as [message [t [es [Hrun [Hcalls Hwhy]]]]]
  end.
  rewrite (bind_Throw _ _ w _ message es Hrun).
  exists message. cbn [IO.result IO.events fst snd].
  split; [reflexivity|]. split; [|exact Hwhy].
  unfold providerCalls in *. rewrite !filter_app, !length_app. lia.
Qed.

Lemma X3_unready_item_aborts_image_batch_witness :
  exists message,
    IO.result (ImageGen.runBatch Examples.steadyImages ImageGen.FluxDev 28
                 (Examples.requestedImages 2 ++ [Cases.numbered]) Examples.start)
    = Throw message
    /\ providerCalls
         (IO.events (ImageGen.runBatch Examples.steadyImages ImageGen.FluxDev
                       28 (Examples.requestedImages 2 ++ [Cases.numbered])
                       Examples.start))
       = 2
    /\ (toStr (shotNumber Cases.numbered) = Throw message
        \/ (printsShot Cases.numbered = true
            /\ ImageGen.asPromptText "prompt" (prompt Cases.numbered)
               = Throw message)).
Proof.
  apply (X3_unready_item_aborts_image_batch Examples.steadyImages
           ImageGen.FluxDev 28%Z (Examples.requestedImages 2) Cases.numbered []
           Examples.start).
  - cbn. unfold ImageGen.MAX_IMAGES. lia.
  - reflexivity.
  - reflexivity.
  - left. reflexivity.
Defined.



End FatalFacts.

(** * What a run does to the outside world *)

Module TraceFacts.
Import Js Trace.

Lemma events_bind {A B : Type} (m : IO A) (k : A -> IO B) (w : World) :
  IO.events (IO.bind m k w)
  = match IO.result (m w) with
    | Ok a => (IO.events (m w) ++ IO.events (k a (IO.world (m w))))%list
    | Throw _ => IO.events (m w)
    end.
Proof.
  unfold IO.bind, IO.result, IO.world, IO.events.
  destruct (m w) as [[[a|x] w1] es1]; simpl; [|reflexivity].
  destruct (k a w1) as [[r w2] es2]. reflexivity.
Qed.

Lemma events_tryCatch {A : Type} (body : IO A) (handler : string -> IO A)
      (w : World) :
  IO.events (IO.tryCatch body handler w)
  = match IO.result (body w) with
    | Ok _ => IO.events (body w)
    | Throw x =>
        (IO.events (body w) ++ IO.events (handler x (IO.world (body w))))%list
    end.
Proof.
  unfold IO.tryCatch, IO.result, IO.world, IO.events.
  destruct (body w) as [[[a|x] w1] es1]; simpl; [reflexivity|].
  destruct (handler x w1) as [[r w2] es2]. reflexivity.
Qed.

Section Always.
Context {A B : Type}.
Variable P : Event -> Prop.

Lemma always_bind (m : IO A) (k : A -> IO B) :
  always m P -> (forall a, always (k a) P) -> always (IO.bind m k) P.
Proof.
  intros Hm Hk w. rewrite events_bind.
  destruct (IO.result (m w)); [|apply Hm].
  apply Forall_app. split; [apply Hm | apply Hk].
Qed.

Lemma always_tryCatch (body : IO A) (handler : string -> IO A) :
  always body P -> (forall x, always (handler x) P) ->
  always (IO.tryCatch body handler) P.
Proof.
  intros Hm Hk w. rewrite events_tryCatch.
  destruct (IO.result (body w)); [apply Hm|].
  apply Forall_app. split; [apply Hm | apply Hk].
Qed.

Lemma always_ret (a : A) : always (IO.ret a) P.
Proof. intros w. constructor. Qed.

Lemma always_throw (x : string) : always (@IO.throw A x) P.
Proof. intros w. constructor. Qed.

Lemma always_lift (r : Result A) : always (IO.lift r) P.
Proof. intros w. constructor. Qed.
End Always.

Section Leaves.
Variable P : Event -> Prop.

Lemma always_now : always IO.now P.
Proof. intros w. constructor. Qed.

Lemma always_elapse (ms : Z) : always (IO.elapse ms) P.
Proof. intros w. constructor. Qed.

Lemma always_nextCall : always IO.nextCall P.
Proof. intros w. constructor. Qed.

Lemma always_failing (error : option string) : always (IO.failing error) P.
Proof. destruct error; intros w; constructor. Qed.

Lemma always_emit (e : Event) : P e -> always (IO.emit e) P.
Proof. intros H w. constructor; [exact H | constructor]. Qed.

Lemma always_sleep (ms : Z) : P (Slept ms) -> always (IO.sleep ms) P.
Proof. intros H w. constructor; [exact H | constructor]. Qed.
End Leaves.

Lemma always_impl {A : Type} (m : IO A) (P Q : Event -> Prop) :
  (forall e, P e -> Q e) -> always m P -> always m Q.
Proof. intros H Hm w. exact (Forall_impl Q H (Hm w)). Qed.

(** Counting. *)
Lemma count_app (f : Event -> bool) (a b : list Event) :
  count f (a ++ b) = count f a + count f b.
Proof. unfold count. rewrite filter_app, length_app. reflexivity. Qed.

Section Within.
Context {A B : Type}.
Variable f : Event -> bool.

Lemma within_bind (m : IO A) (k : A -> IO B) (a b n : nat) :
  within m f a -> (forall x, within (k x) f b) -> a + b <= n ->
  within (IO.bind m k) f n.
Proof.
  intros Hm Hk Hn w. rewrite events_bind.
  destruct (IO.result (m w)).
  - rewrite count_app. specialize (Hm w). specialize (Hk a0 (IO.world (m w))).
    lia.
  - specialize (Hm w). lia.
Qed.

Lemma within_tryCatch (body : IO A) (handler : string -> IO A) (a b n : nat) :
  within body f a -> (forall x, within (handler x) f b) -> a + b <= n ->
  within (IO.tryCatch body handler) f n.
Proof.
  intros Hm Hk Hn w. rewrite events_tryCatch.
  destruct (IO.result (body w)).
  - specialize (Hm w). lia.
  - rewrite count_app. specialize (Hm w).
    specialize (Hk message (IO.world (body w))). lia.
Qed.

Lemma within_ret (a : A) (n : nat) : within (IO.ret a) f n.
Proof. intros w. apply Nat.le_0_l. Qed.

Lemma within_throw (x : string) (n : nat) : within (@IO.throw A x) f n.
Proof. intros w. apply Nat.le_0_l. Qed.

Lemma within_lift (r : Result A) (n : nat) : within (IO.lift r) f n.
Proof. intros w. apply Nat.le_0_l. Qed.
End Within.

Section WithinLeaves.
Variable f : Event -> bool.

Lemma within_now (n : nat) : within IO.now f n.
Proof. intros w. apply Nat.le_0_l. Qed.

Lemma within_elapse (ms : Z) (n : nat) : within (IO.elapse ms) f n.
Proof. intros w. apply Nat.le_0_l. Qed.

Lemma within_nextCall (n : nat) : within IO.nextCall f n.
Proof. intros w. apply Nat.le_0_l. Qed.

Lemma within_failing (error : option string) (n : nat) :
  within (IO.failing error) f n.
Proof. destruct error; intros w; apply Nat.le_0_l. Qed.

Lemma within_emit (e : Event) (n : nat) :
  (if f e then 1 else 0) <= n -> within (IO.emit e) f n.
Proof.
  intros H w. unfold count. simpl. destruct (f e); simpl; exact H.
Qed.

Lemma within_sleep (ms : Z) (n : nat) :
  (if f (Slept ms) then 1 else 0) <= n -> within (IO.sleep ms) f n.
Proof.
  intros H w. unfold count. simpl. destruct (f (Slept ms)); simpl; exact H.
Qed.
End WithinLeaves.

Lemma requests_app (a b : list Event) :
  requests (a ++ b) = (requests a ++ requests b)%list.
Proof.
  induction a as [|e a IH]; [reflexivity|].
  destruct e; simpl; rewrite IH; reflexivity.
Qed.

(** A refinement of the rule for [try]: the handler runs only on the
    messages the body throws. *)
Lemma always_tryCatch_on {A : Type} (P : Event -> Prop) (E : string -> Prop)
      (body : IO A) (handler : string -> IO A) :
  always body P ->
  IO.satisfies body (fun _ => True) E ->
  (forall x, E x -> always (handler x) P) ->
  always (IO.tryCatch body handler) P.
Proof.
  intros Hm Hs Hk w. rewrite events_tryCatch.
  specialize (Hs w). destruct (IO.result (body w)); [apply Hm|].
  apply Forall_app. split; [apply Hm | apply Hk; exact Hs].
Qed.

End TraceFacts.

Ltac trace_step :=
  first
    [ apply TraceFacts.always_ret | apply TraceFacts.always_throw
    | apply TraceFacts.always_lift | apply TraceFacts.always_now
    | apply TraceFacts.always_elapse | apply TraceFacts.always_nextCall
    | apply TraceFacts.always_failing
    | apply TraceFacts.always_sleep
    | apply TraceFacts.always_emit
    | apply TraceFacts.always_bind; [|intros ?]
    | apply TraceFacts.always_tryCatch; [|intros ?]
    | match goal with
      | |- Trace.always (match ?x with _ => _ end) _ => destruct x
      end ].

Module ImageTraceFacts.
Import Js Normalizer ImageGen ExecutorRule Trace TraceFacts.

Lemma length_take (n : nat) :
  forall s, String.length (Str.take n s) = Nat.min (String.length s) n.
Proof.
  induction n as [|n IH]; intros s.
  - simpl. rewrite Nat.min_0_r. reflexivity.
  - destruct s as [|c s]; [reflexivity|]. simpl. rewrite IH. reflexivity.
Qed.

Lemma take_prefix (n : nat) :
  forall s, exists rest, s = Str.take n s ++ rest.
Proof.
  induction n as [|n IH]; intros s.
  - exists s. reflexivity.
  - destruct s as [|c s]; [exists EmptyString; reflexivity|].
    destruct (IH s) as [rest H]. exists rest. simpl. rewrite <- H.
    reflexivity.
Qed.

(** The prompt sent is the first 4000 characters of the prompt. *)
Lemma truncatePrompt_prefix (p : string) :
  (exists rest, p = truncatePrompt p ++ rest)
  /\ String.length (truncatePrompt p) = Nat.min (String.length p) 4000.
Proof.
  unfold truncatePrompt.
  destruct (4000 <? String.length p)%nat eqn:H.
  - split; [apply take_prefix | apply length_take].
  - apply Nat.ltb_ge in H. split.
    + exists EmptyString. symmetry. apply StrFacts.append_nil_r.
    + symmetry. apply Nat.min_l. exact H.
Qed.

Local Arguments truncatePrompt : simpl never.

Section Run.
Variable env : Env.
Variables (modelId : string) (steps : Z) (cost : Q) (publicDir : string).

Lemma requestOf_step (item : WorkItem) (p : string) :
  imageStep modelId steps (RanModel modelId (requestOf steps item p)).
Proof.
  simpl. split; [reflexivity|]. split; [|repeat split].
  destruct (truncatePrompt_prefix p) as [_ H]. rewrite H.
  apply Nat.le_min_r.
Qed.

Lemma generateOne_always (total i : nat) (item : WorkItem) (tally : Tally) :
  always (generateOne env modelId steps cost publicDir total i item tally)
         (imageStep modelId steps).
Proof.
  unfold generateOne. repeat trace_step;
    try apply requestOf_step; simpl; auto.
Qed.

Lemma generateFrom_always (items : list WorkItem) :
  forall total i tally,
    always (generateFrom env modelId steps cost publicDir total i items tally)
           (imageStep modelId steps).
Proof.
  induction items as [|item rest IH]; intros total i tally; cbn [generateFrom].
  - apply always_ret.
  - apply always_bind; [apply generateOne_always | intros tally'; apply IH].
Qed.

(** The requests of the loop on items that are ready: one for each
    item, in order. *)
Lemma generateFrom_requests (items : list WorkItem) :
  forall total i tally w,
    forallb ready items = true ->
    requests (IO.events (generateFrom env modelId steps cost publicDir total
                           i items tally w))
    = map (fun item =>
             (modelId,
              requestOf steps item
                match prompt item with Str p => p | _ => EmptyString end))
          items.
Proof.
  induction items as [|item rest IH]; intros total i tally w Hready;
    [reflexivity|].
  simpl in Hready. apply andb_true_iff in Hready.
  destruct Hready as [Hitem Hrest].
  destruct (ImageFacts.ready_inv item Hitem) as [s [p [Hs Hp]]].
  assert (Hp' : asPromptText "prompt" (prompt item) = Ok p)
    by (rewrite Hp; reflexivity).
  cbn [generateFrom map]. rewrite events_bind, Hp.
  destruct (ImageFacts.generateOne_cases env modelId steps cost publicDir
              total i item tally w s p Hs Hp')
    as [[m [t [Hrun _]]] | [url [path [dur [t [Hrun _]]]]]];
    rewrite Hrun; cbn [IO.result IO.events IO.world fst snd];
    rewrite requests_app, IH by exact Hrest;
    [destruct (Str.includes "rate limit" m) | destruct (S i <? total)%nat];
    reflexivity.
Qed.
End Run.

Lemma ensurePublicDirectory_requests (env : Env) (w : World) :
  fileExists env (publicDirOf env) = true \/ mkdirError env = None ->
  exists prep,
    ensurePublicDirectory env w = (Ok (publicDirOf env), w, prep)
    /\ requests prep = [].
Proof.
  intros H. unfold ensurePublicDirectory. io_unfold.
  destruct (fileExists env (publicDirOf env)).
  - exists []. split; reflexivity.
  - destruct H as [H|H]; [discriminate|]. rewrite H.
    eexists. split; reflexivity.
Qed.

Lemma runBatch_requests (env : Env) (modelKey : FluxModelKey) (steps : Z)
      (prompts : list WorkItem) (w : World) :
  fileExists env (publicDirOf env) = true \/ mkdirError env = None ->
  forallb ready (firstn MAX_IMAGES prompts) = true ->
  requests (IO.events (runBatch env modelKey steps prompts w))
  = map (fun item =>
           (replicateId (FLUX_MODELS modelKey),
            requestOf steps item
              match prompt item with Str p => p | _ => EmptyString end))
        (firstn MAX_IMAGES prompts).
Proof.
  intros Hdir Hready. unfold runBatch.
  destruct (ensurePublicDirectory_requests env w Hdir) as [prep [Hprep Hnone]].
  rewrite events_bind, Hprep. cbn [IO.result IO.events IO.world fst snd].
  rewrite requests_app, Hnone, app_nil_l.
  rewrite events_bind.
  assert (Hwarn :
            exists warned,
              (if (MAX_IMAGES <? List.length prompts)%nat
               then IO.emit (WarnedLimit MAX_IMAGES (List.length prompts))
               else IO.ret tt) w = (Ok tt, w, warned)
              /\ requests warned = []).
  { destruct (MAX_IMAGES <? List.length prompts)%nat; eexists;
      split; reflexivity. }
  destruct Hwarn as [warned [Hwarn Hquiet]]. rewrite Hwarn.
  cbn [IO.result IO.events IO.world fst snd].
  rewrite requests_app, Hquiet, app_nil_l.
  unfold generateAll. cbv zeta. rewrite events_bind.
  pose proof (generateFrom_requests env (replicateId (FLUX_MODELS modelKey))
                steps (costPerImage (FLUX_MODELS modelKey)) (publicDirOf env)
                (firstn MAX_IMAGES prompts)
                (List.length (firstn MAX_IMAGES prompts)) 0
                {| results := []; successCount := 0; failCount := 0 |} w
                Hready) as Hreq.
  destruct (ImageFacts.generateFrom_run env
              (replicateId (FLUX_MODELS modelKey)) steps
              (costPerImage (FLUX_MODELS modelKey)) (publicDirOf env)
              (firstn MAX_IMAGES prompts)
              (List.length (firstn MAX_IMAGES prompts)) 0
              {| results := []; successCount := 0; failCount := 0 |} w Hready)
    as [rs [t [es [Hrun _]]]].
  rewrite Hrun in *. cbn [IO.result IO.events IO.world fst snd] in *.
  unfold IO.ret. cbn [IO.events snd]. rewrite app_nil_r. exact Hreq.
Qed.

Lemma ensurePublicDirectory_always (env : Env) (modelId : string) (steps : Z) :
  always (ensurePublicDirectory env) (imageStep modelId steps).
Proof.
  unfold ensurePublicDirectory. cbv zeta.
  apply always_bind; [|intros ?; apply always_ret].
  destruct (fileExists env _); [apply always_ret|].
  apply always_bind; [apply always_failing|].
  intros _. apply always_emit. exact I.
Qed.

Lemma runBatch_always (env : Env) (modelKey : FluxModelKey) (steps : Z)
      (prompts : list WorkItem) :
  always (runBatch env modelKey steps prompts)
         (imageStep (replicateId (FLUX_MODELS modelKey)) steps).
Proof.
  unfold runBatch.
  apply always_bind; [apply ensurePublicDirectory_always|]. intros publicDir.
  apply always_bind.
  - destruct (MAX_IMAGES <? List.length prompts)%nat eqn:H; [|apply always_ret].
    apply always_emit. apply Nat.ltb_lt in H. split; [reflexivity | exact H].
  - intros _. unfold generateAll. cbv zeta.
    apply always_bind; [apply generateFrom_always|].
    intros tally. apply always_ret.
Qed.

End ImageTraceFacts.

Module VideoTraceFacts.
Import Js Normalizer VideoGen ExecutorRule Trace TraceFacts IOFacts.

Local Arguments String.append : simpl never.

(** A message on which the loop of the video executor does not cool
    down. *)
Local Abbreviation quiet :=
  (fun x : string =>
     (Str.includes "rate limit" x || Str.includes "429" x)%bool = false).

Lemma sat_any {A : Type} (m : IO A) :
  IO.satisfies m (fun _ => True) (fun _ => True).
Proof. intros w. destruct (IO.result (m w)); exact I. Qed.

Lemma toStr_quiet (v : Value) :
  IO.satisfies (IO.lift (toStr v)) (fun _ => True) quiet.
Proof.
  apply sat_lift. destruct (toStr v) as [s|x] eqn:H; [exact I|].
  rewrite (JsFacts.toStr_message v x H). reflexivity.
Qed.

Lemma asPromptText_quiet (v : Value) :
  IO.satisfies (IO.lift (ImageGen.asPromptText "prompt" v)) (fun _ => True)
               quiet.
Proof. apply sat_lift. destruct v; try exact I; reflexivity. Qed.

(** Neither clip generator throws a message that makes the loop cool
    down: what they throw, they throw before their [try]. *)
Lemma generateSingleClip_quiet (env : Env) (promptV : Value)
      (options : ClipOptions) (outputDir : string) :
  IO.satisfies (generateSingleClip env promptV options outputDir)
               (fun _ => True) quiet.
Proof.
  unfold generateSingleClip.
  eapply sat_bind; [apply sat_now|]. intros startTime _. cbv zeta.
  eapply sat_bind; [apply toStr_quiet|]. intros _ _.
  eapply sat_bind; [apply toStr_quiet|]. intros _ _.
  eapply sat_bind; [apply asPromptText_quiet|]. intros promptText _.
  eapply sat_tryCatch; [apply sat_any|].
  intros x _. apply sat_ret. exact I.
Qed.

Lemma runway_generateSingleClip_quiet (env : Env) (promptV : Value)
      (options : ClipOptions) (outputDir : string) :
  IO.satisfies (Runway.generateSingleClip env promptV options outputDir)
               (fun _ => True) quiet.
Proof.
  unfold Runway.generateSingleClip.
  eapply sat_bind; [apply sat_now|]. intros startTime _. cbv zeta.
  eapply sat_bind; [apply toStr_quiet|]. intros _ _.
  eapply sat_bind; [apply toStr_quiet|]. intros _ _.
  eapply sat_bind; [apply asPromptText_quiet|]. intros promptText _.
  eapply sat_tryCatch; [apply sat_any|].
  intros x _. apply sat_ret. exact I.
Qed.

Section Steps.
Variable env : Env.
Variable P : Event -> Prop.
Hypothesis P_downloaded : forall url path, P (Downloaded url path).

Lemma readSource_always (src : Value) : always (readSource env src) P.
Proof. destruct src; simpl; repeat trace_step. Qed.

Lemma downloadFile_always (outputUrl : Value) (localPath : string) :
  always (downloadFile env outputUrl localPath) P.
Proof. destruct outputUrl; simpl; repeat trace_step; apply P_downloaded. Qed.

Lemma saveClip_always (promptText : string) (options : ClipOptions)
      (model : string) (duration : Z) (costPerSecond : Q)
      (outputDir : string) (startTime : Z) (outputUrl : Value) :
  always (saveClip env promptText options model duration costPerSecond
                   outputDir startTime outputUrl) P.
Proof.
  unfold saveClip. cbv zeta.
  apply always_bind; [apply always_lift|]. intros _.
  apply always_bind; [apply always_now|]. intros timestamp.
  apply always_bind; [apply always_lift|]. intros shot.
  apply always_bind; [apply downloadFile_always|]. intros _.
  apply always_bind; [apply always_now|]. intros finished.
  apply always_ret.
Qed.
End Steps.

Lemma generateSingleClip_always (env : Env) (promptV : Value)
      (options : ClipOptions) (outputDir : string) :
  always (generateSingleClip env promptV options outputDir)
         (clipStep (orText (Some (optModel options)) "minimax")
                   (orNumber (Some (optDuration options)) 5)).
Proof.
  unfold generateSingleClip.
  apply always_bind; [apply always_now|]. intros startTime. cbv zeta.
  apply always_bind; [apply always_lift|]. intros _.
  apply always_bind; [apply always_lift|]. intros _.
  apply always_bind; [apply always_lift|]. intros promptText.
  apply always_tryCatch; [|intros x; apply always_ret].
  apply always_bind.
  { destruct (useImage env _ _); [|apply always_ret].
    apply always_bind; [apply readSource_always | intros path; apply always_ret]. }
  intros image.
  apply always_bind; [apply always_nextCall|]. intros k.
  apply always_bind.
  { destruct (String.eqb (orText (Some (optModel options)) "minimax")
                         "gen3a_turbo") eqn:Hm;
      apply always_emit; unfold clipStep; rewrite Hm; repeat split. }
  intros _.
  apply always_bind; [apply always_elapse|]. intros _.
  apply always_bind.
  { destruct (runOutcome env k);
      [apply always_throw | apply always_lift | apply always_ret]. }
  intros outputUrl. apply saveClip_always. intros url path. exact I.
Qed.

Lemma retrieve_always (env : Env) (P : Event -> Prop) :
  P RetrievedTask -> always (Runway.retrieve env) P.
Proof. intros H. unfold Runway.retrieve. repeat trace_step. exact H. Qed.

Lemma poll_always (env : Env) (P : Event -> Prop) (remaining : nat) :
  P RetrievedTask -> P (Slept 5000) ->
  forall task, always (Runway.poll env remaining task) P.
Proof.
  intros Hr Hs. induction remaining as [|n IH]; intros task.
  - destruct task; apply always_ret.
  - destruct task; try apply always_ret. cbn [Runway.poll].
    apply always_bind; [apply always_sleep; exact Hs|]. intros _.
    apply always_bind; [apply retrieve_always; exact Hr|]. exact IH.
Qed.

Lemma createTask_always (env : Env) (P : Event -> Prop)
      (model promptText : string) (image : option string) :
  P (CreatedTask model promptText image) ->
  always (Runway.createTask env model promptText image) P.
Proof. intros H. unfold Runway.createTask. repeat trace_step. exact H. Qed.

Lemma runway_generateSingleClip_always (env : Env) (promptV : Value)
      (options : ClipOptions) (outputDir : string) :
  always (Runway.generateSingleClip env promptV options outputDir)
         (taskStep (orText (Some (optModel options)) "gen3a_turbo")).
Proof.
  unfold Runway.generateSingleClip.
  apply always_bind; [apply always_now|]. intros startTime. cbv zeta.
  apply always_bind; [apply always_lift|]. intros _.
  apply always_bind; [apply always_lift|]. intros _.
  apply always_bind; [apply always_lift|]. intros promptText.
  apply always_tryCatch; [|intros x; apply always_ret].
  apply always_bind.
  { destruct (useImage env _ _); [|apply createTask_always; reflexivity].
    apply always_bind; [apply readSource_always|].
    intros path. apply createTask_always. reflexivity. }
  intros _.
  apply always_bind; [apply retrieve_always; exact I|]. intros first.
  apply always_bind.
  { apply poll_always; [exact I | right; reflexivity]. }
  intros [|output|failure].
  - apply always_throw.
  - destruct (truthy (Runway.outputUrlOf output)); [|apply always_throw].
    apply saveClip_always. intros url path. exact I.
  - apply always_bind; [apply always_lift | intros reason; apply always_throw].
Qed.

(** The loop, the stitching and the summary, for either clip
    generator. *)
Section Batch.
Variable env : Env.
Variable clipOf : Value -> ClipOptions -> string -> IO VideoClipResult.
Variable P : Event -> Prop.
Variables (model : string) (duration : Z).

Hypothesis clipOf_always :
  forall promptV options dir,
    optModel options = model -> optDuration options = duration ->
    always (clipOf promptV options dir) P.
Hypothesis clipOf_quiet :
  forall promptV options dir,
    IO.satisfies (clipOf promptV options dir) (fun _ => True) quiet.
Hypothesis P_pause : P (Slept 2000).
Hypothesis P_directory : forall dir, P (MadeDirectory dir).
Hypothesis P_manifest : forall path content, P (WroteManifest path content).
Hypothesis P_ffmpeg : forall manifest output, P (RanFfmpeg manifest output).
Hypothesis P_removed : forall path, P (Removed path).
Hypothesis P_warned :
  forall requested, MAX_CLIPS < requested -> P (WarnedLimit MAX_CLIPS requested).

Lemma video_generateOne_always (ratio inputMode outputDir : string)
      (total i : nat) (item : WorkItem) (tally : Tally) :
  always (generateOne clipOf model duration ratio inputMode outputDir
                      total i item tally) P.
Proof.
  unfold generateOne.
  apply always_bind; [apply always_lift|]. intros _.
  apply always_tryCatch_on with (E := quiet).
  - apply always_bind; [apply clipOf_always; reflexivity|]. intros clip.
    apply always_bind; [|intros _; apply always_ret].
    destruct (S i <? total)%nat;
      [apply always_sleep; exact P_pause | apply always_ret].
  - eapply sat_bind; [apply clipOf_quiet|]. intros clip _.
    eapply sat_bind with (P := fun _ => True).
    + destruct (S i <? total)%nat; [apply sat_sleep | apply sat_ret; exact I].
    + intros _ _. apply sat_ret. exact I.
  - intros x Hx. rewrite Hx.
    apply always_bind; [apply always_ret | intros _; apply always_ret].
Qed.

Lemma video_generateFrom_always (ratio inputMode outputDir : string)
      (items : list WorkItem) :
  forall total i tally,
    always (generateFrom clipOf model duration ratio inputMode outputDir
                         total i items tally) P.
Proof.
  induction items as [|item rest IH]; intros total i tally;
    cbn [generateFrom].
  - apply always_ret.
  - apply always_bind; [apply video_generateOne_always|].
    intros tally'. apply IH.
Qed.

Lemma stitch_always (clips : list VideoClipResult) (outputDir : string) :
  always (stitchClipsWithFFmpeg env clips outputDir) P.
Proof.
  unfold stitchClipsWithFFmpeg. cbv zeta.
  destruct (filter (stitchable) clips) as [|c1 [|c2 rest]];
    try apply always_ret.
  apply always_bind; [apply always_now|]. intros timestamp.
  apply always_bind; [apply always_failing|]. intros _.
  apply always_bind; [apply always_emit, P_manifest|]. intros _.
  apply always_bind; [apply always_emit, P_ffmpeg|]. intros _.
  destruct (ffmpegError env).
  - apply always_bind; [|intros _; apply always_throw].
    destruct (fileExists env _);
      [apply always_emit, P_removed | apply always_ret].
  - apply always_bind; [apply always_emit, P_removed|].
    intros _. apply always_ret.
Qed.

Lemma assemble_always (clips : list VideoClipResult) (n : nat)
      (outputDir : string) :
  always (assemble env clips n outputDir) P.
Proof.
  unfold assemble. destruct (0 <? n)%nat; [|apply always_ret].
  apply always_tryCatch; [|intros x; apply always_ret].
  apply always_bind; [apply stitch_always|].
  intros [video|]; apply always_ret.
Qed.

Lemma video_runBatch_always (providerName ratio inputMode : string)
      (costPerSecond : Q) (prompts : list WorkItem) :
  always (runBatch env clipOf providerName model duration ratio inputMode
                   costPerSecond prompts) P.
Proof.
  unfold runBatch.
  apply always_bind.
  { unfold ensurePublicDirectory. cbv zeta.
    apply always_bind; [|intros ?; apply always_ret].
    destruct (fileExists env _); [apply always_ret|].
    apply always_bind; [apply always_failing|].
    intros _. apply always_emit, P_directory. }
  intros outputDir.
  apply always_bind.
  - destruct (MAX_CLIPS <? List.length prompts)%nat eqn:H;
      [|apply always_ret].
    apply always_emit, P_warned. apply Nat.ltb_lt. exact H.
  - intros _. unfold generateAll.
    apply always_bind; [apply video_generateFrom_always|]. intros tally.
    cbv zeta.
    apply always_bind; [apply assemble_always|].
    intros stitched. apply always_ret.
Qed.
End Batch.

Lemma executeVideoGenNode_always (env : Env) (config : VideoGenConfig)
      (lastOutput : Value) (apiKey : option string) :
  always (executeVideoGenNode env config lastOutput apiKey)
         (clipStep (orText (cfgModel config) "minimax")
                   (orNumber (cfgDuration config) 5)).
Proof.
  unfold executeVideoGenNode.
  apply always_bind; [apply always_now|]. intros startTime.
  destruct (ImageGen.orString apiKey (envKey env)); [|apply always_throw].
  cbv zeta. apply always_bind; [apply always_lift|]. intros prompts.
  apply video_runBatch_always; try (intros; exact I); try reflexivity.
  - intros promptV options dir Hm Hd.
    pose proof (generateSingleClip_always env promptV options dir) as H.
    rewrite Hm, Hd in H.
    assert (Em : orText (Some (orText (cfgModel config) "minimax")) "minimax"
                 = orText (cfgModel config) "minimax").
    { unfold orText at 1.
      rewrite (ExecutorFacts.orText_set (cfgModel config) "minimax" eq_refl).
      reflexivity. }
    assert (Ed : orNumber (Some (orNumber (cfgDuration config) 5)) 5
                 = orNumber (cfgDuration config) 5).
    { unfold orNumber at 1.
      rewrite (ExecutorFacts.orNumber_set (cfgDuration config) 5 eq_refl).
      reflexivity. }
    rewrite Em, Ed in H. exact H.
  - apply generateSingleClip_quiet.
  - intros requested H. split; [reflexivity | exact H].
Qed.

Lemma runway_executeVideoGenNode_always (env : Env) (config : VideoGenConfig)
      (lastOutput : Value) (apiKey : option string) :
  always (Runway.executeVideoGenNode env config lastOutput apiKey)
         (taskStep (orText (cfgModel config) "gen3a_turbo")).
Proof.
  unfold Runway.executeVideoGenNode.
  apply always_bind; [apply always_now|]. intros startTime.
  destruct (ImageGen.orString apiKey (envKey env)); [|apply always_throw].
  cbv zeta. apply always_bind; [apply always_lift|]. intros prompts.
  apply video_runBatch_always
    with (duration := orNumber (cfgDuration config) 5);
    try (intros; exact I); try (left; reflexivity).
  - intros promptV options dir Hm Hd.
    pose proof (runway_generateSingleClip_always env promptV options dir) as H.
    rewrite Hm in H.
    assert (Em : orText (Some (orText (cfgModel config) "gen3a_turbo"))
                        "gen3a_turbo"
                 = orText (cfgModel config) "gen3a_turbo").
    { unfold orText at 1.
      rewrite (ExecutorFacts.orText_set (cfgModel config) "gen3a_turbo"
                 eq_refl).
      reflexivity. }
    rewrite Em in H. exact H.
  - apply runway_generateSingleClip_quiet.
  - intros requested H. split; [reflexivity | exact H].
Qed.

End VideoTraceFacts.

Ltac within_silent :=
  first [ apply TraceFacts.within_now | apply TraceFacts.within_lift
        | apply TraceFacts.within_nextCall | apply TraceFacts.within_elapse
        | apply TraceFacts.within_failing | apply TraceFacts.within_ret
        | apply TraceFacts.within_throw ].

(** A step that the count leaves out, then the rest. *)
Ltac within_skip :=
  eapply (TraceFacts.within_bind _ _ _ 0);
  [ first [ within_silent
          | apply TraceFacts.within_emit; simpl; auto; apply Nat.le_0_l
          | apply TraceFacts.within_sleep; simpl; auto; apply Nat.le_0_l ]
  | intros ?
  | apply Nat.le_refl ].

Module BudgetFacts.
Import Js Normalizer ExecutorRule Trace TraceFacts IOFacts.

Local Arguments String.append : simpl never.

Lemma within_le {A : Type} (m : IO A) (f : Event -> bool) (a n : nat) :
  within m f a -> a <= n -> within m f n.
Proof. intros H Hn w. specialize (H w). lia. Qed.

(** *** Images *)

Section Image.
Import ImageGen.
Variable env : Env.
Variables (modelId : string) (steps : Z) (cost : Q) (publicDir : string).

Lemma image_generateOne_within (total i : nat) (item : WorkItem)
      (tally : Tally) :
  within (generateOne env modelId steps cost publicDir total i item tally)
         isProviderCall 1.
Proof.
  unfold generateOne.
  do 3 within_skip.
  eapply (within_tryCatch _ _ _ 1 0).
  - within_skip.
    eapply (within_bind _ _ _ 1 0);
      [apply within_emit; apply Nat.le_refl | intros _ | apply Nat.le_refl].
    within_skip.
    destruct (runOutcome env _); try apply within_throw.
    do 3 within_skip. cbv zeta. do 3 within_skip.
    eapply (within_bind _ _ _ 0);
      [|intros _; apply within_ret | apply Nat.le_refl].
    destruct (S i <? total)%nat;
      [apply within_sleep; apply Nat.le_refl | apply within_ret].
  - intros caught.
    eapply (within_bind _ _ _ 0);
      [|intros _; apply within_ret | apply Nat.le_refl].
    destruct (Str.includes "rate limit" caught);
      [apply within_sleep; apply Nat.le_refl | apply within_ret].
  - apply Nat.le_refl.
Qed.

Lemma image_generateFrom_within (items : list WorkItem) :
  forall total i tally,
    within (generateFrom env modelId steps cost publicDir total i items tally)
           isProviderCall (List.length items).
Proof.
  induction items as [|item rest IH]; intros total i tally;
    cbn [generateFrom List.length].
  - apply within_ret.
  - eapply (within_bind _ _ _ 1 (List.length rest));
      [apply image_generateOne_within | intros tally'; apply IH
      | apply Nat.le_refl].
Qed.
End Image.

Lemma image_executor_within (env : Env) (node : ImageGen.ImageGenNode)
      (lastOutput : Value) (apiKey : option string) :
  within (ImageGen.executeImageGenNode env node lastOutput apiKey)
         isProviderCall ImageGen.MAX_IMAGES.
Proof.
  unfold ImageGen.executeImageGenNode. within_skip.
  destruct (ImageGen.orString apiKey (envKey env)); [|apply within_throw].
  cbv zeta. within_skip. unfold ImageGen.runBatch.
  eapply (within_bind _ _ _ 0);
    [|intros publicDir | apply Nat.le_refl].
  { unfold ImageGen.ensurePublicDirectory. cbv zeta.
    eapply (within_bind _ _ _ 0);
      [|intros ?; apply within_ret | apply Nat.le_refl].
    destruct (fileExists env _); [apply within_ret|].
    within_skip. apply within_emit. apply Nat.le_refl. }
  eapply (within_bind _ _ _ 0); [|intros _ | apply Nat.le_refl].
  { destruct (ImageGen.MAX_IMAGES <? _)%nat;
      [apply within_emit; apply Nat.le_refl | apply within_ret]. }
  unfold ImageGen.generateAll. cbv zeta.
  eapply (within_bind _ _ _ ImageGen.MAX_IMAGES 0);
    [|intros tally; apply within_ret | apply Nat.le_refl].
  eapply within_le; [apply image_generateFrom_within|].
  rewrite length_firstn. apply Nat.le_min_l.
Qed.

(** *** Clips *)

Section Steps.
Variable env : Env.
Variable f : Event -> bool.
Hypothesis f_downloaded : forall url path, f (Downloaded url path) = false.

Lemma readSource_within (src : Value) (n : nat) :
  within (VideoGen.readSource env src) f n.
Proof.
  destruct src; simpl; try apply within_throw.
  eapply within_le; [|apply Nat.le_0_l]. within_skip. apply within_ret.
Qed.

Lemma saveClip_within (promptText : string) (options : VideoGen.ClipOptions)
      (model : string) (duration : Z) (costPerSecond : Q)
      (outputDir : string) (startTime : Z) (outputUrl : Value) (n : nat) :
  within (VideoGen.saveClip env promptText options model duration
                            costPerSecond outputDir startTime outputUrl)
         f n.
Proof.
  eapply within_le; [|apply Nat.le_0_l].
  unfold VideoGen.saveClip. do 3 within_skip. cbv zeta.
  eapply (within_bind _ _ _ 0); [|intros _ | apply Nat.le_refl].
  - unfold VideoGen.downloadFile.
    destruct outputUrl; try apply within_throw.
    within_skip. apply within_emit. rewrite f_downloaded. apply Nat.le_refl.
  - within_skip. apply within_ret.
Qed.
End Steps.

Lemma generateSingleClip_within (env : Env) (promptV : Value)
      (options : VideoGen.ClipOptions) (outputDir : string) :
  within (VideoGen.generateSingleClip env promptV options outputDir)
         isProviderCall 1.
Proof.
  unfold VideoGen.generateSingleClip. within_skip. cbv zeta.
  do 3 within_skip.
  eapply (within_tryCatch _ _ _ 1 0);
    [|intros caught; apply within_ret | apply Nat.le_refl].
  eapply (within_bind _ _ _ 0); [|intros image | apply Nat.le_refl].
  { destruct (VideoGen.useImage env _ _); [|apply within_ret].
    eapply (within_bind _ _ _ 0);
      [apply readSource_within | intros path; apply within_ret
      | apply Nat.le_refl]. }
  within_skip.
  eapply (within_bind _ _ _ 1 0); [|intros _ | apply Nat.le_refl].
  { destruct (String.eqb _ "gen3a_turbo"); apply within_emit;
      apply Nat.le_refl. }
  within_skip.
  eapply (within_bind _ _ _ 0); [|intros outputUrl | apply Nat.le_refl].
  { destruct (runOutcome env _); within_silent. }
  apply saveClip_within. reflexivity.
Qed.

Section Poll.
Variable env : Env.
Variable f : Event -> bool.
(** What a retrieval and a pause of five seconds count for. *)
Variables (r p : nat).
Hypothesis f_retrieved : (if f RetrievedTask then 1 else 0) <= r.
Hypothesis f_paused : (if f (Slept 5000) then 1 else 0) <= p.

Lemma retrieve_within : within (Runway.retrieve env) f r.
Proof.
  unfold Runway.retrieve. within_skip.
  eapply (within_bind _ _ _ r 0);
    [apply within_emit; exact f_retrieved | intros _
    | rewrite Nat.add_0_r; apply Nat.le_refl].
  within_skip. apply within_lift.
Qed.

Lemma poll_within (remaining : nat) :
  forall task,
    within (Runway.poll env remaining task) f (remaining * (p + r)).
Proof.
  induction remaining as [|n IH]; intros task.
  - destruct task; apply within_ret.
  - destruct task; try apply within_ret. cbn [Runway.poll].
    eapply (within_bind _ _ _ p (r + n * (p + r)));
      [apply within_sleep; exact f_paused | intros _ | simpl; lia].
    eapply (within_bind _ _ _ r (n * (p + r)));
      [apply retrieve_within | exact IH | apply Nat.le_refl].
Qed.

Variable c : nat.
Hypothesis f_created :
  forall model promptText image,
    (if f (CreatedTask model promptText image) then 1 else 0) <= c.
Hypothesis f_downloaded : forall url path, f (Downloaded url path) = false.

Lemma createTask_within (model promptText : string) (image : option string) :
  within (Runway.createTask env model promptText image) f c.
Proof.
  unfold Runway.createTask. within_skip.
  eapply (within_bind _ _ _ c 0);
    [apply within_emit; apply f_created | intros _
    | rewrite Nat.add_0_r; apply Nat.le_refl].
  within_skip. apply within_failing.
Qed.

Lemma runway_generateSingleClip_within (promptV : Value)
      (options : VideoGen.ClipOptions) (outputDir : string) :
  within (Runway.generateSingleClip env promptV options outputDir) f
         (c + r + Runway.maxPolls * (p + r)).
Proof.
  unfold Runway.generateSingleClip. within_skip. cbv zeta.
  do 3 within_skip.
  eapply (within_tryCatch _ _ _ _ 0);
    [|intros caught; apply within_ret
     | rewrite Nat.add_0_r; apply Nat.le_refl].
  eapply (within_bind _ _ _ c (r + Runway.maxPolls * (p + r)));
    [|intros _ | lia].
  { destruct (VideoGen.useImage env _ _); [|apply createTask_within].
    eapply (within_bind _ _ _ 0);
      [apply readSource_within | intros path; apply createTask_within
      | apply Nat.le_refl]. }
  eapply (within_bind _ _ _ r (Runway.maxPolls * (p + r)));
    [apply retrieve_within | intros first | apply Nat.le_refl].
  eapply (within_bind _ _ _ (Runway.maxPolls * (p + r)) 0);
    [apply poll_within | intros task
    | rewrite Nat.add_0_r; apply Nat.le_refl].
  destruct task as [|output|failure].
  - apply within_throw.
  - destruct (truthy (Runway.outputUrlOf output)); [|apply within_throw].
    apply saveClip_within. exact f_downloaded.
  - within_skip. apply within_throw.
Qed.
End Poll.

(** The loop, the stitching and the summary, for either clip
    generator. *)
Section Batch.
Import VideoGen.
Variable env : Env.
Variable clipOf : Value -> ClipOptions -> string -> IO VideoClipResult.
Variable f : Event -> bool.
Variable c : nat.

Hypothesis clipOf_within :
  forall promptV options dir, within (clipOf promptV options dir) f c.
Hypothesis f_pause : f (Slept 2000) = false.
Hypothesis f_cooldown : f (Slept 30000) = false.
Hypothesis f_directory : forall dir, f (MadeDirectory dir) = false.
Hypothesis f_manifest :
  forall path content, f (WroteManifest path content) = false.
Hypothesis f_ffmpeg : forall manifest output, f (RanFfmpeg manifest output) = false.
Hypothesis f_removed : forall path, f (Removed path) = false.
Hypothesis f_warned : forall cap requested, f (WarnedLimit cap requested) = false.

Lemma video_generateOne_within (model : string) (duration : Z)
      (ratio inputMode outputDir : string)
      (total i : nat) (item : WorkItem) (tally : Tally) :
  within (generateOne clipOf model duration ratio inputMode outputDir
                      total i item tally) f c.
Proof.
  unfold generateOne. within_skip.
  eapply (within_tryCatch _ _ _ c 0);
    [|intros caught | rewrite Nat.add_0_r; apply Nat.le_refl].
  - eapply (within_bind _ _ _ c 0);
      [apply clipOf_within | intros clip
      | rewrite Nat.add_0_r; apply Nat.le_refl].
    eapply (within_bind _ _ _ 0);
      [|intros _; apply within_ret | apply Nat.le_refl].
    destruct (S i <? total)%nat; [|apply within_ret].
    apply within_sleep. rewrite f_pause. apply Nat.le_refl.
  - eapply (within_bind _ _ _ 0);
      [|intros _; apply within_ret | apply Nat.le_refl].
    destruct (_ || _)%bool; [|apply within_ret].
    apply within_sleep. rewrite f_cooldown. apply Nat.le_refl.
Qed.

Lemma video_generateFrom_within (model : string) (duration : Z)
      (ratio inputMode outputDir : string) (items : list WorkItem) :
  forall total i tally,
    within (generateFrom clipOf model duration ratio inputMode outputDir
                         total i items tally) f (List.length items * c).
Proof.
  induction items as [|item rest IH]; intros total i tally;
    cbn [generateFrom List.length].
  - apply within_ret.
  - eapply (within_bind _ _ _ c (List.length rest * c));
      [apply video_generateOne_within | intros tally'; apply IH
      | simpl; lia].
Qed.

Lemma stitch_within (clips : list VideoClipResult) (outputDir : string) :
  within (stitchClipsWithFFmpeg env clips outputDir) f 0.
Proof.
  unfold stitchClipsWithFFmpeg. cbv zeta.
  destruct (filter stitchable clips) as [|c1 [|c2 rest]];
    try apply within_ret.
  do 2 within_skip.
  eapply (within_bind _ _ _ 0); [|intros _ | apply Nat.le_refl].
  { apply within_emit. rewrite f_manifest. apply Nat.le_refl. }
  eapply (within_bind _ _ _ 0); [|intros _ | apply Nat.le_refl].
  { apply within_emit. rewrite f_ffmpeg. apply Nat.le_refl. }
  destruct (ffmpegError env).
  - eapply (within_bind _ _ _ 0);
      [|intros _; apply within_throw | apply Nat.le_refl].
    destruct (fileExists env _); [|apply within_ret].
    apply within_emit. rewrite f_removed. apply Nat.le_refl.
  - eapply (within_bind _ _ _ 0);
      [|intros _; apply within_ret | apply Nat.le_refl].
    apply within_emit. rewrite f_removed. apply Nat.le_refl.
Qed.

Lemma video_runBatch_within (providerName model : string) (duration : Z)
      (ratio inputMode : string) (costPerSecond : Q)
      (prompts : list WorkItem) :
  within (runBatch env clipOf providerName model duration ratio inputMode
                   costPerSecond prompts) f (MAX_CLIPS * c).
Proof.
  unfold runBatch.
  eapply (within_bind _ _ _ 0); [|intros outputDir | apply Nat.le_refl].
  { unfold ensurePublicDirectory. cbv zeta.
    eapply (within_bind _ _ _ 0);
      [|intros ?; apply within_ret | apply Nat.le_refl].
    destruct (fileExists env _); [apply within_ret|].
    within_skip. apply within_emit. rewrite f_directory. apply Nat.le_refl. }
  eapply (within_bind _ _ _ 0); [|intros _ | apply Nat.le_refl].
  { destruct (MAX_CLIPS <? _)%nat; [|apply within_ret].
    apply within_emit. rewrite f_warned. apply Nat.le_refl. }
  unfold generateAll.
  eapply (within_bind _ _ _ (MAX_CLIPS * c) 0);
    [|intros tally | rewrite Nat.add_0_r; apply Nat.le_refl].
  - eapply within_le; [apply video_generateFrom_within|].
    apply Nat.mul_le_mono_r. rewrite length_firstn. apply Nat.le_min_l.
  - cbv zeta.
    eapply (within_bind _ _ _ 0);
      [|intros stitched; apply within_ret | apply Nat.le_refl].
    unfold assemble. destruct (0 <? _)%nat; [|apply within_ret].
    eapply (within_tryCatch _ _ _ 0 0);
      [|intros caught; apply within_ret | apply Nat.le_refl].
    eapply (within_bind _ _ _ 0);
      [apply stitch_within | intros [video|]; apply within_ret
      | apply Nat.le_refl].
Qed.
End Batch.

Lemma video_executor_within (env : Env) (config : VideoGen.VideoGenConfig)
      (lastOutput : Value) (apiKey : option string) :
  within (VideoGen.executeVideoGenNode env config lastOutput apiKey)
         isProviderCall VideoGen.MAX_CLIPS.
Proof.
  unfold VideoGen.executeVideoGenNode. within_skip.
  destruct (ImageGen.orString apiKey (envKey env)); [|apply within_throw].
  cbv zeta. within_skip.
  eapply within_le;
    [apply video_runBatch_within with (c := 1); try reflexivity;
     apply generateSingleClip_within|].
  apply Nat.le_refl.
Qed.

Lemma runway_executor_within (env : Env) (config : VideoGen.VideoGenConfig)
      (lastOutput : Value) (apiKey : option string) (f : Event -> bool)
      (c r p : nat) :
  (forall model promptText image,
      (if f (CreatedTask model promptText image) then 1 else 0) <= c) ->
  (if f RetrievedTask then 1 else 0) <= r ->
  (if f (Slept 5000) then 1 else 0) <= p ->
  (forall e, isCreation e = false -> isRetrieval e = false ->
             isPause 5000 e = false -> f e = false) ->
  within (Runway.executeVideoGenNode env config lastOutput apiKey) f
         (VideoGen.MAX_CLIPS * (c + r + Runway.maxPolls * (p + r))).
Proof.
  intros Hc Hr Hp Hf.
  unfold Runway.executeVideoGenNode. within_skip.
  destruct (ImageGen.orString apiKey (envKey env)); [|apply within_throw].
  cbv zeta. within_skip.
  apply video_runBatch_within; try (intros; apply Hf; reflexivity).
  intros promptV options dir.
  apply runway_generateSingleClip_within; auto.
Qed.

End BudgetFacts.

Module TraceProperties.
Import Js Normalizer ExecutorRule Trace TraceFacts.




(** X7: the pauses of the video executors.  Through Replicate the only
    pause is the one of two seconds between two clips, and every request
    goes to the one model the configuration selects; on the Runway SDK
    the pauses last two seconds or five.  The cool-down of thirty seconds
    that the loop has for a rate-limit error never happens: the clip
    generators catch the errors of the provider themselves, and what
    they throw is not such an error. *)
Theorem X7_video_cooldown_unreachable (env : Env)
        (config : VideoGen.VideoGenConfig) (lastOutput : Value)
        (apiKey : option string) (w : World) :
  let replicateRun :=
    IO.events (VideoGen.executeVideoGenNode env config lastOutput apiKey w) in
  let runwayRun :=
    IO.events (Runway.executeVideoGenNode env config lastOutput apiKey w) in
  Forall (clipStep (VideoGen.orText (VideoGen.cfgModel config) "minimax")
                   (VideoGen.orNumber (VideoGen.cfgDuration config) 5))
         replicateRun
  /\ Forall (taskStep (VideoGen.orText (VideoGen.cfgModel config)
                                       "gen3a_turbo"))
            runwayRun
  /\ ~ In (Slept 30000) replicateRun
  /\ ~ In (Slept 30000) runwayRun.
Proof.
  intros replicateRun runwayRun.
  pose proof (VideoTraceFacts.executeVideoGenNode_always env config lastOutput
                apiKey w) as H1.
  pose proof (VideoTraceFacts.runway_executeVideoGenNode_always env config
                lastOutput apiKey w) as H2.
  fold replicateRun in H1. fold runwayRun in H2.
  split; [exact H1|]. split; [exact H2|]. split; intros Hin.
  - rewrite Forall_forall in H1. specialize (H1 _ Hin). discriminate H1.
  - rewrite Forall_forall in H2. specialize (H2 _ Hin).
    destruct H2; discriminate.
Qed.

(** X8: what a run can cost at most.  Whatever it is given, the image
    executor makes at most 20 provider calls and the video executor at
    most 10; the executor on the Runway SDK creates at most 10 tasks,
    retrieves a task at most 1210 times and pauses at most 1200 times
    for five seconds. *)
Theorem X8_provider_call_budget (env : Env) (lastOutput : Value)
        (apiKey : option string) (w : World) :
  (forall node,
      providerCalls
        (IO.events (ImageGen.executeImageGenNode env node lastOutput apiKey w))
      <= 20)
  /\ (forall config,
         providerCalls
           (IO.events (VideoGen.executeVideoGenNode env config lastOutput
                                                    apiKey w))
         <= 10)
  /\ (forall config,
         let run :=
           IO.events (Runway.executeVideoGenNode env config lastOutput
                                                 apiKey w) in
         count isCreation run <= 10
         /\ count isRetrieval run <= 1210
         /\ count (isPause 5000) run <= 1200).
Proof.
  split; [|split].
  - intros node.
    exact (BudgetFacts.image_executor_within env node lastOutput apiKey w).
  - intros config.
    exact (BudgetFacts.video_executor_within env config lastOutput apiKey w).
  - intros config run. subst run. split; [|split].
    + apply (BudgetFacts.runway_executor_within env config lastOutput apiKey
               isCreation 1 0 0);
        try reflexivity; intros e H1 H2 H3; assumption.
    + apply (BudgetFacts.runway_executor_within env config lastOutput apiKey
               isRetrieval 0 1 0);
        try reflexivity; try (intros; apply Nat.le_0_l);
        intros e H1 H2 H3; assumption.
    + apply (BudgetFacts.runway_executor_within env config lastOutput apiKey
               (isPause 5000) 0 0 1);
        try reflexivity; try (intros; apply Nat.le_0_l);
        intros e H1 H2 H3; assumption.
Qed.

End TraceProperties.

(** * Polling a Runway task *)

Module PollingFacts.
Import Js Normalizer VideoGen ExecutorRule Trace TraceFacts IOFacts.

Local Arguments String.append : simpl never.
Local Arguments Z.add : simpl never.
Local Arguments Z.mul : simpl never.

Section Run.
Variable env : Env.

Lemma retrieve_run (w : World) :
  Runway.retrieve env w
  = (retrieveOutcome env (calls w),
     {| clock := clock w + latency env (calls w); calls := S (calls w) |},
     [RetrievedTask]).
Proof.
  unfold Runway.retrieve. io_unfold. simpl.
  destruct (retrieveOutcome env (calls w)); reflexivity.
Qed.

Lemma poll_done (n : nat) (st : TaskStatus) (w : World) :
  st <> Pending -> Runway.poll env n st w = (Ok st, w, []).
Proof. intros H. destruct n, st; try reflexivity; contradiction. Qed.

Lemma poll_pending_step (n : nat) (w : World) :
  Runway.poll env (S n) Pending w
  = IO.bind (IO.sleep 5000)
      (fun _ => IO.bind (Runway.retrieve env) (Runway.poll env n)) w.
Proof. reflexivity. Qed.

Hypothesis latency_nonneg : forall k, (0 <= latency env k)%Z.

(** The watch on a task, when the retrieval of rank [i] is the first
    to report a status other than pending. *)
Lemma watch_until (i : nat) :
  forall (n : nat) (w : World) (st : TaskStatus),
    i <= n ->
    (forall j, j < i -> retrieveOutcome env (calls w + j) = Ok Pending) ->
    retrieveOutcome env (calls w + i) = Ok st ->
    st <> Pending ->
    exists t es,
      IO.bind (Runway.retrieve env) (Runway.poll env n) w
      = (Ok st, {| clock := t; calls := calls w + S i |}, es)
      /\ count isRetrieval es = S i
      /\ count (isPause 5000) es = i
      /\ count isProviderCall es = 0
      /\ (clock w + 5000 * Z.of_nat i <= t)%Z.
Proof.
  induction i as [|i IH]; intros n w st Hin Hpending Hst Hdone.
  - rewrite Nat.add_0_r in Hst.
    rewrite (bind_Ok _ _ w _ st [RetrievedTask]
               (eq_trans (retrieve_run w) (f_equal (fun r => (r, _, _)) Hst))).
    rewrite poll_done by exact Hdone.
    cbn [IO.result IO.world IO.events fst snd calls clock app].
    do 2 eexists. split; [rewrite Nat.add_1_r; reflexivity|].
    repeat split. specialize (latency_nonneg (calls w)). lia.
  - destruct n as [|n]; [lia|].
    assert (H0 : retrieveOutcome env (calls w) = Ok Pending).
    { rewrite <- (Nat.add_0_r (calls w)). apply Hpending. lia. }
    rewrite (bind_Ok _ _ w _ Pending [RetrievedTask]
               (eq_trans (retrieve_run w) (f_equal (fun r => (r, _, _)) H0))).
    rewrite poll_pending_step.
    set (w1 := {| clock := clock w + latency env (calls w);
                  calls := S (calls w) |}).
    set (w2 := {| clock := clock w1 + 5000; calls := calls w1 |}).
    assert (Hsleep : IO.sleep 5000 w1 = (Ok tt, w2, [Slept 5000]))
      by reflexivity.
    rewrite (bind_Ok _ _ w1 _ tt [Slept 5000] Hsleep).
    destruct (IH n w2 st) as [t [es [Hrun [Hr [Hp [Hc Ht]]]]]].
    + lia.
    + intros j Hj. cbn [w2 w1 calls].
      replace (S (calls w) + j) with (calls w + S j) by lia.
      apply Hpending. lia.
    + cbn [w2 w1 calls].
      replace (S (calls w) + i) with (calls w + S i) by lia. exact Hst.
    + exact Hdone.
    + rewrite Hrun.
      cbn [IO.result IO.world IO.events fst snd calls clock app w2 w1].
      exists t. eexists. split.
      { f_equal. f_equal. f_equal. lia. }
      unfold count in *. cbn [filter isRetrieval isPause isProviderCall].
      rewrite Z.eqb_refl. cbn [List.length].
      rewrite Hr, Hp, Hc. repeat split.
      cbn [w2 w1 clock] in Ht. specialize (latency_nonneg (calls w)). lia.
Qed.

(** The watch on a task that stays pending. *)
Lemma watch_pending (n : nat) :
  forall (w : World),
    (forall j, j <= n -> retrieveOutcome env (calls w + j) = Ok Pending) ->
    exists t es,
      IO.bind (Runway.retrieve env) (Runway.poll env n) w
      = (Ok Pending, {| clock := t; calls := calls w + S n |}, es)
      /\ count isRetrieval es = S n
      /\ count (isPause 5000) es = n
      /\ count isProviderCall es = 0
      /\ (clock w + 5000 * Z.of_nat n <= t)%Z.
Proof.
  induction n as [|n IH]; intros w Hpending.
  - assert (H0 : retrieveOutcome env (calls w) = Ok Pending).
    { rewrite <- (Nat.add_0_r (calls w)). apply Hpending. lia. }
    rewrite (bind_Ok _ _ w _ Pending [RetrievedTask]
               (eq_trans (retrieve_run w) (f_equal (fun r => (r, _, _)) H0))).
    cbn [Runway.poll IO.ret IO.result IO.world IO.events fst snd calls
                     clock app].
    do 2 eexists. split; [rewrite Nat.add_1_r; reflexivity|].
    repeat split. specialize (latency_nonneg (calls w)). lia.
  - assert (H0 : retrieveOutcome env (calls w) = Ok Pending).
    { rewrite <- (Nat.add_0_r (calls w)). apply Hpending. lia. }
    rewrite (bind_Ok _ _ w _ Pending [RetrievedTask]
               (eq_trans (retrieve_run w) (f_equal (fun r => (r, _, _)) H0))).
    rewrite poll_pending_step.
    set (w1 := {| clock := clock w + latency env (calls w);
                  calls := S (calls w) |}).
    set (w2 := {| clock := clock w1 + 5000; calls := calls w1 |}).
    assert (Hsleep : IO.sleep 5000 w1 = (Ok tt, w2, [Slept 5000]))
      by reflexivity.
    rewrite (bind_Ok _ _ w1 _ tt [Slept 5000] Hsleep).
    destruct (IH w2) as [t [es [Hrun [Hr [Hp [Hc Ht]]]]]].
    + intros j Hj. cbn [w2 w1 calls].
      replace (S (calls w) + j) with (calls w + S j) by lia.
      apply Hpending. lia.
    + rewrite Hrun.
      cbn [IO.result IO.world IO.events fst snd calls clock app w2 w1].
      exists t. eexists. split.
      { f_equal. f_equal. f_equal. lia. }
      unfold count in *. cbn [filter isRetrieval isPause isProviderCall].
      rewrite Z.eqb_refl. cbn [List.length].
      rewrite Hr, Hp, Hc. repeat split.
      cbn [w2 w1 clock] in Ht. specialize (latency_nonneg (calls w)). lia.
Qed.
End Run.

Lemma bind_silent {A B : Type} (m : IO A) (k : A -> IO B) (w : World) (a : A) :
  m w = (Ok a, w, []) -> IO.bind m k w = k a w.
Proof.
  intros H. unfold IO.bind. rewrite H.
  destruct (k a w) as [[r w1] es]. reflexivity.
Qed.

Lemma bind_assoc {A B C : Type} (m : IO A) (k : A -> IO B) (h : B -> IO C)
      (w : World) :
  IO.bind m (fun a => IO.bind (k a) h) w = IO.bind (IO.bind m k) h w.
Proof.
  unfold IO.bind. destruct (m w) as [[[a|x] w1] es1]; [|reflexivity].
  destruct (k a w1) as [[[b|x] w2] es2]; [|reflexivity].
  destruct (h b w2) as [[r w3] es3]. rewrite app_assoc. reflexivity.
Qed.

Lemma createTask_run (env : Env) (model promptText : string)
      (image : option string) (w : World) :
  createOutcome env (calls w) = None ->
  Runway.createTask env model promptText image w
  = (Ok tt,
     {| clock := clock w + latency env (calls w); calls := S (calls w) |},
     [CreatedTask model promptText image]).
Proof.
  intros H. unfold Runway.createTask. io_unfold. simpl. rewrite H.
  reflexivity.
Qed.

(** The clip of a task that is created and watched, and whose last
    status is not one of success with an output: the [catch] of the clip
    generator makes a failed clip of the error thrown after the watch. *)
Lemma clip_of_watch (env : Env) (promptV : Value) (options : ClipOptions)
      (outputDir : string) (w w2 : World) (p s1 s2 msg : string)
      (st : TaskStatus) (es : list Event) :
  promptV = Str p ->
  toStr (optShotNumber options) = Ok s1 ->
  toStr (or (optRatio options) (Str "16:9")) = Ok s2 ->
  useImage env (orText (Some (optInputMode options)) "auto")
           (optSourceImage options) = false
  \/ (exists path, optSourceImage options = Str path
                   /\ readError env path = None) ->
  createOutcome env (calls w) = None ->
  IO.bind (Runway.retrieve env) (Runway.poll env Runway.maxPolls)
          {| clock := clock w + latency env (calls w); calls := S (calls w) |}
  = (Ok st, w2, es) ->
  (st = Pending /\ msg = Runway.timedOut)
  \/ (exists failure reason,
         st = Failed failure
         /\ toStr (or failure (Str "Unknown error")) = Ok reason
         /\ msg = "Video generation failed: " ++ reason)
  \/ (exists output,
         st = Succeeded output
         /\ truthy (Runway.outputUrlOf output) = false
         /\ msg = Runway.noOutputUrl) ->
  exists image,
    Runway.generateSingleClip env promptV options outputDir w
    = (Ok (failedClip (optShotNumber options) (Str p)
                      (optSourceImage options)
                      (orText (Some (optModel options)) "gen3a_turbo") msg),
       w2,
       CreatedTask (orText (Some (optModel options)) "gen3a_turbo") p image
       :: es).
Proof.
  intros Hp Hs1 Hs2 Himage Hcreate Hwatch Hend. subst promptV.
  unfold Runway.generateSingleClip.
  rewrite (bind_silent IO.now _ w (clock w) eq_refl). cbv zeta.
  rewrite (bind_silent (IO.lift (toStr (optShotNumber options))) _ w s1)
    by (unfold IO.lift; rewrite Hs1; reflexivity).
  rewrite (bind_silent (IO.lift (toStr (or (optRatio options) (Str "16:9"))))
             _ w s2)
    by (unfold IO.lift; rewrite Hs2; reflexivity).
  rewrite (bind_silent (IO.lift (ImageGen.asPromptText "prompt" (Str p)))
             _ w p) by reflexivity.
  set (model := orText (Some (optModel options)) "gen3a_turbo").
  set (w1 := {| clock := clock w + latency env (calls w);
                calls := S (calls w) |}) in *.
  assert (Hmake :
            exists image,
              (if useImage env (orText (Some (optInputMode options)) "auto")
                           (optSourceImage options)
               then IO.bind (readSource env (optSourceImage options))
                            (fun path =>
                               Runway.createTask env model p (Some path))
               else Runway.createTask env model p None) w
              = (Ok tt, w1, [CreatedTask model p image])).
  { destruct (useImage env _ _) eqn:Huse.
    - destruct Himage as [Hno | [path [Hsrc Hread]]]; [discriminate|].
      exists (Some path). rewrite Hsrc.
      rewrite (bind_silent (readSource env (Str path)) _ w path).
      + apply createTask_run. exact Hcreate.
      + unfold readSource. rewrite Hread. reflexivity.
    - exists None. apply createTask_run. exact Hcreate. }
  destruct Hmake as [image Hmake]. exists image.
  unfold IO.tryCatch.
  rewrite (bind_Ok _ _ w w1 tt _ Hmake).
  rewrite bind_assoc.
  rewrite (bind_Ok _ _ w1 w2 st es Hwatch).
  destruct Hend as [[Hst Hmsg] | [[failure [reason [Hst [Hreason Hmsg]]]]
                                 | [output [Hst [Hout Hmsg]]]]];
    subst st msg.
  - cbn. rewrite !app_nil_r. reflexivity.
  - unfold IO.bind at 1 2 3. unfold IO.lift. rewrite Hreason.
    cbn. rewrite !app_nil_r. reflexivity.
  - rewrite Hout. cbn. rewrite !app_nil_r. reflexivity.
Qed.





End PollingFacts.

(** * More on the normalizers *)

Module TrimFacts.
Import Str.

Lemma trimEnd_idem (s : string) : trimEnd (trimEnd s) = trimEnd s.
Proof.
  induction s as [|c s IH]; [reflexivity|].
  simpl. destruct (trimEnd s) as [|d t] eqn:E.
  - destruct (isSpace c) eqn:Hc; [reflexivity|]. simpl. rewrite Hc.
    reflexivity.
  - change (trimEnd (String c (String d t)))
      with (match trimEnd (String d t) with
            | EmptyString =>
                if isSpace c then EmptyString else String c EmptyString
            | u => String c u
            end).
    rewrite IH. reflexivity.
Qed.

(** Trimming the end leaves a solid start alone. *)
Lemma trimStart_trimEnd (s : string) :
  trimStart s = s -> trimStart (trimEnd s) = trimEnd s.
Proof.
  destruct s as [|c s]; [reflexivity|]. intros H.
  assert (Hc : isSpace c = false).
  { simpl in H. destruct (isSpace c) eqn:Hc; [|reflexivity].
    exfalso. clear Hc.
    assert (Hlen : forall u, String.length (trimStart u) <= String.length u).
    { induction u as [|a u IHu]; simpl; [lia|].
      destruct (isSpace a); simpl; lia. }
    specialize (Hlen s). rewrite H in Hlen. simpl in Hlen. lia. }
  simpl. destruct (trimEnd s); rewrite ?Hc; simpl; rewrite Hc; reflexivity.
Qed.

Lemma trimStart_idem (s : string) : trimStart (trimStart s) = trimStart s.
Proof.
  induction s as [|c s IH]; [reflexivity|]. simpl.
  destruct (isSpace c) eqn:Hc; [exact IH|]. simpl. rewrite Hc. reflexivity.
Qed.

Lemma trim_idem (s : string) : trim (trim s) = trim s.
Proof.
  unfold trim.
  rewrite (trimStart_trimEnd (trimStart s) (trimStart_idem s)).
  apply trimEnd_idem.
Qed.

Lemma length_trimStart (s : string) :
  String.length (trimStart s) <= String.length s.
Proof.
  induction s as [|c s IH]; simpl; [lia|]. destruct (isSpace c); simpl; lia.
Qed.

Lemma length_trimEnd (s : string) :
  String.length (trimEnd s) <= String.length s.
Proof.
  induction s as [|c s IH]; simpl; [lia|].
  destruct (trimEnd s); [destruct (isSpace c)|]; simpl in *; lia.
Qed.

Lemma length_trim (s : string) : String.length (trim s) <= String.length s.
Proof.
  unfold trim. pose proof (length_trimEnd (trimStart s)).
  pose proof (length_trimStart s). lia.
Qed.

End TrimFacts.

Module MarkdownProperties.
Import Str Markdown StrFacts MarkdownFacts TrimFacts.

Lemma mapi_map {A B C : Type} (g : A -> B) (f : nat -> B -> C) (l : list A) :
  forall i, mapi f i (map g l) = mapi (fun index a => f index (g a)) i l.
Proof. induction l as [|a l IH]; intros i; simpl; [reflexivity|].
       rewrite IH. reflexivity. Qed.

(** Every block that is kept takes at least 58 characters of the text:
    two fences with their newlines, and 50 characters. *)
Lemma kept_weight (fuel : nat) :
  forall text,
    58 * List.length (MarkdownRule.kept (captured fuel text))
    <= String.length text.
Proof.
  induction fuel as [|fuel IH]; intros text; [simpl; lia|].
  cbn [captured]. destruct (exec text) as [[g rest]|] eqn:E; [|simpl; lia].
  specialize (IH rest).
  apply exec_sound in E. destruct E as [before E]. subst text.
  unfold MarkdownRule.fenced. rewrite !length_append.
  change (String.length opening) with 4.
  change (String.length closing) with 4.
  cbn [MarkdownRule.kept filter].
  fold (MarkdownRule.kept (captured fuel rest)).
  destruct (MarkdownRule.discarded g) eqn:D; cbn [negb]; [lia|].
  unfold MarkdownRule.discarded in D.
  apply orb_false_iff in D. destruct D as [_ D].
  apply Nat.ltb_ge in D. pose proof (length_trim g).
  cbn [List.length]. lia.
Qed.


End MarkdownProperties.

Module NormalizerProperties.
Import Js Normalizer NormalizerRule NormalizerFacts.

Lemma mapiM_nil {A B : Type} (f : nat -> A -> Result B) (l : list A) (i : nat) :
  mapiM f i l = Ok [] -> l = [].
Proof.
  intros H. apply mapiM_length in H. destruct l; [reflexivity|discriminate].
Qed.

Lemma promptArray_Some (v : Value) (items : list Value) :
  promptArray v = Ok (Some items) -> items <> [].
Proof.
  destruct v as [| | | | |[|first rest]|]; simpl; try discriminate.
  destruct first; try discriminate.
  destruct (hasKey "prompt" props); intros H;
    [inversion H; subst; intros E; discriminate E | congruence].
Qed.

Lemma firstPromptArray_Some (props : list (string * Value)) (ks : list string)
      (items : list Value) :
  firstPromptArray props ks = Ok (Some items) -> items <> [].
Proof.
  induction ks as [|k ks IH]; simpl; [discriminate|].
  destruct (promptArray (at_ props k)) as [[found|]|] eqn:E; simpl;
    try discriminate.
  - intros H. inversion H; subst. exact (promptArray_Some _ _ E).
  - exact IH.
Qed.

(** The object cases other than [imagePrompts] and [images] never
    yield an empty list. *)
Lemma image_object_nonempty (props : list (string * Value)) :
  (found <- firstPromptArray props (keys props) ;;
   match found with
   | Some value => mapiM ImageGen.ofPrompt 0 value
   | None =>
       if hasKey "prompt" props then Ok [ImageGen.single props]
       else Ok [ImageGen.placeholder]
   end)%js <> Ok [].
Proof.
  destruct (firstPromptArray props (keys props)) as [[value|]|] eqn:E; simpl;
    try discriminate.
  - intros H. apply mapiM_nil in H.
    exact (firstPromptArray_Some _ _ _ E H).
  - destruct (hasKey "prompt" props); discriminate.
Qed.

Lemma filterM_nil (images : list Value) :
  filterM VideoGen.usable images = Ok []
  <-> Forall (fun img => VideoGen.usable img = Ok false) images.
Proof.
  induction images as [|img images IH]; simpl.
  - split; [constructor | reflexivity].
  - destruct (VideoGen.usable img) as [[|]|] eqn:E; simpl.
    + split.
      * destruct (filterM VideoGen.usable images); simpl; discriminate.
      * intros H. inversion H; subst. congruence.
    + destruct (filterM VideoGen.usable images) as [kept|]; simpl.
      * split.
        -- intros H. inversion H; subst. constructor; [exact E|].
           apply IH. reflexivity.
        -- intros H. inversion H; subst.
           match goal with
           | H' : Forall _ images |- _ => apply IH in H'; inversion H'
           end.
           reflexivity.
      * split; [discriminate|].
        intros H. inversion H; subst.
        match goal with
        | H' : Forall _ images |- _ => apply IH in H'; discriminate H'
        end.
    + split; [discriminate|]. intros H. inversion H; subst. congruence.
Qed.

(** X12: the inputs for which a normalizer returns no work item at all.
    The image normalizer returns the empty list exactly on the empty
    array and on an object whose [imagePrompts] is the empty array; the
    video normalizer exactly on the empty array, on an object whose
    [images] array holds no entry with a truthy [success] and [localPath],
    and on an object without an [images] array whose [imagePrompts] is
    the empty array. *)
Theorem X12_inputs_without_work_items (lastOutput : Value) :
  (ImageGen.extractPrompts lastOutput = Ok []
   <-> lastOutput = Arr []
       \/ exists props,
            lastOutput = Obj props /\ at_ props "imagePrompts" = Arr [])
  /\ (VideoGen.extractVideoPrompts lastOutput = Ok []
      <-> lastOutput = Arr []
          \/ exists props,
               lastOutput = Obj props
               /\ ((exists images,
                       at_ props "images" = Arr images
                       /\ Forall (fun img => VideoGen.usable img = Ok false)
                                 images)
                   \/ (asArray (at_ props "images") = None
                       /\ at_ props "imagePrompts" = Arr []))).
Proof.
  split; split.
  - destruct lastOutput as [| | | |s|items|props]; simpl;
      try discriminate.
    + intros H. exfalso. inversion H as [H1].
      exact (image_ofString_nonempty s H1).
    + intros H. apply mapiM_nil in H. subst. left. reflexivity.
    + intros H. right. exists props. split; [reflexivity|].
      destruct (at_ props "imagePrompts") as [| | | | |imagePrompts|] eqn:E;
        try (exfalso; exact (image_object_nonempty props H)).
      apply mapiM_nil in H. subst. reflexivity.
  - intros [H | [props [H E]]]; subst; [reflexivity|].
    simpl. rewrite E. reflexivity.
  - destruct lastOutput as [| | | |s|items|props]; simpl;
      try discriminate.
    + intros H. exfalso. inversion H as [H1].
      exact (video_ofString_nonempty s H1).
    + intros H. apply mapiM_nil in H. subst. left. reflexivity.
    + intros H. right. exists props. split; [reflexivity|].
      destruct (at_ props "images") as [| | | | |images|] eqn:I.
      6:{ left. exists images. split; [reflexivity|].
          apply filterM_nil.
          destruct (filterM VideoGen.usable images) as [kept|]; simpl in H;
            [|discriminate].
          apply mapiM_nil in H. subst. reflexivity. }
      all: right; split; [reflexivity|]; unfold VideoGen.ofObject in H;
        destruct (at_ props "imagePrompts") as [| | | | |imagePrompts|] eqn:E;
        try (exfalso; revert H;
             destruct (firstPromptArray props (keys props))
               as [[value|]|] eqn:F; simpl; try discriminate;
             [intros H; apply mapiM_nil in H;
              exact (firstPromptArray_Some _ _ _ F H)
             |destruct (hasKey "prompt" props); discriminate]);
        apply mapiM_nil in H; subst; reflexivity.
  - intros [H | [props [H [[images [I F]] | [I E]]]]]; subst;
      [reflexivity | |].
    + simpl. rewrite I. apply filterM_nil in F. rewrite F. reflexivity.
    + simpl. destruct (at_ props "images"); try discriminate;
        unfold VideoGen.ofObject; rewrite E; reflexivity.
Qed.

(** The approved or selected images of an approval step, as prompts. *)
Lemma ofApproved_entry (index : nat) (img : Value) :
  nullish img = false ->
  VideoGen.ofApproved index img
  = Ok {| shotNumber := or (field img "shotNumber") (position index);
          prompt := or (field img "originalPrompt") (VideoGen.shotLabel index);
          sourceImage := field img "localPath";
          aspectRatio := Str "16:9";
          style := Undefined |}.
Proof.
  intros H. unfold VideoGen.ofApproved. rewrite !(get_field _ _ H).
  reflexivity.
Qed.

(** X13: approval comes first in the video executor.  When the previous
    output has an [approvedImages] array, or else a [selectedImages]
    array, the executor makes one prompt of each of its entries, in
    order, and looks at nothing else: not at [images], and not at the
    [success] or [aspectRatio] of an entry; every prompt gets the ratio
    16:9.  An entry without a prompt is called "Shot i". *)
Theorem X13_approved_images_first (props : list (string * Value))
        (chosen : list Value) :
  at_ props "approvedImages" = Arr chosen
  \/ (asArray (at_ props "approvedImages") = None
      /\ at_ props "selectedImages" = Arr chosen) ->
  Forall (fun img => nullish img = false) chosen ->
  VideoGen.promptsOf (Obj props)
  = Ok (mapi (fun index img =>
                {| shotNumber := or (field img "shotNumber") (position index);
                   prompt := or (field img "originalPrompt")
                                (VideoGen.shotLabel index);
                   sourceImage := field img "localPath";
                   aspectRatio := Str "16:9";
                   style := Undefined |})
             0 chosen).
Proof.
  intros Hwhich Hall.
  match goal with
  | |- _ = Ok (mapi ?g 0 chosen) =>
      assert (Hmap : mapiM VideoGen.ofApproved 0 chosen = Ok (mapi g 0 chosen))
  end.
  { apply mapiM_total. apply Forall_forall. intros img Hin j.
    apply ofApproved_entry. rewrite Forall_forall in Hall. auto. }
  unfold VideoGen.promptsOf.
  destruct Hwhich as [Ha | [Hno Hs]].
  - rewrite Ha. exact Hmap.
  - destruct (at_ props "approvedImages"); try discriminate;
      rewrite Hs; exact Hmap.
Qed.

Lemma X13_approved_images_first_witness :
  VideoGen.promptsOf (Obj Cases.approval)
  = Ok (mapi (fun index img =>
                {| shotNumber := or (field img "shotNumber") (position index);
                   prompt := or (field img "originalPrompt")
                                (VideoGen.shotLabel index);
                   sourceImage := field img "localPath";
                   aspectRatio := Str "16:9";
                   style := Undefined |})
             0
             [Obj [("shotNumber", Num 2);
                   ("localPath",
                    Str "/app/public/generated-images/shot-2-1700000001000.png");
                   ("originalPrompt", Str "a lake at dawn");
                   ("aspectRatio", Str "4:3");
                   ("success", Bool true)];
              Obj [("shotNumber", Num 3); ("localPath", Str EmptyString);
                   ("success", Bool false)]]).
Proof.
  apply (X13_approved_images_first Cases.approval).
  - left. reflexivity.
  - repeat constructor.
Defined.

(** *** The scan for a nested array of prompts *)

Lemma lookup_app_l (k : string) (a b : list (string * Value)) (v : Value) :
  lookup k a = Some v -> lookup k (a ++ b) = Some v.
Proof.
  induction a as [|[k' x] a IH]; simpl; [discriminate|].
  destruct (String.eqb k k'); auto.
Qed.

Lemma lookup_app_r (k : string) (a b : list (string * Value)) :
  lookup k a = None -> lookup k (a ++ b) = lookup k b.
Proof.
  induction a as [|[k' x] a IH]; simpl; [reflexivity|].
  destruct (String.eqb k k'); [discriminate | auto].
Qed.

Lemma lookup_in (k : string) (a : list (string * Value)) :
  In k (keys a) -> exists v, lookup k a = Some v /\ In v (map snd a).
Proof.
  induction a as [|[k' x] a IH]; simpl; [contradiction|].
  intros [H|H].
  - subst. rewrite String.eqb_refl. eauto.
  - destruct (String.eqb k k'); [eauto|].
    destruct (IH H) as [v [Hv Hin]]. eauto.
Qed.

(** The scan passes over the keys whose values are no arrays of
    prompts. *)
Lemma firstPromptArray_skip (table : list (string * Value)) (ks1 : list string) :
  forall ks2,
    Forall (fun key => promptArray (at_ table key) = Ok None) ks1 ->
    firstPromptArray table (ks1 ++ ks2) = firstPromptArray table ks2.
Proof.
  induction ks1 as [|k ks1 IH]; intros ks2 H; [reflexivity|].
  inversion H; subst. cbn [app firstPromptArray]. rewrite H2. simpl.
  apply IH. exact H3.
Qed.

Lemma scan_before (before after : list (string * Value)) (k : string)
      (value : Value) :
  lookup k before = None ->
  Forall (fun v => promptArray v = Ok None) (map snd before) ->
  firstPromptArray (before ++ (k, value) :: after)
                   (keys (before ++ (k, value) :: after))
  = (found <- promptArray value ;;
     match found with
     | Some items => Ok (Some items)
     | None =>
         firstPromptArray (before ++ (k, value) :: after) (keys after)
     end)%js.
Proof.
  intros Hk Hbefore. unfold keys. rewrite map_app. cbn [map fst].
  rewrite firstPromptArray_skip.
  - cbn [firstPromptArray]. unfold at_.
    rewrite (lookup_app_r k before _ Hk). simpl. rewrite String.eqb_refl.
    reflexivity.
  - apply Forall_forall. intros key Hin.
    destruct (lookup_in key before Hin) as [v [Hv Hsnd]].
    unfold at_. rewrite (lookup_app_l key before _ v Hv).
    rewrite Forall_forall in Hbefore. auto.
Qed.

(** X14: the scan of an object for a nested array of prompts.  The
    normalizers go through the properties in order and take the first
    whose value is a non-empty array with an object that has a [prompt]
    as its first element, whatever comes after it and even when the
    object has a [prompt] of its own; when they first meet an array whose
    first element is [null], they raise a TypeError instead. *)
Theorem X14_first_prompt_array_wins (before after : list (string * Value))
        (k : string) (value : Value) :
  let props := (before ++ (k, value) :: after)%list in
  lookup k before = None ->
  Forall (fun v => promptArray v = Ok None) (map snd before) ->
  asArray (at_ props "imagePrompts") = None ->
  (forall head rest,
      value = Arr (Obj head :: rest) -> hasKey "prompt" head = true ->
      ImageGen.extractPrompts (Obj props)
      = mapiM ImageGen.ofPrompt 0 (Obj head :: rest)
      /\ (asArray (at_ props "images") = None ->
          VideoGen.extractVideoPrompts (Obj props)
          = mapiM VideoGen.ofNested 0 (Obj head :: rest)))
  /\ (forall rest,
         value = Arr (Null :: rest) ->
         ImageGen.extractPrompts (Obj props)
         = Throw (cannotUseIn "prompt" "null")
         /\ (asArray (at_ props "images") = None ->
             VideoGen.extractVideoPrompts (Obj props)
             = Throw (cannotUseIn "prompt" "null"))).
Proof.
  intros props Hk Hbefore Hnone.
  pose proof (scan_before before after k value Hk Hbefore) as Hscan.
  fold props in Hscan.
  assert (Himage :
            ImageGen.extractPrompts (Obj props)
            = (found <- firstPromptArray props (keys props) ;;
               match found with
               | Some items => mapiM ImageGen.ofPrompt 0 items
               | None =>
                   if hasKey "prompt" props then Ok [ImageGen.single props]
                   else Ok [ImageGen.placeholder]
               end)%js).
  { cbn [ImageGen.extractPrompts].
    destruct (at_ props "imagePrompts"); try discriminate; reflexivity. }
  assert (Hvideo :
            asArray (at_ props "images") = None ->
            VideoGen.extractVideoPrompts (Obj props)
            = (found <- firstPromptArray props (keys props) ;;
               match found with
               | Some items => mapiM VideoGen.ofNested 0 items
               | None =>
                   if hasKey "prompt" props then Ok [VideoGen.single props]
                   else Ok [VideoGen.placeholder]
               end)%js).
  { intros Himages. cbn [VideoGen.extractVideoPrompts].
    destruct (at_ props "images"); try discriminate;
      unfold VideoGen.ofObject;
      destruct (at_ props "imagePrompts"); try discriminate; reflexivity. }
  split.
  - intros head rest Hvalue Hprompt. subst value.
    cbn [promptArray] in Hscan. rewrite Hprompt in Hscan.
    split; [|intros Himages; rewrite (Hvideo Himages)];
      rewrite ?Himage, Hscan; reflexivity.
  - intros rest Hvalue. subst value. cbn [promptArray] in Hscan.
    split; [|intros Himages; rewrite (Hvideo Himages)];
      rewrite ?Himage, Hscan; reflexivity.
Qed.

Lemma X14_first_prompt_array_wins_witness :
  let props :=
    (Cases.plan ++ ("shots", Arr Cases.shots)
                :: [("prompt", Str "ignored"); ("more", Arr Cases.shots)])%list
  in
  (forall head rest,
      Arr Cases.shots = Arr (Obj head :: rest) ->
      hasKey "prompt" head = true ->
      ImageGen.extractPrompts (Obj props)
      = mapiM ImageGen.ofPrompt 0 (Obj head :: rest)
      /\ (asArray (at_ props "images") = None ->
          VideoGen.extractVideoPrompts (Obj props)
          = mapiM VideoGen.ofNested 0 (Obj head :: rest)))
  /\ (forall rest,
         Arr Cases.shots = Arr (Null :: rest) ->
         ImageGen.extractPrompts (Obj props)
         = Throw (cannotUseIn "prompt" "null")
         /\ (asArray (at_ props "images") = None ->
             VideoGen.extractVideoPrompts (Obj props)
             = Throw (cannotUseIn "prompt" "null"))).
Proof.
  apply (X14_first_prompt_array_wins Cases.plan
           [("prompt", Str "ignored"); ("more", Arr Cases.shots)]
           "shots" (Arr Cases.shots)).
  - reflexivity.
  - repeat constructor.
  - reflexivity.
Defined.

End NormalizerProperties.

(** * The two versions of the image executor *)

Module VersionFacts.
Import Js Normalizer ExecutorRule IOFacts TraceFacts.
Import Str Markdown StrFacts MarkdownFacts TrimFacts.

(** A captured block is shorter than the text by its two fences. *)
Lemma captured_inside (fuel : nat) :
  forall text g,
    In g (captured fuel text) -> String.length g + 8 <= String.length text.
Proof.
  induction fuel as [|fuel IH]; intros text g; [contradiction|].
  cbn [captured]. destruct (exec text) as [[b rest]|] eqn:E; [|contradiction].
  apply exec_sound in E. destruct E as [before E]. subst text.
  unfold MarkdownRule.fenced. rewrite !length_append.
  change (String.length opening) with 4.
  change (String.length closing) with 4.
  intros [H|H]; [subst; lia|]. specialize (IH rest g H). lia.
Qed.

(** No prompt of markdown extraction is the text itself. *)
Lemma markdown_prompt_shorter (text : string) (item : WorkItem) :
  In item (ImageGen.extractPromptsFromMarkdown text) ->
  prompt item <> Str text.
Proof.
  unfold ImageGen.extractPromptsFromMarkdown. rewrite extract_spec.
  unfold MarkdownRule.numbered.
  generalize 0.
  induction (MarkdownRule.kept (captured (S (String.length text)) text))
    as [|g gs IH] eqn:K; intros n; [contradiction|].
  assert (Hin : forall x, In x (g :: gs) ->
                          String.length x + 8 <= String.length text).
  { intros x Hx. apply (captured_inside (S (String.length text))).
    rewrite <- K in Hx. unfold MarkdownRule.kept in Hx.
    apply filter_In in Hx. exact (proj1 Hx). }
  clear K. revert n.
  induction (g :: gs) as [|x xs IHx]; intros n; [contradiction|].
  cbn [mapi]. intros [H|H].
  - subst item. cbn [prompt ImageGen.markdownItem]. intros Heq.
    inversion Heq as [Hlen].
    pose proof (length_trim x) as Ht. rewrite Hlen in Ht.
    specialize (Hin x (or_introl eq_refl)). lia.
  - apply (IHx (fun y Hy => Hin y (or_intror Hy)) (S n) H).
Qed.

(** Where markdown extraction has nothing to say, the two normalizers
    say the same. *)
Lemma extractPrompts_same (lastOutput : Value) :
  (forall s, lastOutput = Str s ->
             Str.includes Markdown.fence s = false
             \/ ImageGen.extractPromptsFromMarkdown s = []) ->
  Legacy.extractPrompts lastOutput = ImageGen.extractPrompts lastOutput.
Proof.
  intros H. destruct lastOutput as [| | | |s| |]; try reflexivity.
  simpl. unfold ImageGen.ofString.
  destruct (H s eq_refl) as [Hno | Hnone]; [rewrite Hno; reflexivity|].
  rewrite Hnone. destruct (Str.includes Markdown.fence s); reflexivity.
Qed.

(** X15: the earlier normalizer and the present one.  They return the
    same result on every input but a string with a fenced block that
    markdown extraction keeps, which the earlier one takes whole as one
    prompt; on such a string they always differ. *)
Theorem X15_normalizer_versions_agree (lastOutput : Value) :
  Legacy.extractPrompts lastOutput = ImageGen.extractPrompts lastOutput
  <-> (forall s, lastOutput = Str s ->
                 Str.includes Markdown.fence s = false
                 \/ ImageGen.extractPromptsFromMarkdown s = []).
Proof.
  split; [|apply extractPrompts_same].
  intros Heq s Hs. subst lastOutput. simpl in Heq.
  unfold ImageGen.ofString in Heq.
  destruct (Str.includes Markdown.fence s); [|left; reflexivity].
  right.
  destruct (ImageGen.extractPromptsFromMarkdown s) as [|item items] eqn:E;
    [reflexivity|].
  exfalso. inversion Heq as [[Hitem Hitems]].
  apply (markdown_prompt_shorter s item).
  - rewrite E. left. reflexivity.
  - rewrite <- Hitem. reflexivity.
Qed.

Lemma bind_alike {A B C : Type} (R : B -> C -> Prop) (m : IO A)
      (k1 : A -> IO B) (k2 : A -> IO C) (w : World) :
  (forall a w', Legacy.alike R (k1 a w') (k2 a w')) ->
  Legacy.alike R (IO.bind m k1 w) (IO.bind m k2 w).
Proof.
  intros H. unfold IO.bind.
  destruct (m w) as [[[a|x] w1] es1]; [|repeat split].
  specialize (H a w1).
  destruct (k1 a w1) as [[r1 v1] e1]. destruct (k2 a w1) as [[r2 v2] e2].
  destruct H as [He [Hw Hr]].
  cbn [IO.events IO.world IO.result fst snd] in *. subst.
  repeat split. exact Hr.
Qed.

(** The two batches run alike when they are given the same model, the
    same steps and the same price. *)
Lemma runBatch_alike (env : Env) (steps : Z) (prompts : list WorkItem)
      (w : World) :
  Legacy.alike Legacy.agrees
    (Legacy.runBatch env Legacy.defaultModel steps prompts w)
    (ImageGen.runBatch env ImageGen.FluxSchnell steps prompts w).
Proof.
  unfold Legacy.runBatch, ImageGen.runBatch.
  apply bind_alike. intros dir w1.
  apply bind_alike. intros _ w2.
  unfold Legacy.generateAll, ImageGen.generateAll. cbv zeta.
  apply bind_alike. intros tally w3.
  repeat split.
Qed.

(** X16: the earlier executor is the present one set to Flux Schnell.
    On a node that names no model (or names Flux Schnell by its Replicate
    id), and on an input on which the two normalizers agree, a run of
    the earlier executor and a run of the present executor with
    [imageGenConfig.model = 'flux-schnell'] do the same things to the
    outside world, end in the same state, and either throw the same
    error or return the same summary, but for the two model fields that
    only the present one has. *)
Theorem X16_legacy_executor_is_flux_schnell (env : Env)
        (old : Legacy.ImageGenNode) (new : ImageGen.ImageGenNode)
        (lastOutput : Value) (apiKey : option string) (w : World) :
  VideoGen.orText (Legacy.configModel old) Legacy.defaultModel
  = Legacy.defaultModel ->
  ImageGen.imageGenConfigModel new = Some "flux-schnell" ->
  ImageGen.legacyConfigSteps new = Legacy.configSteps old ->
  (forall s, lastOutput = Str s ->
             Str.includes Markdown.fence s = false
             \/ ImageGen.extractPromptsFromMarkdown s = []) ->
  Legacy.alike Legacy.agrees
    (Legacy.executeImageGenNode env old lastOutput apiKey w)
    (ImageGen.executeImageGenNode env new lastOutput apiKey w).
Proof.
  intros Hmodel Hnew Hsteps Hinput.
  unfold Legacy.executeImageGenNode, ImageGen.executeImageGenNode.
  apply bind_alike. intros startTime w1.
  destruct (ImageGen.orString apiKey (envKey env)); [|repeat split].
  cbv zeta. rewrite Hmodel.
  assert (Hkey : ImageGen.resolveModelKey new = ImageGen.FluxSchnell).
  { unfold ImageGen.resolveModelKey. rewrite Hnew. reflexivity. }
  rewrite Hkey, Hsteps.
  rewrite (extractPrompts_same lastOutput Hinput).
  apply bind_alike. intros prompts w2.
  apply runBatch_alike.
Qed.

Lemma X16_legacy_executor_is_flux_schnell_witness :
  Legacy.alike Legacy.agrees
    (Legacy.executeImageGenNode Examples.rateLimited Nodes.bareNode
       Examples.twoPrompts None Examples.start)
    (ImageGen.executeImageGenNode Examples.rateLimited Nodes.schnellNode
       Examples.twoPrompts None Examples.start).
Proof.
  apply (X16_legacy_executor_is_flux_schnell Examples.rateLimited
           Nodes.bareNode Nodes.schnellNode Examples.twoPrompts None
           Examples.start);
    [reflexivity | reflexivity | reflexivity | intros s H; discriminate H].
Defined.

End VersionFacts.

Module ModelFacts.
Import Js Normalizer ExecutorRule IOFacts ImageGen.

Lemma image_fields (env : Env) (node : ImageGenNode) (lastOutput : Value)
      (apiKey : option string) :
  IO.satisfies
    (executeImageGenNode env node lastOutput apiKey)
    (fun out =>
       model out = keyName (resolveModelKey node)
       /\ modelId out = replicateId (FLUX_MODELS (resolveModelKey node)))
    (fun _ => True).
Proof.
  unfold executeImageGenNode.
  eapply sat_bind; [apply VideoTraceFacts.sat_any|]. intros startTime _.
  destruct (orString apiKey (envKey env)); [|apply sat_throw; exact I].
  cbv zeta.
  eapply sat_bind; [apply VideoTraceFacts.sat_any|]. intros prompts _.
  unfold runBatch.
  eapply sat_bind; [apply VideoTraceFacts.sat_any|]. intros publicDir _.
  eapply sat_bind; [apply VideoTraceFacts.sat_any|]. intros _ _.
  unfold generateAll. cbv zeta.
  eapply sat_bind; [apply VideoTraceFacts.sat_any|]. intros tally _.
  apply sat_ret. split; reflexivity.
Qed.

Lemma record_model (env : Env) (modelId : string) (cost : Q)
      (item : WorkItem) (r : ImageResult) :
  imageRecordOf env modelId cost item r -> irModel r = modelId.
Proof.
  intros [p [_ [[m [H _]] | [url [path [dur [H _]]]]]]]; subst r; reflexivity.
Qed.


End ModelFacts.

(** * Saving a workflow *)

Module CleaningFacts.
Import Js Normalizer NormalizerRule Workflow.

(** Induction on values, through the elements of arrays and the values
    of properties. *)
Lemma Value_induction_deep (P : Value -> Prop) :
  P Undefined -> P Null -> (forall b, P (Bool b)) -> (forall n, P (Num n)) ->
  (forall s, P (Str s)) ->
  (forall items, Forall P items -> P (Arr items)) ->
  (forall props, Forall (fun kv => P (snd kv)) props -> P (Obj props)) ->
  forall v, P v.
Proof.
  intros HU HN HB HZ HS HA HO.
  fix IH 1. intros v.
  destruct v as [| |b|n|s|items|props];
    [exact HU | exact HN | apply HB | apply HZ | apply HS | |].
  - apply HA. induction items as [|x items IHitems]; constructor.
    + apply IH.
    + exact IHitems.
  - apply HO. induction props as [|[k x] props IHprops]; constructor.
    + apply IH.
    + exact IHprops.
Qed.

(** *** Assignments *)

Lemma existsb_eqb_In (k : string) (ks : list string) :
  existsb (String.eqb k) ks = true <-> In k ks.
Proof.
  rewrite existsb_exists. split.
  - intros [x [Hin Heq]]. apply String.eqb_eq in Heq. subst. exact Hin.
  - intros H. exists k. split; [exact H | apply String.eqb_refl].
Qed.

Lemma keys_assign (key : string) (value : Value)
      (cleaned : list (string * Value)) :
  keys (assign key value cleaned)
  = if existsb (String.eqb key) (keys cleaned) then keys cleaned
    else (keys cleaned ++ [key])%list.
Proof.
  induction cleaned as [|[k v] cleaned IH]; [reflexivity|].
  cbn [assign keys map fst existsb].
  destruct (String.eqb key k) eqn:E; [reflexivity|].
  cbn [orb keys map fst]. fold (keys (assign key value cleaned)).
  fold (keys cleaned). rewrite IH.
  destruct (existsb (String.eqb key) (keys cleaned)); reflexivity.
Qed.

Lemma assign_fresh (key : string) (value : Value)
      (cleaned : list (string * Value)) :
  existsb (String.eqb key) (keys cleaned) = false ->
  assign key value cleaned = (cleaned ++ [(key, value)])%list.
Proof.
  induction cleaned as [|[k v] cleaned IH]; [reflexivity|].
  cbn [assign keys map fst existsb app]. intros H.
  apply orb_false_iff in H. destruct H as [E H]. rewrite E.
  f_equal. apply IH. exact H.
Qed.

Lemma distinct_snoc (ks : list string) (k : string) :
  distinct ks = true -> existsb (String.eqb k) ks = false ->
  distinct (ks ++ [k]) = true.
Proof.
  induction ks as [|a ks IH]; [reflexivity|].
  cbn [distinct existsb app]. intros Hd Hk.
  apply andb_true_iff in Hd. destruct Hd as [Ha Hd].
  apply orb_false_iff in Hk. destruct Hk as [Hka Hk].
  rewrite (IH Hd Hk), andb_true_r.
  rewrite existsb_app. cbn [existsb].
  apply negb_true_iff in Ha. rewrite Ha. cbn [orb].
  rewrite String.eqb_sym, Hka. reflexivity.
Qed.

Lemma distinct_app_fresh (ks rest : list string) (k : string) :
  distinct (ks ++ k :: rest) = true -> existsb (String.eqb k) ks = false.
Proof.
  induction ks as [|a ks IH]; [reflexivity|].
  cbn [app distinct existsb]. intros H.
  apply andb_true_iff in H. destruct H as [Ha Hd].
  rewrite (IH Hd), orb_false_r.
  apply negb_true_iff in Ha. rewrite existsb_app in Ha.
  apply orb_false_iff in Ha. destruct Ha as [_ Ha].
  cbn [existsb] in Ha. apply orb_false_iff in Ha.
  rewrite String.eqb_sym. exact (proj1 Ha).
Qed.

(** What holds of every entry of a settled object. *)
Local Abbreviation sound :=
  (fun kv : string * Value => negb (reactKey (fst kv)) && settled (snd kv)).

Lemma forallb_assign (key : string) (value : Value)
      (cleaned : list (string * Value)) :
  reactKey key = false -> settled value = true ->
  forallb sound cleaned = true ->
  forallb sound (assign key value cleaned) = true.
Proof.
  intros Hk Hv. induction cleaned as [|[k v] cleaned IH]; cbn [assign forallb].
  - intros _. cbn [fst snd]. rewrite Hk, Hv. reflexivity.
  - intros H. apply andb_true_iff in H. destruct H as [Hkv H].
    destruct (String.eqb key k) eqn:E; cbn [forallb fst snd] in *.
    + apply String.eqb_eq in E. subst k. rewrite Hk, Hv, H. reflexivity.
    + rewrite Hkv. exact (IH H).
Qed.

Lemma settled_assign (key : string) (value : Value)
      (cleaned : list (string * Value)) :
  reactKey key = false -> settled value = true ->
  settled (Obj cleaned) = true ->
  settled (Obj (assign key value cleaned)) = true.
Proof.
  intros Hk Hv H. cbn [settled] in *.
  apply andb_true_iff in H. destruct H as [Hd Hall].
  rewrite (forallb_assign key value cleaned Hk Hv Hall), andb_true_r.
  rewrite keys_assign.
  destruct (existsb (String.eqb key) (keys cleaned)) eqn:E; [exact Hd|].
  apply distinct_snoc; assumption.
Qed.

(** *** The two loops *)

Section Loops.
Variable clean : Value -> Value.

Lemma cleanEntries_settled (entries : list (string * Value)) :
  forall cleaned,
    Forall (fun kv => settled (cleanValue clean (snd kv)) = true) entries ->
    settled (Obj cleaned) = true ->
    settled (Obj (cleanEntries clean entries cleaned)) = true.
Proof.
  induction entries as [|[k v] entries IH]; intros cleaned Hall Hc;
    [exact Hc|].
  inversion Hall; subst. cbn [cleanEntries].
  destruct (reactKey k) eqn:Hk; [apply IH; assumption|].
  apply IH; [assumption|]. apply settled_assign; assumption.
Qed.

Lemma cleanItems_settled (items : list Value) :
  forall index cleaned,
    Forall (fun v => settled (cleanValue clean v) = true) items ->
    settled (Obj cleaned) = true ->
    settled (Obj (cleanItems clean index items cleaned)) = true.
Proof.
  induction items as [|v items IH]; intros index cleaned Hall Hc;
    [exact Hc|].
  inversion Hall; subst. cbn [cleanItems]. cbv zeta.
  destruct (reactKey (Str.ofZ (Z.of_nat index))) eqn:Hk;
    [apply IH; assumption|].
  apply IH; [assumption|]. apply settled_assign; assumption.
Qed.

(** On entries that are settled already, the loop appends them. *)
Lemma cleanEntries_append (entries : list (string * Value)) :
  forall cleaned,
    Forall (fun kv => reactKey (fst kv) = false
                      /\ cleanValue clean (snd kv) = snd kv) entries ->
    distinct (keys cleaned ++ keys entries) = true ->
    cleanEntries clean entries cleaned = (cleaned ++ entries)%list.
Proof.
  induction entries as [|[k v] entries IH]; intros cleaned Hall Hd.
  - rewrite app_nil_r. reflexivity.
  - inversion Hall as [|? ? [Hk Hv] Hrest]; subst. cbn [fst snd] in *.
    cbn [cleanEntries]. rewrite Hk, Hv.
    assert (Hfresh : existsb (String.eqb k) (keys cleaned) = false)
      by exact (distinct_app_fresh (keys cleaned) (keys entries) k Hd).
    rewrite (assign_fresh k v cleaned Hfresh).
    rewrite IH; [rewrite <- app_assoc; reflexivity | exact Hrest |].
    unfold keys in *. rewrite map_app. cbn [map fst].
    rewrite <- app_assoc. exact Hd.
Qed.
End Loops.

(** *** Cleaning *)

Lemma typeofObject_scalar (item : Value) :
  typeofObject item = false ->
  settled item = true /\ asArray item = None.
Proof. destruct item; try discriminate; split; reflexivity. Qed.

(** What cleaning returns is settled, and never an array. *)
Lemma cleanNodeData_settled (data : Value) :
  settled (cleanNodeData data) = true
  /\ settled (cleanValue cleanNodeData data) = true
  /\ asArray (cleanNodeData data) = None.
Proof.
  induction data as [| |b|n|s|items IH|props IH] using Value_induction_deep;
    try (repeat split; reflexivity).
  - assert (Hclean :
              settled (Obj (cleanItems cleanNodeData 0 items [])) = true).
    { apply cleanItems_settled; [|reflexivity].
      apply Forall_forall. intros v Hin.
      rewrite Forall_forall in IH. exact (proj1 (proj2 (IH v Hin))). }
    split; [exact Hclean|]. split; [|reflexivity].
    cbn [cleanValue settled]. rewrite forallb_forall. intros item Hin.
    apply in_map_iff in Hin. destruct Hin as [x [Hx Hin]]. subst item.
    rewrite Forall_forall in IH. specialize (IH x Hin).
    destruct IH as [H1 [_ H3]].
    destruct (typeofObject x) eqn:T.
    + destruct (cleanNodeData x); try discriminate; exact H1.
    + destruct (typeofObject_scalar x T) as [Hs Ha].
      destruct x; try discriminate; exact Hs.
  - assert (Hclean :
              settled (Obj (cleanEntries cleanNodeData props [])) = true).
    { apply cleanEntries_settled; [|reflexivity].
      apply Forall_forall. intros kv Hin.
      rewrite Forall_forall in IH. exact (proj1 (proj2 (IH kv Hin))). }
    repeat split; exact Hclean.
Qed.

Lemma distinct_keys_nil (entries : list (string * Value)) :
  distinct (keys entries) = true ->
  distinct (keys [] ++ keys entries) = true.
Proof. intros H. exact H. Qed.

(** Cleaning leaves settled data as they are. *)
Lemma cleanNodeData_fixed (data : Value) :
  settled data = true ->
  cleanValue cleanNodeData data = data
  /\ (asArray data = None -> cleanNodeData data = data).
Proof.
  induction data as [| |b|n|s|items IH|props IH] using Value_induction_deep;
    intros Hs; try (split; reflexivity).
  - split; [|discriminate].
    cbn [cleanValue]. f_equal. cbn [settled] in Hs.
    rewrite forallb_forall in Hs.
    rewrite <- (map_id items) at 2. apply map_ext_in. intros item Hin.
    specialize (Hs item Hin). rewrite Forall_forall in IH.
    specialize (IH item Hin).
    destruct (typeofObject item) eqn:T; [|reflexivity].
    destruct item; try discriminate; apply IH; try reflexivity; exact Hs.
  - assert (Hfix : cleanNodeData (Obj props) = Obj props).
    { cbn [cleanNodeData]. f_equal.
      cbn [settled] in Hs. apply andb_true_iff in Hs.
      destruct Hs as [Hd Hall].
      rewrite cleanEntries_append; [reflexivity | | exact Hd].
      apply Forall_forall. intros kv Hin.
      rewrite forallb_forall in Hall. specialize (Hall kv Hin).
      apply andb_true_iff in Hall. destruct Hall as [Hk Hv].
      apply negb_true_iff in Hk. split; [exact Hk|].
      rewrite Forall_forall in IH. exact (proj1 (IH kv Hin Hv)). }
    split; [exact Hfix | intros _; exact Hfix].
Qed.

Lemma settled_tidy (data : Value) : settled data = true -> tidy data = true.
Proof.
  induction data as [| |b|n|s|items IH|props IH] using Value_induction_deep;
    intros Hs; try reflexivity.
  - cbn [tidy settled] in *. rewrite forallb_forall in *.
    intros item Hin. specialize (Hs item Hin).
    rewrite Forall_forall in IH. apply (IH item Hin).
    destruct item; try discriminate; exact Hs.
  - cbn [tidy settled] in *. apply andb_true_iff in Hs.
    destruct Hs as [_ Hall]. rewrite forallb_forall in *.
    intros kv Hin. specialize (Hall kv Hin).
    apply andb_true_iff in Hall. destruct Hall as [Hk Hv].
    rewrite Hk. rewrite Forall_forall in IH. exact (IH kv Hin Hv).
Qed.

(** *** The keys of a cleaned array *)

Lemma digitsAcc_head (fuel : nat) :
  forall (n : Z) (acc : string),
    exists d rest,
      (0 <= d < 10)%Z /\ Str.digitsAcc fuel n acc = String (Str.digitChar d) rest.
Proof.
  induction fuel as [|fuel IH]; intros n acc; cbn [Str.digitsAcc].
  - exists (n mod 10)%Z, acc. split; [apply Z.mod_pos_bound; lia | reflexivity].
  - destruct (n <? 10)%Z; [|apply IH].
    exists (n mod 10)%Z, acc. split; [apply Z.mod_pos_bound; lia | reflexivity].
Qed.

Lemma reactKey_index (index : nat) :
  reactKey (Str.ofZ (Z.of_nat index)) = false.
Proof.
  unfold Str.ofZ.
  destruct (Z.of_nat index <? 0)%Z eqn:E; [apply Z.ltb_lt in E; lia|].
  unfold Str.ofNonneg.
  destruct (digitsAcc_head (Z.to_nat (Z.log2 (Z.of_nat index)))
              (Z.of_nat index) EmptyString) as [d [rest [Hd H]]].
  rewrite H. clear H.
  assert (Hc : (d = 0 \/ d = 1 \/ d = 2 \/ d = 3 \/ d = 4 \/ d = 5 \/ d = 6
                \/ d = 7 \/ d = 8 \/ d = 9)%Z) by lia.
  repeat (destruct Hc as [Hc|Hc]; [subst d; reflexivity|]).
  subst d. reflexivity.
Qed.

Lemma ofZ_nat_inj (i j : nat) :
  Str.ofZ (Z.of_nat i) = Str.ofZ (Z.of_nat j) -> i = j.
Proof.
  unfold Str.ofZ.
  destruct (Z.of_nat i <? 0)%Z eqn:Ei; [apply Z.ltb_lt in Ei; lia|].
  destruct (Z.of_nat j <? 0)%Z eqn:Ej; [apply Z.ltb_lt in Ej; lia|].
  intros H.
  pose proof (FixedFacts.readDigits_ofNonneg (Z.of_nat i) EmptyString
                (Nat2Z.is_nonneg i)) as Hi.
  pose proof (FixedFacts.readDigits_ofNonneg (Z.of_nat j) EmptyString
                (Nat2Z.is_nonneg j)) as Hj.
  rewrite H in Hi. rewrite Hi in Hj. cbn [Fixed.readDigits] in Hj. lia.
Qed.

(** The loop on an array makes one entry of each element, under its
    index. *)
Lemma cleanItems_entries (clean : Value -> Value) (items : list Value) :
  forall index cleaned,
    (forall k, In k (keys cleaned) ->
               exists j, j < index /\ k = Str.ofZ (Z.of_nat j)) ->
    cleanItems clean index items cleaned
    = (cleaned
       ++ combine (map (fun i => Str.ofZ (Z.of_nat i))
                       (seq index (List.length items)))
                  (map (cleanValue clean) items))%list.
Proof.
  induction items as [|v items IH]; intros index cleaned Hkeys.
  - cbn. rewrite app_nil_r. reflexivity.
  - cbn [cleanItems]. cbv zeta. rewrite reactKey_index.
    assert (Hfresh : existsb (String.eqb (Str.ofZ (Z.of_nat index)))
                             (keys cleaned) = false).
    { destruct (existsb _ (keys cleaned)) eqn:E; [|reflexivity].
      apply existsb_eqb_In in E. destruct (Hkeys _ E) as [j [Hj Heq]].
      apply ofZ_nat_inj in Heq. lia. }
    rewrite (assign_fresh _ _ _ Hfresh).
    rewrite IH.
    + rewrite <- app_assoc. reflexivity.
    + intros k Hin. unfold keys in Hin. rewrite map_app in Hin.
      apply in_app_iff in Hin. destruct Hin as [Hin|[Hin|[]]].
      * destruct (Hkeys k Hin) as [j [Hj Heq]]. exists j. split; [lia|exact Heq].
      * exists index. split; [lia | symmetry; exact Hin].
Qed.

(** *** The workflow *)

Lemma truthy_clean (data : Value) :
  truthy data = true -> truthy (cleanNodeData data) = true.
Proof. destruct data; intros H; try exact H; reflexivity. Qed.

Lemma or_or (a b : Value) : or (or a b) b = or a b.
Proof.
  unfold or. destruct (truthy a) eqn:Ha; [rewrite Ha; reflexivity|].
  destruct (truthy b); reflexivity.
Qed.

Lemma cleanNodeData_idem (data : Value) :
  cleanNodeData (cleanNodeData data) = cleanNodeData data.
Proof.
  destruct (cleanNodeData_settled data) as [Hs [_ Ha]].
  exact (proj2 (cleanNodeData_fixed _ Hs) Ha).
Qed.

(** A cleaned node has the four keys, and tidy data in an object or a
    scalar. *)
Lemma cleanNode_shape (node out : Value) :
  cleanNode node = Ok out ->
  exists id type position data,
    out = Obj [("id", id); ("type", type); ("position", position);
               ("data", data)]
    /\ settled data = true /\ asArray data = None /\ truthy data = true
    /\ cleanNodeData data = data.
Proof.
  unfold cleanNode. intros H.
  destruct (get node "id") as [id|]; [|discriminate].
  destruct (get node "type") as [type|]; [|discriminate].
  destruct (get node "position") as [position|]; [|discriminate].
  destruct (get node "data") as [data|]; [|discriminate].
  simpl in H. inversion H; subst.
  destruct (cleanNodeData_settled (or data (Obj []))) as [Hs [_ Ha]].
  exists id, type, position, (cleanNodeData (or data (Obj []))).
  split; [reflexivity|]. split; [exact Hs|]. split; [exact Ha|].
  split; [|apply cleanNodeData_idem].
  apply truthy_clean. unfold or. destruct (truthy data) eqn:T; [exact T|].
  reflexivity.
Qed.

Lemma cleanNode_again (node out : Value) :
  cleanNode node = Ok out -> cleanNode out = Ok out.
Proof.
  intros H.
  destruct (cleanNode_shape node out H)
    as [id [type [position [data [Hout [_ [_ [Ht Hfix]]]]]]]].
  subst out. unfold cleanNode. cbn [get lookup String.eqb Ascii.eqb Bool.eqb].
  cbn. unfold or. rewrite Ht, Hfix. reflexivity.
Qed.

Lemma cleanEdge_again (edge out : Value) :
  cleanEdge edge = Ok out -> cleanEdge out = Ok out.
Proof.
  unfold cleanEdge. intros H.
  destruct (get edge "id") as [id|]; [|discriminate].
  destruct (get edge "source") as [source|]; [|discriminate].
  destruct (get edge "target") as [target|]; [|discriminate].
  destruct (get edge "animated") as [animated|]; [|discriminate].
  simpl in H. inversion H; subst. reflexivity.
Qed.

Lemma mapM_again (f : Value -> Result Value) (items : list Value) :
  (forall a b, f a = Ok b -> f b = Ok b) ->
  forall mapped,
    mapM f items = Ok mapped ->
    mapM f mapped = Ok mapped /\ Forall (fun b => exists a, f a = Ok b) mapped.
Proof.
  intros Hf. induction items as [|a items IH]; intros mapped H; simpl in H.
  - inversion H; subst. split; [reflexivity | constructor].
  - destruct (f a) as [b|] eqn:E; simpl in H; [|discriminate].
    destruct (mapM f items) as [bs|]; simpl in H; [|discriminate].
    inversion H; subst. destruct (IH bs eq_refl) as [Hbs Hall].
    split.
    + simpl. rewrite (Hf a b E). simpl. rewrite Hbs. reflexivity.
    + constructor; [exists a; exact E | exact Hall].
Qed.

Lemma mapOrEmpty_again (what : string) (f : Value -> Result Value)
      (values out : Value) :
  (forall a b, f a = Ok b -> f b = Ok b) ->
  mapOrEmpty what f values = Ok out ->
  exists mapped,
    out = Arr mapped
    /\ mapOrEmpty what f out = Ok out
    /\ Forall (fun b => exists a, f a = Ok b) mapped.
Proof.
  intros Hf H. destruct values as [| | | | |items|]; simpl in H;
    try discriminate.
  - inversion H; subst. exists []. repeat split. constructor.
  - inversion H; subst. exists []. repeat split. constructor.
  - destruct (mapM f items) as [mapped|] eqn:E; simpl in H; [|discriminate].
    inversion H; subst. exists mapped.
    destruct (mapM_again f items Hf mapped E) as [Hm Hall].
    split; [reflexivity|]. split; [|exact Hall].
    simpl. rewrite Hm. reflexivity.
Qed.

(** What [sanitizeWorkflowForSave] returns. *)
Lemma sanitize_shape (workflow out : Value) :
  sanitizeWorkflowForSave workflow = Ok out ->
  exists nodes edges,
    out = Obj [("id", field workflow "id");
               ("customId",
                or (field workflow "customId") (field workflow "id"));
               ("name", field workflow "name");
               ("description", field workflow "description");
               ("nodes", Arr nodes);
               ("edges", Arr edges);
               ("createdAt", field workflow "createdAt");
               ("updatedAt", field workflow "updatedAt");
               ("_convexId", field workflow "_convexId");
               ("_id", field workflow "_id")]
    /\ mapOrEmpty "workflow.nodes?.map" cleanNode (Arr nodes) = Ok (Arr nodes)
    /\ mapOrEmpty "workflow.edges?.map" cleanEdge (Arr edges) = Ok (Arr edges)
    /\ Forall (fun b => exists a, cleanNode a = Ok b) nodes
    /\ Forall (fun b => exists a, cleanEdge a = Ok b) edges.
Proof.
  unfold sanitizeWorkflowForSave. intros H.
  assert (Hw : nullish workflow = false).
  { destruct workflow; try reflexivity; discriminate H. }
  rewrite !(NormalizerFacts.get_field workflow _ Hw) in H.
  cbn [bind] in H.
  destruct (mapOrEmpty "workflow.nodes?.map" cleanNode
                       (field workflow "nodes")) as [cleanNodes|] eqn:En;
    [|discriminate].
  cbn [bind] in H.
  destruct (mapOrEmpty "workflow.edges?.map" cleanEdge
                       (field workflow "edges")) as [cleanEdges|] eqn:Ee;
    [|discriminate].
  cbn [bind] in H. inversion H; subst. clear H.
  destruct (mapOrEmpty_again _ _ _ _ cleanNode_again En)
    as [nodes [Hn [Hnodes Hnall]]].
  destruct (mapOrEmpty_again _ _ _ _ cleanEdge_again Ee)
    as [edges [He [Hedges Heall]]].
  subst. exists nodes, edges. repeat split; assumption.
Qed.

End CleaningFacts.

Module CleaningProperties.
Import Js Normalizer NormalizerRule Workflow CleaningFacts.






End CleaningProperties.

(** * The input mode of a clip *)

Module InputModeFacts.
Import Js Normalizer VideoGen ExecutorRule Trace TraceFacts IOFacts.

Local Arguments String.append : simpl never.

Lemma requests_none (es : list Event) :
  Forall (fun e => isRequest e = false) es -> requests es = [].
Proof.
  induction 1 as [|e es He _ IH]; [reflexivity|].
  destruct e; try discriminate; exact IH.
Qed.

(** After the request, a clip generator sends no other. *)
Lemma after_request (env : Env) (promptText : string) (options : ClipOptions)
      (model : string) (duration : Z) (cost : Q) (outputDir : string)
      (startTime : Z) (k : nat) (w : World) :
  requests
    (IO.events
       (IO.bind (IO.elapse (latency env k))
          (fun _ =>
             IO.bind match runOutcome env k with
                     | Rejects message => IO.throw message
                     | Resolves output => IO.lift (outputUrlOf output)
                     | ResolvesStream _ => IO.ret (Obj [])
                     end
                     (fun outputUrl =>
                        saveClip env promptText options model duration cost
                                 outputDir startTime outputUrl)) w))
  = [].
Proof.
  apply requests_none.
  apply (always_bind (fun e => isRequest e = false));
    [apply always_elapse|]. intros _.
  apply always_bind.
  - destruct (runOutcome env k);
      [apply always_throw | apply always_lift | apply always_ret].
  - intros outputUrl. apply VideoTraceFacts.saveClip_always. reflexivity.
Qed.

(** The one request of a clip generator through Replicate. *)
Lemma clip_request (env : Env) (p : string) (options : ClipOptions)
      (outputDir : string) (w : World) (s1 s2 : string)
      (image : option string) :
  toStr (optShotNumber options) = Ok s1 ->
  toStr (or (optRatio options) (Str "16:9")) = Ok s2 ->
  (if useImage env (orText (Some (optInputMode options)) "auto")
               (optSourceImage options)
   then IO.bind (readSource env (optSourceImage options))
                (fun path => IO.ret (Some path))
   else IO.ret None) w = (Ok image, w, []) ->
  exists name input,
    requests (IO.events (generateSingleClip env (Str p) options outputDir w))
    = [(name, input)]
    /\ inImage input = image /\ inPrompt input = p.
Proof.
  intros Hs1 Hs2 Himage. unfold generateSingleClip.
  rewrite (PollingFacts.bind_silent IO.now _ w (clock w) eq_refl). cbv zeta.
  rewrite (PollingFacts.bind_silent
             (IO.lift (toStr (optShotNumber options))) _ w s1)
    by (unfold IO.lift; rewrite Hs1; reflexivity).
  rewrite (PollingFacts.bind_silent
             (IO.lift (toStr (or (optRatio options) (Str "16:9")))) _ w s2)
    by (unfold IO.lift; rewrite Hs2; reflexivity).
  rewrite (PollingFacts.bind_silent
             (IO.lift (ImageGen.asPromptText "prompt" (Str p))) _ w p)
    by reflexivity.
  rewrite events_tryCatch.
  match goal with
  | |- context [IO.events (IO.bind ?m ?k w)] =>
      rewrite (PollingFacts.bind_silent m k w image Himage)
  end.
  match goal with
  | |- context [IO.events (IO.bind IO.nextCall ?k w)] =>
      assert (Hreq :
                exists name input,
                  requests (IO.events (IO.bind IO.nextCall k w))
                  = [(name, input)]
                  /\ inImage input = image /\ inPrompt input = p)
  end.
  { rewrite events_bind.
    cbn [IO.nextCall IO.result IO.events IO.world fst snd app].
    rewrite events_bind.
    destruct (String.eqb (orText (Some (optModel options)) "minimax")
                         "gen3a_turbo");
      cbn [IO.emit IO.result IO.events IO.world fst snd app requests];
      rewrite after_request; do 2 eexists;
      (split; [reflexivity | split; reflexivity]). }
  destruct Hreq as [name [input [Hreq [Hi Hp]]]].
  exists name, input. split; [|split; assumption].
  match goal with
  | |- context [IO.result ?run] => destruct (IO.result run)
  end; [exact Hreq|].
  rewrite requests_app, Hreq. reflexivity.
Qed.



End InputModeFacts.

(** * The workflow table *)

Module TableFacts.
Import Convex.

Lemma find_filter {A : Type} (f : A -> bool) (l : list A) :
  find f l = hd_error (filter f l).
Proof.
  induction l as [|a l IH]; [reflexivity|]. simpl.
  destruct (f a); [reflexivity | exact IH].
Qed.

Lemma delete_absent (id : string) (table : Table) :
  ~ In id (map docId table) -> delete id table = table.
Proof.
  induction table as [|doc table IH]; [reflexivity|].
  cbn [map delete filter]. intros H.
  destruct (String.eqb (docId doc) id) eqn:E.
  - apply String.eqb_eq in E. exfalso. apply H. left. exact E.
  - cbn [negb]. f_equal. apply IH. intros Hin. apply H. right. exact Hin.
Qed.

(** Deleting by the id of a document takes that document out, and no
    other. *)
Lemma delete_one (table : Table) (doc : Doc) :
  NoDup (map docId table) -> In doc table ->
  exists before after,
    table = (before ++ doc :: after)%list
    /\ delete (docId doc) table = (before ++ after)%list
    /\ ~ In doc before.
Proof.
  induction table as [|d table IH]; [contradiction|].
  cbn [map]. intros Hnd Hin. inversion Hnd as [|? ? Hfresh Hrest]; subst.
  destruct (String.eqb (docId d) (docId doc)) eqn:E.
  - apply String.eqb_eq in E.
    assert (Hd : d = doc).
    { destruct Hin as [H|H]; [exact H|]. exfalso. apply Hfresh.
      rewrite E. apply in_map. exact H. }
    subst d. exists [], table. split; [reflexivity|]. split; [|intros []].
    cbn [delete filter app]. rewrite String.eqb_refl. cbn [negb].
    apply delete_absent. exact Hfresh.
  - destruct Hin as [H|H]; [subst; rewrite String.eqb_refl in E; discriminate|].
    destruct (IH Hrest H) as [before [after [Ht [Hdel Hnot]]]].
    exists (d :: before), after. split; [rewrite Ht; reflexivity|]. split.
    + cbn [delete filter app]. rewrite E. cbn [negb]. f_equal. exact Hdel.
    + intros [Hd|Hb]; [|exact (Hnot Hb)].
      subst. rewrite String.eqb_refl in E. discriminate.
Qed.

(** X23: deleting a workflow deletes one document.  When no document
    has the given [customId], [deleteWorkflow] reports [deleted: false]
    and leaves the table as it is.  Otherwise it deletes the oldest
    document of that [customId] and reports its id; every other document
    stays, in its place, the younger documents of the same [customId]
    among them: a look-up of the [customId] afterwards finds the next
    of them, and finds nothing only if there was no other. *)
Theorem X23_delete_removes_one_document (wanted : string) (table : Table) :
  NoDup (map docId table) ->
  let report := fst (deleteWorkflow wanted table) in
  let remaining := snd (deleteWorkflow wanted table) in
  match filter (named wanted) table with
  | [] => report = {| deleted := false; id := None |} /\ remaining = table
  | oldest :: younger =>
      report = {| deleted := true; id := Some (docId oldest) |}
      /\ (exists before after,
             table = (before ++ oldest :: after)%list
             /\ remaining = (before ++ after)%list)
      /\ filter (named wanted) remaining = younger
      /\ getWorkflowByCustomId wanted remaining = hd_error younger
  end.
Proof.
  intros Hnd report remaining. subst report remaining.
  unfold deleteWorkflow, getWorkflowByCustomId.
  rewrite find_filter.
  destruct (filter (named wanted) table) as [|oldest younger] eqn:F;
    cbn [hd_error fst snd]; [split; reflexivity|].
  assert (Hin : In oldest table /\ named wanted oldest = true).
  { apply filter_In. rewrite F. left. reflexivity. }
  destruct Hin as [Hin Hnamed].
  destruct (delete_one table oldest Hnd Hin)
    as [before [after [Ht [Hdel Hnot]]]].
  split; [reflexivity|]. split; [exists before, after; auto|].
  assert (Hyounger : filter (named wanted) (delete (docId oldest) table)
                     = younger).
  { rewrite Hdel. rewrite Ht in F. rewrite filter_app in *.
    cbn [filter] in F. rewrite Hnamed in F.
    assert (Hb : filter (named wanted) before = []).
    { destruct (filter (named wanted) before) as [|b bs] eqn:B;
        [reflexivity|].
      exfalso. cbn [app] in F. inversion F; subst.
      apply Hnot. apply (filter_In (named wanted) oldest before).
      rewrite B. left. reflexivity. }
    rewrite Hb in *. cbn [app] in *. inversion F. reflexivity. }
  split; [exact Hyounger|].
  rewrite find_filter, Hyounger. reflexivity.
Qed.

Lemma X23_delete_removes_one_document_witness :
  let report := fst (deleteWorkflow "cinematic-ad-agent-suite" seededTwice) in
  let remaining := snd (deleteWorkflow "cinematic-ad-agent-suite" seededTwice) in
  match filter (named "cinematic-ad-agent-suite") seededTwice with
  | [] => report = {| deleted := false; id := None |}
          /\ remaining = seededTwice
  | oldest :: younger =>
      report = {| deleted := true; id := Some (docId oldest) |}
      /\ (exists before after,
             seededTwice = (before ++ oldest :: after)%list
             /\ remaining = (before ++ after)%list)
      /\ filter (named "cinematic-ad-agent-suite") remaining = younger
      /\ getWorkflowByCustomId "cinematic-ad-agent-suite" remaining
         = hd_error younger
  end.
Proof.
  apply (X23_delete_removes_one_document "cinematic-ad-agent-suite"
           seededTwice).
  repeat constructor; simpl; intuition discriminate.
Defined.

End TableFacts.
